(** * AutoOMR: the result-review workflow, embedded and verified

    A shallow embedding of the client-side logic of the AutoOMR dashboard
    (App.tsx, types.ts, services/geminiService.ts):

    - the synthetic result generator [generateMockResult];
    - the simulated per-file processing pipeline of [ProcessingDashboard];
    - the review table of [ResultsView]: search, status filter, sort,
      pagination, CSV export;
    - the list operations of [App]: append, approve, delete, and the
      localStorage persistence effects;
    - the AI-insights call [generateAnalyticsInsights];
    - the statistics of [AnalyticsView] and its insights panel:
      [analyticsData], [handleGenerateInsights], [renderInsights].

    Conventions of the embedding.  JavaScript numbers that hold integers are
    [Z]; the others (confidence, progress, the draws of [Math.random]) are
    exact rationals [Q], so the rounding of double arithmetic is not part of
    the model.  Strings are sequences of 8-bit code units with the ASCII case
    mapping.  A [Date] is its time value in milliseconds since the epoch.
    Every call of [Math.random] reads the next element of a stream of draws,
    and the clock and the time zone are inputs. *)

From Stdlib Require Import ZArith QArith Qround List String Ascii Bool Lia Lqa.
From Stdlib Require Import Permutation Sorted OrderedTypeEx.
From stdpp Require Import gmap strings list pretty.
Import ListNotations.

Open Scope Z_scope.

(** ** Strings *)

Module Str.

Definition is_upper (c : ascii) : bool :=
  let n := nat_of_ascii c in ((65 <=? n) && (n <=? 90))%nat.

(** [String.prototype.toLowerCase], on ASCII letters. *)
Definition lower_char (c : ascii) : ascii :=
  if is_upper c then ascii_of_nat (nat_of_ascii c + 32) else c.

Fixpoint toLowerCase (s : string) : string :=
  match s with
  | EmptyString => EmptyString
  | String c s' => String (lower_char c) (toLowerCase s')
  end.

(** [s.startsWith(t)] *)
Fixpoint startsWith (s t : string) : bool :=
  match t, s with
  | EmptyString, _ => true
  | String _ _, EmptyString => false
  | String b t', String a s' => Ascii.eqb a b && startsWith s' t'
  end.

(** [s.includes(t)]: some suffix of [s] starts with [t]. *)
Fixpoint includes (s t : string) : bool :=
  startsWith s t ||
  match s with
  | EmptyString => false
  | String _ s' => includes s' t
  end.

(** [s < t] on two strings: lexicographic order of the code units. *)
Definition lt (s t : string) : bool :=
  match String.compare s t with Lt => true | _ => false end.

(** [String.fromCharCode(n)] *)
Definition fromCharCode (n : Z) : string :=
  String (ascii_of_nat (Z.to_nat n)) EmptyString.

(** The character of the last decimal digit of [n]. *)
Definition digit_char (n : Z) : ascii := ascii_of_nat (Z.to_nat (48 + n mod 10)).

(** Decimal digits of [n], left-padded with zeros to [width] characters. *)
Fixpoint pad_digits (width : nat) (n : Z) (acc : string) : string :=
  match width with
  | O => acc
  | S w => pad_digits w (n / 10) (String (digit_char n) acc)
  end.

Definition padStart0 (width : nat) (n : Z) : string :=
  pad_digits width n EmptyString.

Definition is_digit (c : ascii) : bool :=
  let n := nat_of_ascii c in ((48 <=? n) && (n <=? 57))%nat.

Definition digit_val (c : ascii) : Z := Z.of_nat (nat_of_ascii c) - 48.

(** Reads exactly [n] decimal digits from the front of [s]. *)
Fixpoint read_digits (n : nat) (acc : Z) (s : string) : option (Z * string) :=
  match n with
  | O => Some (acc, s)
  | S n' =>
      match s with
      | String c s' =>
          if is_digit c then read_digits n' (10 * acc + digit_val c) s'
          else None
      | EmptyString => None
      end
  end.

(** Expects the character [c] at the front of [s]. *)
Definition expect (c : ascii) (s : string) : option string :=
  match s with
  | String a s' => if Ascii.eqb a c then Some s' else None
  | EmptyString => None
  end.

End Str.

(** ** Numbers: the values a relational comparison works on *)

(** An ECMAScript Number, as far as [<] and [>] can tell: not-a-number,
    the two infinities, or a finite value. *)
Inductive Num : Type :=
| NaN
| NegInf
| Fin (q : Q)
| PosInf.

Definition Qltb (x y : Q) : bool := negb (Qle_bool y x).

(** [x < y] on Numbers; a comparison with NaN is false. *)
Definition num_lt (x y : Num) : bool :=
  match x, y with
  | NaN, _ | _, NaN => false
  | _, NegInf => false
  | NegInf, _ => true
  | PosInf, _ => false
  | Fin _, PosInf => true
  | Fin a, Fin b => Qltb a b
  end.

(** ** Dates *)

Module DateTime.

Definition msPerDay : Z := 86400000.

(** Civil date of a day number counted from 1970-01-01 (proleptic Gregorian
    calendar, as ECMAScript's YearFromTime, MonthFromTime and DateFromTime).
    Returns (year, month 1..12, day 1..31). *)
Definition civil_from_days (days : Z) : Z * Z * Z :=
  let z := days + 719468 in
  let era := z / 146097 in
  let doe := z mod 146097 in
  let yoe := (doe - doe / 1460 + doe / 36524 - doe / 146096) / 365 in
  let doy := doe - (365 * yoe + yoe / 4 - yoe / 100) in
  let mp := (5 * doy + 2) / 153 in
  let d := doy - (153 * mp + 2) / 5 + 1 in
  let m := if mp <? 10 then mp + 3 else mp - 9 in
  let y := yoe + era * 400 + (if m <=? 2 then 1 else 0) in
  (y, m, d).

(** Day number of a civil date (ECMAScript's MakeDay). *)
Definition days_from_civil (y m d : Z) : Z :=
  let y' := if m <=? 2 then y - 1 else y in
  let era := y' / 400 in
  let yoe := y' - era * 400 in
  let doy := (153 * (if 2 <? m then m - 3 else m + 9) + 2) / 5 + d - 1 in
  let doe := yoe * 365 + yoe / 4 - yoe / 100 + doy in
  era * 146097 + doe - 719468.

(** The year of [toISOString]: four digits for 0..9999, otherwise a sign and
    six digits. *)
Definition iso_year (y : Z) : string :=
  if ((0 <=? y) && (y <=? 9999))%Z then Str.padStart0 4 y
  else String.append (if (y <? 0)%Z then "-" else "+")%string
                     (Str.padStart0 6 (Z.abs y)).

(** [Date.prototype.toISOString]: "YYYY-MM-DDTHH:mm:ss.sssZ", in UTC. *)
Definition toISOString (t : Z) : string :=
  let '(y, m, d) := civil_from_days (t / msPerDay) in
  let r := t mod msPerDay in
  String.concat ""%string
    [ iso_year y; "-"%string; Str.padStart0 2 m; "-"%string;
      Str.padStart0 2 d; "T"%string;
      Str.padStart0 2 (r / 3600000); ":"%string;
      Str.padStart0 2 (r / 60000 mod 60); ":"%string;
      Str.padStart0 2 (r / 1000 mod 60); "."%string;
      Str.padStart0 3 (r mod 1000); "Z"%string ].

Definition days_in_month (y m : Z) : Z :=
  days_from_civil (if m =? 12 then y + 1 else y) (if m =? 12 then 1 else m + 1) 1
  - days_from_civil y m 1.

(** "YYYY-MM-DD" at the front of a string. *)
Definition read_date (s : string) : option (Z * string) :=
  '(y, s) ← Str.read_digits 4 0 s;
  s ← Str.expect "-" s;
  '(m, s) ← Str.read_digits 2 0 s;
  s ← Str.expect "-" s;
  '(d, s) ← Str.read_digits 2 0 s;
  if (1 <=? m) && (m <=? 12) && (1 <=? d) && (d <=? days_in_month y m)
  then Some (days_from_civil y m d * msPerDay, s)
  else None.

(** "THH:mm:ss.sssZ", the rest of what [toISOString] prints. *)
Definition read_time (s : string) : option Z :=
  s ← Str.expect "T" s;
  '(h, s) ← Str.read_digits 2 0 s;
  s ← Str.expect ":" s;
  '(mi, s) ← Str.read_digits 2 0 s;
  s ← Str.expect ":" s;
  '(sec, s) ← Str.read_digits 2 0 s;
  s ← Str.expect "." s;
  '(ms, s) ← Str.read_digits 3 0 s;
  s ← Str.expect "Z" s;
  match s with
  | EmptyString =>
      if (h <=? 23) && (mi <=? 59) && (sec <=? 59)
      then Some (h * 3600000 + mi * 60000 + sec * 1000 + ms)
      else None
  | _ => None
  end.

(** [Date.parse] on the two forms of the Date Time String Format this
    program produces: the date-only form of an <input type="date"> (UTC
    midnight) and the UTC date-time form of [toISOString].  [None] is the
    invalid date (time value NaN). *)
Definition parse (s : string) : option Z :=
  '(day, rest) ← read_date s;
  match rest with
  | EmptyString => Some day
  | _ => t ← read_time rest; Some (day + t)
  end.

(** [d.setHours(0, 0, 0, 0)]: midnight, in local time, of the local day of
    [t]; local time is UTC plus [tz] milliseconds. *)
Definition setHours0 (tz t : Z) : Z :=
  (t + tz) / msPerDay * msPerDay - tz.

End DateTime.

(** ** Primitive values and the relational comparison *)

Module Js.

Definition is_space (c : ascii) : bool :=
  let n := nat_of_ascii c in
  ((n =? 32) || ((9 <=? n) && (n <=? 13)) || (n =? 160))%nat.

Fixpoint trimStart (s : string) : string :=
  match s with
  | String c s' => if is_space c then trimStart s' else s
  | EmptyString => s
  end.

(** Drops trailing white space. *)
Fixpoint trimEnd (s : string) : string :=
  match s with
  | EmptyString => EmptyString
  | String c s' =>
      match trimEnd s' with
      | EmptyString => if is_space c then EmptyString else String c EmptyString
      | t => String c t
      end
  end.

(** Value of a digit character in the given radix, if it is one. *)
Definition radix_digit (radix : Z) (c : ascii) : option Z :=
  let n := Z.of_nat (nat_of_ascii c) in
  let v := if ((48 <=? n) && (n <=? 57))%Z then n - 48
           else if ((97 <=? n) && (n <=? 102))%Z then n - 87
           else if ((65 <=? n) && (n <=? 70))%Z then n - 55
           else radix in
  if (v <? radix)%Z then Some v else None.

(** The longest run of digits at the front of [s]: its value, its length
    and what follows it. *)
Fixpoint digits (radix : Z) (acc : Z) (len : nat) (s : string) : Z * nat * string :=
  match s with
  | String c s' =>
      match radix_digit radix c with
      | Some v => digits radix (radix * acc + v) (S len) s'
      | None => (acc, len, s)
      end
  | EmptyString => (acc, len, s)
  end.

(** A sign at the front of [s]: [true] for minus. *)
Definition sign (s : string) : bool * string :=
  match s with
  | String c s' =>
      if Ascii.eqb c "-" then (true, s')
      else if Ascii.eqb c "+" then (false, s')
      else (false, s)
  | EmptyString => (false, s)
  end.

(** ExponentPart, or nothing: the exponent and the rest. *)
Definition exponent (s : string) : option (Z * string) :=
  match s with
  | String c s' =>
      if (Ascii.eqb c "e" || Ascii.eqb c "E")%bool then
        let '(neg, s1) := sign s' in
        let '(e, n, s2) := digits 10 0 0 s1 in
        match n with
        | O => None
        | _ => Some (if neg then - e else e, s2)
        end
      else Some (0, s)
  | EmptyString => Some (0, s)
  end.

(** StrUnsignedDecimalLiteral, finite forms. *)
Definition unsigned_decimal (s : string) : option Q :=
  let '(ip, ni, s1) := digits 10 0 0 s in
  let '(fp, nf, s2) :=
    match s1 with
    | String c s' => if Ascii.eqb c "." then digits 10 0 0 s' else (0, O, s1)
    | EmptyString => (0, O, s1)
    end in
  match (ni + nf)%nat with
  | O => None
  | _ =>
      match exponent s2 with
      | Some (e, EmptyString) =>
          Some ((inject_Z ip + inject_Z fp / inject_Z (10 ^ Z.of_nat nf))
                * Qpower (inject_Z 10) e)%Q
      | _ => None
      end
  end.

(** NonDecimalIntegerLiteral: 0x, 0o or 0b and digits of that radix. *)
Definition non_decimal (s : string) : option Q :=
  match s with
  | String c (String p s') =>
      if Ascii.eqb c "0" then
        let radix :=
          if (Ascii.eqb p "x" || Ascii.eqb p "X")%bool then 16
          else if (Ascii.eqb p "o" || Ascii.eqb p "O")%bool then 8
          else if (Ascii.eqb p "b" || Ascii.eqb p "B")%bool then 2
          else 0 in
        match digits radix 0 0 s' with
        | (v, S _, EmptyString) => Some (inject_Z v)
        | _ => None
        end
      else None
  | _ => None
  end.

(** StringToNumber: the Number a string converts to (finite literals at
    their exact value). *)
Definition StringToNumber (s : string) : Num :=
  let t := trimEnd (trimStart s) in
  match t with
  | EmptyString => Fin 0
  | _ =>
      match non_decimal t with
      | Some q => Fin q
      | None =>
          let '(neg, u) := sign t in
          if String.eqb u "Infinity" then (if neg then NegInf else PosInf)
          else match unsigned_decimal u with
               | Some q => Fin (if neg then - q else q)%Q
               | None => NaN
               end
      end
  end.

(** The primitives a result field yields under ToPrimitive with hint
    number: a Number (also the time value of a Date) or a String. *)
Inductive Prim : Type :=
| PNum (x : Num)
| PStr (s : string).

Definition ToNumber (p : Prim) : Num :=
  match p with
  | PNum x => x
  | PStr s => StringToNumber s
  end.

(** [a < b]: two strings compare by code units, anything else as Numbers. *)
Definition lt (a b : Prim) : bool :=
  match a, b with
  | PStr s, PStr t => Str.lt s t
  | _, _ => num_lt (ToNumber a) (ToNumber b)
  end.

(** [a > b] *)
Definition gt (a b : Prim) : bool := lt b a.

(** [arr.slice(start, end)] *)
Definition slice {A} (l : list A) (start end_ : Z) : list A :=
  let len := Z.of_nat (length l) in
  let k := if (start <? 0)%Z then Z.max (len + start) 0 else Z.min start len in
  let final := if (end_ <? 0)%Z then Z.max (len + end_) 0 else Z.min end_ len in
  firstn (Z.to_nat (Z.max (final - k) 0)) (skipn (Z.to_nat k) l).

(** [arr.indexOf(x)] on strings: the first position of [x], or -1. *)
Fixpoint indexOf (l : list string) (x : string) : Z :=
  match l with
  | [] => -1
  | y :: l' =>
      if String.eqb y x then 0
      else let i := indexOf l' x in if (i <? 0)%Z then -1 else i + 1
  end.

(** [arr.sort(comparefn)].  ECMAScript requires a stable sort; for a
    consistent comparison function that fixes the result, for any other the
    order is implementation-defined.  The model is the stable insertion
    sort. *)
Fixpoint sort_insert {A} (cmp : A → A → Z) (x : A) (l : list A) : list A :=
  match l with
  | [] => [x]
  | y :: l' =>
      if (0 <? cmp x y)%Z then y :: sort_insert cmp x l' else x :: y :: l'
  end.

Fixpoint sort {A} (cmp : A → A → Z) (l : list A) : list A :=
  match l with
  | [] => []
  | x :: l' => sort_insert cmp x (sort cmp l')
  end.

End Js.

(** ** The data model (types.ts) *)

Inductive AppView : Type := upload | processing | results | analytics.

Inductive FileStatus : Type :=
| pending | uploading | preprocessing | detecting | scoring | complete | error.

Module OMRFile.
(** [file] stands for the browser's File handle, by its name. *)
Record t : Type := mk {
  id : string;
  file : string;
  preview : string;
  progress : Q;
  status : FileStatus
}.
End OMRFile.

Record AnswerDetail : Type := {
  question : Z;
  studentAnswer : string;
  correctAnswer : string;
  isCorrect : bool
}.

Inductive ExamSet : Type := SetA | SetB | SetC | SetD.

Inductive Status : Type := Complete | NeedsReview.

(** What the [processingDate] field holds at run time: the Date object the
    generator stores, or the string [JSON.parse] returns for it. *)
Inductive DateField : Type :=
| DateObj (t : Z)
| DateStr (s : string).

Record StudentResult : Type := {
  id : string;
  studentId : string;
  examSet : ExamSet;
  sectionScores : gmap string Z;
  totalScore : Z;
  confidence : Q;
  status : Status;
  answers : list AnswerDetail;
  originalImage : string;
  processingDate : DateField
}.

Definition examSet_string (e : ExamSet) : string :=
  match e with SetA => "A" | SetB => "B" | SetC => "C" | SetD => "D" end.

Definition status_string (s : Status) : string :=
  match s with Complete => "Complete" | NeedsReview => "Needs Review" end.

Definition Status_eqb (a b : Status) : bool :=
  match a, b with
  | Complete, Complete | NeedsReview, NeedsReview => true
  | _, _ => false
  end.

(** [new Date(x)] for a field value: the time value, [None] when invalid. *)
Definition newDate (d : DateField) : option Z :=
  match d with
  | DateObj t => Some t
  | DateStr s => DateTime.parse s
  end.

(** ** Randomness and the clock *)

(** A computation that calls [Math.random]: it reads the stream of draws
    from a position and returns the position it stopped at. *)
Definition Rand (A : Type) : Type := (nat → Q) → nat → A * nat.

#[global] Instance Rand_ret : MRet Rand := fun A a _ k => (a, k).

#[global] Instance Rand_bind : MBind Rand :=
  fun A B f m rng k => let '(a, k') := m rng k in f a rng k'.

(** [Math.random()] *)
Definition random : Rand Q := fun rng k => (rng k, S k).

(** ** The mock data generator *)

Definition MOCK_STUDENT_IDS : list string :=
  ["ST001"; "ST002"; "ST003"; "ST004"; "ST005";
   "ST006"; "ST007"; "ST008"; "ST009"; "ST010"]%string.

Definition SECTIONS : list string :=
  ["Data Analytics"; "AI/ML"; "Data Science"; "Generative AI"; "Statistics"]%string.

(** [Array.from({ length: 50 }, (_, i) => String.fromCharCode(65 + (i % 4)))] *)
Definition CORRECT_ANSWERS : list string :=
  map (fun i => Str.fromCharCode (65 + Z.of_nat i mod 4)) (seq 0 50).

(** [arr[i]] on an array of strings; an index outside it gives undefined,
    which no call of this program reaches. *)
Definition at_index (l : list string) (i : Z) : string :=
  if (i <? 0)%Z then "undefined"%string else nth (Z.to_nat i) l "undefined"%string.

(** One pass of the body of [for (let i = 0; i < 10; i++)], [n] passes left:
    the section score so far and the answers pushed so far go in and out. *)
Fixpoint question_loop (n : nat) (sectionIndex i : Z)
    (sectionScore : Z) (answers : list AnswerDetail)
  : Rand (Z * list AnswerDetail) :=
  match n with
  | O => mret (sectionScore, answers)
  | S n' =>
      r ← random;
       let questionNum := sectionIndex * 10 + i in
       let isCorrect := Qltb (3 # 10) r in
       let sectionScore' := if isCorrect then sectionScore + 2 else sectionScore in
       let answer :=
         {| question := questionNum + 1;
            studentAnswer :=
              if isCorrect then at_index CORRECT_ANSWERS questionNum
              else Str.fromCharCode (65 + (questionNum + 1) mod 4);
            correctAnswer := at_index CORRECT_ANSWERS questionNum;
            isCorrect := isCorrect |} in
      question_loop n' sectionIndex (i + 1) sectionScore' (answers ++ [answer])
  end.

(** [SECTIONS.forEach(section => ...)] over the sections still to visit. *)
Fixpoint section_loop (todo : list string)
    (sectionScores : gmap string Z) (totalScore : Z) (answers : list AnswerDetail)
  : Rand (gmap string Z * Z * list AnswerDetail) :=
  match todo with
  | [] => mret (sectionScores, totalScore, answers)
  | section :: todo' =>
      '(sectionScore, answers') ←
         question_loop 10 (Js.indexOf SECTIONS section) 0 0 answers;
      section_loop todo' (<[section := sectionScore]> sectionScores)
                   (totalScore + sectionScore) answers'
  end.

Definition generateMockResult (now : Z) (file : OMRFile.t) (index : Z)
  : Rand StudentResult :=
  r0 ← random;
  let studentId :=
     String.append (at_index MOCK_STUDENT_IDS (index mod 10))
       (String.append "-" (pretty (Qfloor (r0 * 900) + 100))) in
  '(sectionScores, totalScore, answers) ← section_loop SECTIONS ∅ 0 [];
  r1 ← random;
   let confidence := (r1 * (2 # 10) + (8 # 10))%Q in
   let needsReview := Qltb confidence (9 # 10) in
  r2 ← random;
   let randomDaysAgo := Qfloor (r2 * 30) in
   let processingDate := now - randomDaysAgo * DateTime.msPerDay in
  mret {| id := OMRFile.id file;
          studentId := studentId;
          examSet := nth (Z.to_nat (index mod 4)) [SetA; SetB; SetC; SetD] SetA;
          sectionScores := sectionScores;
          totalScore := totalScore;
          confidence := confidence;
          status := if needsReview then NeedsReview else Complete;
          answers := answers;
          originalImage :=
            String.append "https://picsum.photos/seed/"
              (String.append studentId "/800/1100");
          processingDate := DateObj processingDate |}.

(** ** The simulated processing pipeline (ProcessingDashboard) *)

Module Dashboard.

(** What the run reads from outside: the draws of [Math.random] and the
    clock, the time [new Date()] gives in the n-th timer callback. *)
Record Env : Type := {
  draws : nat → Q;
  clock : nat → Z
}.

(** The one timer callback that is pending.  The closure of
    [updateProgress] holds [index], [stages], [currentStageIndex] and
    [progress]. *)
Inductive Task : Type :=
| CallProcessFile (index : nat)
| CallUpdateProgress (index : nat) (stages : list FileStatus)
    (currentStageIndex : nat) (progress : Q)
| CallOnProcessingComplete
| Finished.

Record t : Type := mk {
  files : list OMRFile.t;
  processedFiles : list OMRFile.t;
  generatedResults : list StudentResult;
  task : Task;
  cursor : nat;
  tick : nat;
  delivered : option (list StudentResult)
}.

Definition errorStages : list FileStatus := [preprocessing; detecting; error].
Definition okStages : list FileStatus := [preprocessing; detecting; scoring; complete].

Definition is_complete (s : FileStatus) : bool :=
  match s with complete => true | _ => false end.

Definition is_error (s : FileStatus) : bool :=
  match s with error => true | _ => false end.

Definition with_status (s : FileStatus) (p : Q) (f : OMRFile.t) : OMRFile.t :=
  OMRFile.mk (OMRFile.id f) (OMRFile.file f) (OMRFile.preview f) p s.

(** [useState(files.map(f => ({ ...f, status: 'uploading' })))], and the
    effect's synchronous call [processFile(0)] left pending. *)
Definition init (fs : list OMRFile.t) : t :=
  let started := map (fun f => with_status uploading (OMRFile.progress f) f) fs in
  mk started started [] (CallProcessFile 0) 0 0 None.

(** [processFile(index)] *)
Definition processFile (env : Env) (index : nat) (d : t) : t :=
  let totalFiles := length (files d) in
  if (totalFiles <=? index)%nat then
    mk (files d) (processedFiles d) (generatedResults d)
       CallOnProcessingComplete (cursor d) (S (tick d)) (delivered d)
  else
    let isError := Qltb (draws env (cursor d)) (1 # 10) in
    let stages := if isError then errorStages else okStages in
    mk (files d) (processedFiles d) (generatedResults d)
       (CallUpdateProgress index stages 0 0) (S (cursor d)) (S (tick d))
       (delivered d).

(** [updateProgress()] *)
Definition updateProgress (env : Env) (index : nat) (stages : list FileStatus)
    (currentStageIndex : nat) (progress : Q) (d : t) : t :=
  let progress1 := (progress + draws env (cursor d) * 15)%Q in
  let k1 := S (cursor d) in
  let '(currentStageIndex', progress') :=
    if Qle_bool 100 progress1 then
      if (currentStageIndex <? length stages - 1)%nat
      then (S currentStageIndex, 0%Q)
      else (currentStageIndex, 100%Q)
    else (currentStageIndex, progress1) in
  let stage := nth currentStageIndex' stages pending in
  let shown :=
    imap (fun i file => if (i =? index)%nat then with_status stage progress' file
                        else file)
         (processedFiles d) in
  if is_complete stage || is_error stage then
    if is_complete stage then
      match nth_error (files d) index with
      | Some file =>
          let '(r, k2) :=
            generateMockResult (clock env (tick d)) file (Z.of_nat index)
                               (draws env) k1 in
          mk (files d) shown (generatedResults d ++ [r])
             (CallProcessFile (S index)) k2 (S (tick d)) (delivered d)
      | None =>
          mk (files d) shown (generatedResults d)
             Finished k1 (S (tick d)) (delivered d)
      end
    else
      mk (files d) shown (generatedResults d)
         (CallProcessFile (S index)) k1 (S (tick d)) (delivered d)
  else
    mk (files d) shown (generatedResults d)
       (CallUpdateProgress index stages currentStageIndex' progress')
       (S k1) (S (tick d)) (delivered d).

(** The next timer fires. *)
Definition step (env : Env) (d : t) : t :=
  match task d with
  | CallProcessFile index => processFile env index d
  | CallUpdateProgress index stages currentStageIndex progress =>
      updateProgress env index stages currentStageIndex progress d
  | CallOnProcessingComplete =>
      mk (files d) (processedFiles d) (generatedResults d) Finished
         (cursor d) (S (tick d)) (Some (generatedResults d))
  | Finished => d
  end.

Definition run (env : Env) (n : nat) (d : t) : t := Nat.iter n (step env) d.

(** *** What the dashboard shows *)

(** [f.status === 'complete' || f.status === 'error'] *)
Definition is_done (f : OMRFile.t) : bool :=
  is_complete (OMRFile.status f) || is_error (OMRFile.status f).

Definition completedCount (d : t) : nat :=
  length (List.filter is_done (processedFiles d)).

(** [(completedCount / processedFiles.length) * 100]; for no files it is
    0 / 0, which is NaN. *)
Definition overallProgress (d : t) : Num :=
  match processedFiles d with
  | [] => NaN
  | _ :: _ =>
      Fin (inject_Z (Z.of_nat (completedCount d))
           / inject_Z (Z.of_nat (length (processedFiles d))) * 100)
  end.

(** The callback of [processedFiles.find]: the status is none of
    'complete', 'error', 'pending' and 'uploading'. *)
Definition in_stage (f : OMRFile.t) : bool :=
  match OMRFile.status f with
  | preprocessing | detecting | scoring => true
  | complete | error | pending | uploading => false
  end.

(** The file of the live preview. *)
Definition currentFile (d : t) : option OMRFile.t :=
  List.find in_stage (processedFiles d).

(** The width of a file's progress bar, in percent:
    [isComplete ? 100 : omrFile.progress]. *)
Definition barWidth (f : OMRFile.t) : Q :=
  if is_complete (OMRFile.status f) then 100 else OMRFile.progress f.

End Dashboard.

(** ** JSON documents *)

(** The text [JSON.stringify] writes and [JSON.parse] reads is represented
    by the document it denotes. *)
#[local] Unset Elimination Schemes.
Inductive Json : Type :=
| JNull
| JBool (b : bool)
| JNum (q : Q)
| JStr (s : string)
| JArr (items : list Json)
| JObj (fields : list (string * Json)).
#[local] Set Elimination Schemes.

Module JSON.

Definition field (k : string) (j : Json) : option Json :=
  match j with
  | JObj fields => snd <$> List.find (fun kv => String.eqb (fst kv) k) fields
  | _ => None
  end.

Definition as_str (j : Json) : option string :=
  match j with JStr s => Some s | _ => None end.

Definition as_num (j : Json) : option Q :=
  match j with JNum q => Some q | _ => None end.

Definition as_bool (j : Json) : option bool :=
  match j with JBool b => Some b | _ => None end.

Definition as_arr (j : Json) : option (list Json) :=
  match j with JArr l => Some l | _ => None end.

Definition as_obj (j : Json) : option (list (string * Json)) :=
  match j with JObj l => Some l | _ => None end.

(** A Number that holds an integer. *)
Definition as_int (j : Json) : option Z :=
  q ← as_num j;
  if Qeq_bool q (inject_Z (Qfloor q)) then Some (Qfloor q) else None.

(** *** Serialization: what [JSON.stringify] writes for a value *)

Definition of_answer (a : AnswerDetail) : Json :=
  JObj [ ("question"%string, JNum (inject_Z (question a)));
         ("studentAnswer"%string, JStr (studentAnswer a));
         ("correctAnswer"%string, JStr (correctAnswer a));
         ("isCorrect"%string, JBool (isCorrect a)) ].

Definition of_scores (m : gmap string Z) : Json :=
  JObj ((fun kv => (fst kv, JNum (inject_Z (snd kv)))) <$> map_to_list m).

(** A Date has a [toJSON] method, which returns [toISOString()]; a string
    is written as it is. *)
Definition of_date (d : DateField) : Json :=
  match d with
  | DateObj t => JStr (DateTime.toISOString t)
  | DateStr s => JStr s
  end.

Definition of_result (r : StudentResult) : Json :=
  JObj [ ("id"%string, JStr (id r));
         ("studentId"%string, JStr (studentId r));
         ("examSet"%string, JStr (examSet_string (examSet r)));
         ("sectionScores"%string, of_scores (sectionScores r));
         ("totalScore"%string, JNum (inject_Z (totalScore r)));
         ("confidence"%string, JNum (confidence r));
         ("status"%string, JStr (status_string (status r)));
         ("answers"%string, JArr (of_answer <$> answers r));
         ("originalImage"%string, JStr (originalImage r));
         ("processingDate"%string, of_date (processingDate r)) ].

(** [JSON.stringify(studentResults)] *)
Definition stringify_results (l : list StudentResult) : Json :=
  JArr (of_result <$> l).

(** [JSON.stringify(totalProcessed)] *)
Definition stringify_total (n : Z) : Json := JNum (inject_Z n).

(** *** Parsing: the value [JSON.parse] builds, read at the program's types.
    No reviver is passed, so a string stays a string. *)

Definition to_answer (j : Json) : option AnswerDetail :=
  q ← field "question" j ≫= as_int;
  s ← field "studentAnswer" j ≫= as_str;
  c ← field "correctAnswer" j ≫= as_str;
  b ← field "isCorrect" j ≫= as_bool;
  Some {| question := q; studentAnswer := s; correctAnswer := c; isCorrect := b |}.

Definition to_scores (j : Json) : option (gmap string Z) :=
  fields ← as_obj j;
  kvs ← mapM (M := option) (fun kv => v ← as_int (snd kv); Some (fst kv, v)) fields;
  Some (list_to_map kvs).

Definition to_examSet (s : string) : option ExamSet :=
  if String.eqb s "A" then Some SetA
  else if String.eqb s "B" then Some SetB
  else if String.eqb s "C" then Some SetC
  else if String.eqb s "D" then Some SetD
  else None.

Definition to_status (s : string) : option Status :=
  if String.eqb s "Complete" then Some Complete
  else if String.eqb s "Needs Review" then Some NeedsReview
  else None.

Definition to_result (j : Json) : option StudentResult :=
  i ← field "id" j ≫= as_str;
  sid ← field "studentId" j ≫= as_str;
  es ← (field "examSet" j ≫= as_str) ≫= to_examSet;
  sc ← field "sectionScores" j ≫= to_scores;
  ts ← field "totalScore" j ≫= as_int;
  cf ← field "confidence" j ≫= as_num;
  st ← (field "status" j ≫= as_str) ≫= to_status;
  ans ← (field "answers" j ≫= as_arr) ≫= mapM (M := option) to_answer;
  img ← field "originalImage" j ≫= as_str;
  pd ← field "processingDate" j ≫= as_str;
  Some {| id := i; studentId := sid; examSet := es; sectionScores := sc;
          totalScore := ts; confidence := cf; status := st; answers := ans;
          originalImage := img; processingDate := DateStr pd |}.

(** [JSON.parse(savedResults)], as a list of results. *)
Definition parse_results (j : Json) : option (list StudentResult) :=
  as_arr j ≫= mapM (M := option) to_result.

(** [JSON.parse(savedTotal)] *)
Definition parse_total (j : Json) : option Z := as_int j.

End JSON.

(** ** The application state and its handlers (App) *)

Record App : Type := {
  view : AppView;
  omrFiles : list OMRFile.t;
  studentResults : list StudentResult;
  totalProcessed : Z;
  isInitialMount : bool
}.

(** The page: the component state and the browser's localStorage. *)
Record Page : Type := {
  app : App;
  localStorage : gmap string Json
}.

Definition set_results (l : list StudentResult) (a : App) : App :=
  {| view := view a; omrFiles := omrFiles a; studentResults := l;
     totalProcessed := totalProcessed a; isInitialMount := isInitialMount a |}.

Definition set_total (n : Z) (a : App) : App :=
  {| view := view a; omrFiles := omrFiles a; studentResults := studentResults a;
     totalProcessed := n; isInitialMount := isInitialMount a |}.

Definition set_view (v : AppView) (a : App) : App :=
  {| view := v; omrFiles := omrFiles a; studentResults := studentResults a;
     totalProcessed := totalProcessed a; isInitialMount := isInitialMount a |}.

Definition set_files (fs : list OMRFile.t) (a : App) : App :=
  {| view := view a; omrFiles := fs; studentResults := studentResults a;
     totalProcessed := totalProcessed a; isInitialMount := isInitialMount a |}.

Definition initialApp : App :=
  {| view := upload; omrFiles := []; studentResults := [];
     totalProcessed := 0; isInitialMount := true |}.

(** The load effect: the state it sets, and whether a dependency of the
    save effect changed (a parsed array is a new array; a number changes
    when its value does). *)
Definition loadEffect (p : Page) : App * bool :=
  let a := app p in
  let '(a1, c1) :=
    match localStorage p !! "studentResults"%string with
    | Some j =>
        match JSON.parse_results j with
        | Some l => (set_results l a, true)
        | None => (a, false)
        end
    | None => (a, false)
    end in
  match localStorage p !! "totalProcessed"%string with
  | Some j =>
      match JSON.parse_total j with
      | Some n => (set_total n a1, c1 || negb (n =? totalProcessed a1))
      | None => (a1, c1)
      end
  | None => (a1, c1)
  end.

(** The save effect. *)
Definition saveEffect (p : Page) : Page :=
  let a := app p in
  if isInitialMount a then
    {| app := {| view := view a; omrFiles := omrFiles a;
                 studentResults := studentResults a;
                 totalProcessed := totalProcessed a; isInitialMount := false |};
       localStorage := localStorage p |}
  else
    {| app := a;
       localStorage :=
         <["totalProcessed"%string := JSON.stringify_total (totalProcessed a)]>
           (<["studentResults"%string := JSON.stringify_results (studentResults a)]>
              (localStorage p)) |}.

(** Opening the page on a given localStorage: the first render, its two
    effects, and the save effect again when the load effect set state. *)
Definition mount (storage : gmap string Json) : Page :=
  let p0 := {| app := initialApp; localStorage := storage |} in
  let '(a1, changed) := loadEffect p0 in
  let p1 := saveEffect p0 in
  let p2 := {| app := {| view := view a1; omrFiles := omrFiles a1;
                         studentResults := studentResults a1;
                         totalProcessed := totalProcessed a1;
                         isInitialMount := isInitialMount (app p1) |};
               localStorage := localStorage p1 |} in
  if changed then saveEffect p2 else p2.

(** A handler changed [studentResults] or [totalProcessed]: the component
    renders again and the save effect runs. *)
Definition update (f : App → App) (p : Page) : Page :=
  saveEffect {| app := f (app p); localStorage := localStorage p |}.

Definition handleProcessStart (fs : list OMRFile.t) (p : Page) : Page :=
  {| app := set_view processing (set_files fs (app p));
     localStorage := localStorage p |}.

Definition handleProcessingComplete (rs : list StudentResult) (p : Page) : Page :=
  update (fun a =>
    set_view results
      (set_total (totalProcessed a + Z.of_nat (length rs))
         (set_results (studentResults a ++ rs) a))) p.

Definition approve (r : StudentResult) : StudentResult :=
  {| id := id r; studentId := studentId r; examSet := examSet r;
     sectionScores := sectionScores r; totalScore := totalScore r;
     confidence := 1; status := Complete; answers := answers r;
     originalImage := originalImage r; processingDate := processingDate r |}.

Definition approveResult (resultId : string) (prevResults : list StudentResult)
  : list StudentResult :=
  map (fun r => if String.eqb (id r) resultId then approve r else r) prevResults.

Definition approveResults (resultIds : list string) (prev : list StudentResult)
  : list StudentResult :=
  let idsToUpdate : gset string := list_to_set resultIds in
  map (fun r => if decide (id r ∈ idsToUpdate) then approve r else r) prev.

Definition deleteResults (resultIds : list string) (prev : list StudentResult)
  : list StudentResult :=
  let idsToDelete : gset string := list_to_set resultIds in
  List.filter (fun r => negb (bool_decide (id r ∈ idsToDelete))) prev.

Definition handleApproveResult (resultId : string) (p : Page) : Page :=
  update (fun a => set_results (approveResult resultId (studentResults a)) a) p.

Definition handleApproveResults (resultIds : list string) (p : Page) : Page :=
  update (fun a => set_results (approveResults resultIds (studentResults a)) a) p.

Definition handleDeleteResults (resultIds : list string) (p : Page) : Page :=
  update (fun a => set_results (deleteResults resultIds (studentResults a)) a) p.

Definition setView (v : AppView) (p : Page) : Page :=
  {| app := set_view v (app p); localStorage := localStorage p |}.

(** ** The review table (ResultsView) *)

Definition RESULTS_PER_PAGE : Z := 10.

(** The columns whose header calls [requestSort]. *)
Inductive SortKey : Type :=
| K_studentId | K_totalScore | K_status | K_processingDate | K_confidence
| K_examSet.

Inductive Direction : Type := asc | desc.

Record SortConfig : Type := {
  key : SortKey;
  direction : Direction
}.

(** 'All' | 'Complete' | 'Needs Review' *)
Inductive StatusFilter : Type :=
| All
| Only (s : Status).

Module ResultsView.

Record t : Type := mk {
  selectedResult : option StudentResult;
  sortConfig : option SortConfig;
  searchTerm : string;
  statusFilter : StatusFilter;
  currentPage : Z;
  selectedIds : gset string;
  exportStatusFilter : StatusFilter;
  exportStartDate : string;
  exportEndDate : string
}.

Definition initial : t :=
  mk None (Some {| key := K_totalScore; direction := desc |})
     "" All 1 ∅ All "" "".

Definition SortKey_eqb (a b : SortKey) : bool :=
  match a, b with
  | K_studentId, K_studentId | K_totalScore, K_totalScore
  | K_status, K_status | K_processingDate, K_processingDate
  | K_confidence, K_confidence | K_examSet, K_examSet => true
  | _, _ => false
  end.

Definition is_asc (d : Direction) : bool :=
  match d with asc => true | desc => false end.

(** [statusFilter === 'All' || r.status === statusFilter] *)
Definition status_passes (f : StatusFilter) (r : StudentResult) : bool :=
  match f with
  | All => true
  | Only s => Status_eqb (status r) s
  end.

Definition filteredResults (results : list StudentResult) (v : t)
  : list StudentResult :=
  List.filter (fun r => status_passes (statusFilter v) r)
    (List.filter
       (fun r => Str.includes (Str.toLowerCase (studentId r))
                              (Str.toLowerCase (searchTerm v)))
       results).

(** [a[sortConfig.key]] as the relational comparison sees it: a Date
    object by its time value, everything else as it is. *)
Definition field_prim (k : SortKey) (r : StudentResult) : Js.Prim :=
  match k with
  | K_studentId => Js.PStr (studentId r)
  | K_totalScore => Js.PNum (Fin (inject_Z (totalScore r)))
  | K_status => Js.PStr (status_string (status r))
  | K_processingDate =>
      match processingDate r with
      | DateObj t => Js.PNum (Fin (inject_Z t))
      | DateStr s => Js.PStr s
      end
  | K_confidence => Js.PNum (Fin (confidence r))
  | K_examSet => Js.PStr (examSet_string (examSet r))
  end.

(** The comparison function passed to [sort]. *)
Definition compareFn (c : SortConfig) (a b : StudentResult) : Z :=
  let aValue := field_prim (key c) a in
  let bValue := field_prim (key c) b in
  if Js.lt aValue bValue then (if is_asc (direction c) then -1 else 1)
  else if Js.gt aValue bValue then (if is_asc (direction c) then 1 else -1)
  else 0.

Definition sortedResults (results : list StudentResult) (v : t)
  : list StudentResult :=
  let sortableItems := filteredResults results v in
  match sortConfig v with
  | Some c => Js.sort (compareFn c) sortableItems
  | None => sortableItems
  end.

Definition paginatedResults (results : list StudentResult) (v : t)
  : list StudentResult :=
  let startIndex := (currentPage v - 1) * RESULTS_PER_PAGE in
  Js.slice (sortedResults results v) startIndex (startIndex + RESULTS_PER_PAGE).

(** [Math.ceil(sortedResults.length / RESULTS_PER_PAGE)] *)
Definition totalPages (results : list StudentResult) (v : t) : Z :=
  Qceiling (inject_Z (Z.of_nat (length (sortedResults results v)))
            / inject_Z RESULTS_PER_PAGE).

Definition with_sortConfig (c : option SortConfig) (v : t) : t :=
  mk (selectedResult v) c (searchTerm v) (statusFilter v) (currentPage v)
     (selectedIds v) (exportStatusFilter v) (exportStartDate v) (exportEndDate v).

Definition with_selectedIds (s : gset string) (v : t) : t :=
  mk (selectedResult v) (sortConfig v) (searchTerm v) (statusFilter v)
     (currentPage v) s (exportStatusFilter v) (exportStartDate v) (exportEndDate v).

Definition requestSort (k : SortKey) (v : t) : t :=
  let direction :=
    match sortConfig v with
    | Some c => if SortKey_eqb (key c) k && is_asc (direction c) then desc else asc
    | None => asc
    end in
  with_sortConfig (Some {| key := k; direction := direction |}) v.

Definition handleSelect (i : string) (v : t) : t :=
  with_selectedIds
    (if decide (i ∈ selectedIds v) then selectedIds v ∖ {[ i ]}
     else selectedIds v ∪ {[ i ]}) v.

Definition handleSelectAll (results : list StudentResult) (checked : bool) (v : t) : t :=
  with_selectedIds
    (if checked then list_to_set (map id (paginatedResults results v)) else ∅) v.

(** *** CSV export *)

(** [a < b] on two Date objects: by time value, false when one is invalid. *)
Definition date_lt (a b : option Z) : bool :=
  match a, b with
  | Some x, Some y => x <? y
  | _, _ => false
  end.

(** [new Date(res.processingDate)] after [setHours(0, 0, 0, 0)]. *)
Definition resultDate (tz : Z) (res : StudentResult) : option Z :=
  DateTime.setHours0 tz <$> newDate (processingDate res).

(** An empty string is falsy: the bound is not set. *)
Definition is_set (s : string) : bool := negb (String.eqb s "").

(** The callback of [results.filter] in [exportToCSV]. *)
Definition export_keeps (tz : Z) (v : t) (res : StudentResult) : bool :=
  if negb (status_passes (exportStatusFilter v) res) then false
  else if is_set (exportStartDate v)
          && date_lt (resultDate tz res) (DateTime.parse (exportStartDate v))
  then false
  else if is_set (exportEndDate v)
          && date_lt (DateTime.parse (exportEndDate v)) (resultDate tz res)
  then false
  else true.

Definition dataToExport (tz : Z) (results : list StudentResult) (v : t)
  : list StudentResult :=
  List.filter (export_keeps tz v) results.

(** A cell of the CSV, before it is printed. *)
Inductive Cell : Type :=
| CText (s : string)
| CInt (n : Z)
| CFixed3 (q : Q)
| CUndefined.

(** The part of a string before its first "T": [s.split('T')[0]]. *)
Fixpoint beforeT (s : string) : string :=
  match s with
  | EmptyString => EmptyString
  | String c s' => if Ascii.eqb c "T" then EmptyString else String c (beforeT s')
  end.

(** The double-quote character, as a string. *)
Definition quote : string := String (ascii_of_nat 34) EmptyString.

(** One row; [None] when [toISOString] throws on an invalid date. *)
Definition csvRow (res : StudentResult) : option (list Cell) :=
  t ← newDate (processingDate res);
  Some ([ CText (String.append quote (String.append (studentId res) quote));
          CText (beforeT (DateTime.toISOString t));
          CInt (totalScore res);
          CText (status_string (status res));
          CFixed3 (confidence res);
          CText (examSet_string (examSet res)) ]
        ++ map (fun sec => match sectionScores res !! sec with
                           | Some n => CInt n
                           | None => CUndefined
                           end) SECTIONS).

Definition csvHeaders : list string :=
  ["studentId"; "processingDate"; "totalScore"; "status"; "confidence";
   "examSet"]%string ++ SECTIONS.

Inductive ExportOutcome : Type :=
| Alert (message : string)
| Download (filename : string) (headers : list string) (rows : list (list Cell))
| Thrown.

Definition exportToCSV (tz : Z) (results : list StudentResult) (v : t)
  : ExportOutcome :=
  let data := dataToExport tz results v in
  match data with
  | [] => Alert "No results match the selected export filters."
  | _ =>
      match mapM (M := option) csvRow data with
      | Some rows => Download "omr_results_filtered.csv" csvHeaders rows
      | None => Thrown
      end
  end.

(** *** Paging, selection and the batch buttons *)

Definition with_searchTerm (s : string) (v : t) : t :=
  mk (selectedResult v) (sortConfig v) s (statusFilter v) (currentPage v)
     (selectedIds v) (exportStatusFilter v) (exportStartDate v) (exportEndDate v).

Definition with_statusFilter (f : StatusFilter) (v : t) : t :=
  mk (selectedResult v) (sortConfig v) (searchTerm v) f (currentPage v)
     (selectedIds v) (exportStatusFilter v) (exportStartDate v) (exportEndDate v).

Definition with_currentPage (n : Z) (v : t) : t :=
  mk (selectedResult v) (sortConfig v) (searchTerm v) (statusFilter v) n
     (selectedIds v) (exportStatusFilter v) (exportStartDate v) (exportEndDate v).

Definition with_selectedResult (o : option StudentResult) (v : t) : t :=
  mk o (sortConfig v) (searchTerm v) (statusFilter v) (currentPage v)
     (selectedIds v) (exportStatusFilter v) (exportStartDate v) (exportEndDate v).

Definition with_exportFilters (f : StatusFilter) (startDate endDate : string) (v : t) : t :=
  mk (selectedResult v) (sortConfig v) (searchTerm v) (statusFilter v) (currentPage v)
     (selectedIds v) f startDate endDate.

Definition StatusFilter_eqb (a b : StatusFilter) : bool :=
  match a, b with
  | All, All => true
  | Only s, Only s' => Status_eqb s s'
  | _, _ => false
  end.

(** The effect with the dependencies [searchTerm, statusFilter,
    currentPage]: after a render in which one of them differs from the
    render before, [setSelectedIds(new Set())]. *)
Definition selectionEffect (before after : t) : t :=
  if String.eqb (searchTerm before) (searchTerm after)
     && StatusFilter_eqb (statusFilter before) (statusFilter after)
     && (currentPage before =? currentPage after)
  then after
  else with_selectedIds ∅ after.

(** The search box: [setSearchTerm(e.target.value); setCurrentPage(1)] *)
Definition onSearchChange (s : string) (v : t) : t :=
  selectionEffect v (with_currentPage 1 (with_searchTerm s v)).

(** A status button: [setStatusFilter(status); setCurrentPage(1)] *)
Definition onStatusFilter (f : StatusFilter) (v : t) : t :=
  selectionEffect v (with_currentPage 1 (with_statusFilter f v)).

(** The button to the previous page, disabled on page 1:
    [setCurrentPage(p => Math.max(1, p - 1))] *)
Definition prevPage (v : t) : t :=
  if currentPage v =? 1 then v
  else selectionEffect v (with_currentPage (Z.max 1 (currentPage v - 1)) v).

(** The button to the next page, disabled when [currentPage === totalPages
    || totalPages === 0]: [setCurrentPage(p => Math.min(totalPages, p + 1))] *)
Definition nextPage (results : list StudentResult) (v : t) : t :=
  let T := totalPages results v in
  if (currentPage v =? T) || (T =? 0) then v
  else selectionEffect v (with_currentPage (Z.min T (currentPage v + 1)) v).

(** [paginatedResults.length > 0 && paginatedResults.every(r => selectedIds.has(r.id))] *)
Definition isAllSelectedOnPage (results : list StudentResult) (v : t) : bool :=
  let rows := paginatedResults results v in
  (0 <? Z.of_nat (length rows))
  && forallb (fun r => bool_decide (id r ∈ selectedIds v)) rows.

(** The arrow next to a column header: up for ascending, down for
    descending, none on the columns that are not the sort key. *)
Definition getSortIndicator (k : SortKey) (v : t) : option Direction :=
  match sortConfig v with
  | Some c => if SortKey_eqb (key c) k then Some (direction c) else None
  | None => None
  end.

(** The footer "Showing [showingFrom] to [showingTo] of n results". *)
Definition showingFrom (v : t) : Z := (currentPage v - 1) * RESULTS_PER_PAGE + 1.

Definition showingTo (results : list StudentResult) (v : t) : Z :=
  Z.min (currentPage v * RESULTS_PER_PAGE)
        (Z.of_nat (length (sortedResults results v))).

(** The Approve button of the selection bar, which is rendered when
    [selectedIds.size > 0]:
    [onApproveResults(Array.from(selectedIds)); setSelectedIds(new Set())].
    The ids are passed in the order [elements] lists them; the handler makes
    a set of them again. *)
Definition approveSelected (p : Page) (v : t) : Page * t :=
  if decide (selectedIds v = ∅) then (p, v)
  else (handleApproveResults (elements (selectedIds v)) p, with_selectedIds ∅ v).

(** The Delete button of the selection bar; [confirmed] is the answer to
    [window.confirm]. *)
Definition deleteSelected (confirmed : bool) (p : Page) (v : t) : Page * t :=
  if decide (selectedIds v = ∅) then (p, v)
  else if confirmed
       then (handleDeleteResults (elements (selectedIds v)) p, with_selectedIds ∅ v)
       else (p, v).

(** The Approve button of the detail view, rendered when the result it
    shows has status 'Needs Review': [onApprove(result.id); onClose()]. *)
Definition modalApprove (p : Page) (v : t) : Page * t :=
  match selectedResult v with
  | Some r =>
      if Status_eqb (status r) NeedsReview
      then (handleApproveResult (id r) p, with_selectedResult None v)
      else (p, v)
  | None => (p, v)
  end.

End ResultsView.

(** ** The AI-insights call (services/geminiService.ts) *)

Module Gemini.

(** The element of [detailedResults] built for a result. *)
Definition detail (r : StudentResult) : Json :=
  JObj [ ("studentId"%string, JStr (studentId r));
         ("totalScore"%string, JNum (inject_Z (totalScore r)));
         ("sections"%string, JSON.of_scores (sectionScores r));
         ("answers"%string,
          JArr ((fun a => JObj [ ("q"%string, JNum (inject_Z (question a)));
                                 ("correct"%string, JBool (isCorrect a)) ])
                <$> answers r)) ].

(** The argument of [generateContent]: the model name and the prompt, the
    fixed template around the document [detailedResults]. *)
Record Request : Type := {
  model : string;
  contents : Json
}.

(** What awaiting [ai.models.generateContent] gives: a response with its
    [text], or a rejection. *)
Inductive Response : Type :=
| Resolved (text : string)
| Rejected (reason : string).

(** How a call of an async function ends. *)
Inductive Outcome (A : Type) : Type :=
| Returns (a : A)
| Throws (reason : string).
Arguments Returns {A} a.
Arguments Throws {A} reason.

(** A computation that may call the external API: it extends the log of
    requests sent, and returns or throws. *)
Definition Io (A : Type) : Type :=
  (Request → Response) → list Request → Outcome A * list Request.

#[global] Instance Io_ret : MRet Io := fun A a _ log => (Returns a, log).

#[global] Instance Io_bind : MBind Io :=
  fun A B f m api log =>
    match m api log with
    | (Returns a, log') => f a api log'
    | (Throws e, log') => (Throws e, log')
    end.

(** [await ai.models.generateContent(req)] *)
Definition generateContent (req : Request) : Io string :=
  fun api log =>
    match api req with
    | Resolved text => (Returns text, log ++ [req])
    | Rejected e => (Throws e, log ++ [req])
    end.

(** [try { body } catch (error) { handler }] *)
Definition try_catch {A} (body : Io A) (handler : string → Io A) : Io A :=
  fun api log =>
    match body api log with
    | (Returns a, log') => (Returns a, log')
    | (Throws e, log') => handler e api log'
    end.

Definition keyMissingMessage : string :=
  "API Key not configured. Please set the API_KEY environment variable.".

Definition errorMessage : string :=
  "An error occurred while generating AI insights. Please check the console for details.".

(** [API_KEY] is [process.env.API_KEY]: absent, or a string; [!API_KEY]
    holds for the absent and for the empty one. *)
Definition key_missing (API_KEY : option string) : bool :=
  match API_KEY with
  | None => true
  | Some s => String.eqb s ""
  end.

Definition generateAnalyticsInsights (API_KEY : option string)
    (results : list StudentResult) : Io string :=
  if key_missing API_KEY then mret keyMissingMessage
  else
    let detailedResults := JArr (detail <$> results) in
    let prompt := detailedResults in
    try_catch
      (text ← generateContent {| model := "gemini-2.5-flash"; contents := prompt |};
       mret text)
      (fun _ => mret errorMessage).

End Gemini.

(** ** The analytics page (AnalyticsView) *)

Module AnalyticsView.

(** *** Arithmetic on Numbers that may be NaN *)

(** [x + y] *)
Definition num_add (x y : Num) : Num :=
  match x, y with
  | NaN, _ | _, NaN => NaN
  | PosInf, NegInf | NegInf, PosInf => NaN
  | PosInf, _ | _, PosInf => PosInf
  | NegInf, _ | _, NegInf => NegInf
  | Fin a, Fin b => Fin (a + b)
  end.

(** [- x] *)
Definition num_neg (x : Num) : Num :=
  match x with
  | NaN => NaN
  | PosInf => NegInf
  | NegInf => PosInf
  | Fin a => Fin (- a)
  end.

(** [x / d] and [x * d] for a finite positive [d]. *)
Definition num_div_pos (x : Num) (d : Q) : Num :=
  match x with
  | Fin a => Fin (a / d)
  | other => other
  end.

Definition num_mul_pos (x : Num) (d : Q) : Num :=
  match x with
  | Fin a => Fin (a * d)
  | other => other
  end.

(** The sign of a Number as a comparison function returns it; [sort]
    reads NaN as +0. *)
Definition num_sign (x : Num) : Z :=
  match x with
  | NaN => 0
  | PosInf => 1
  | NegInf => -1
  | Fin a => match (a ?= 0)%Q with Lt => -1 | Eq => 0 | Gt => 1 end
  end.

(** *** The data of the charts *)

(** An element of [questionDifficulty]. *)
Record Entry : Type := {
  name : string;
  incorrect : Num
}.

Record Data : Type := {
  avgScore : Q;
  sectionAvgs : list (string * Num);
  passRate : Q;
  questionDifficulty : list (option Entry)
}.

(** [r.sectionScores[section]] as a Number: a missing key reads as
    undefined, which adds as NaN. *)
Definition score_of (r : StudentResult) (section : string) : Num :=
  match sectionScores r !! section with
  | Some n => Fin (inject_Z n)
  | None => NaN
  end.

(** The object literal [sectionTotals] starts from. *)
Definition sectionTotals0 : gmap string Num :=
  <["Statistics"%string := Fin 0]>
    (<["Generative AI"%string := Fin 0]>
       (<["Data Science"%string := Fin 0]>
          (<["AI/ML"%string := Fin 0]>
             (<["Data Analytics"%string := Fin 0]> ∅)))).

(** [sectionTotals[section]] *)
Definition total_of (totals : gmap string Num) (section : string) : Num :=
  default NaN (totals !! section).

(** [SECTIONS.forEach(section => { sectionTotals[section] += r.sectionScores[section]; })] *)
Definition add_scores (totals : gmap string Num) (r : StudentResult) : gmap string Num :=
  foldl (fun totals section =>
           <[section := num_add (total_of totals section) (score_of r section)]> totals)
        totals SECTIONS.

(** A position of the array [incorrectCounts]: an element, or a hole left
    by a write past the end. *)
Inductive Slot : Type :=
| Hole
| Count (c : Num).

(** [x++] on an element; a hole reads as undefined. *)
Definition bump (s : Slot) : Slot :=
  match s with
  | Hole => Count NaN
  | Count c => Count (num_add c (Fin 1))
  end.

(** [incorrectCounts[i]++] for an integer [i]: an index inside the array
    counts; one past the end lengthens the array, with holes in between; a
    negative one is an ordinary property, which no array method sees. *)
Definition increment (counts : list Slot) (i : Z) : list Slot :=
  if i <? 0 then counts
  else
    let k := Z.to_nat i in
    if (k <? length counts)%nat then alter bump k counts
    else counts ++ replicate (k - length counts) Hole ++ [Count NaN].

(** The two nested [forEach] that fill [incorrectCounts]. *)
Definition count_incorrect (counts : list Slot) (result : StudentResult) : list Slot :=
  foldl (fun counts answer =>
           if isCorrect answer then counts
           else increment counts (question answer - 1))
        counts (answers result).

Definition incorrectCounts (results : list StudentResult) : list Slot :=
  foldl count_incorrect (replicate 50 (Count (Fin 0))) results.

(** The callback of [incorrectCounts.map]; [map] keeps a hole a hole. *)
Definition difficulty (totalStudents : Q) (index : nat) (s : Slot) : option Entry :=
  match s with
  | Hole => None
  | Count count =>
      Some {| name := String.append "Q" (pretty (Z.of_nat index + 1));
              incorrect := num_mul_pos (num_div_pos count totalStudents) 100 |}
  end.

(** [(a, b) => b.incorrect - a.incorrect] *)
Definition by_incorrect_desc (a b : Entry) : Z :=
  num_sign (num_add (incorrect b) (num_neg (incorrect a))).

(** [arr.sort(comparefn)] on an array with holes: the elements are sorted
    and the holes follow them. *)
Definition sort_holes {A} (cmp : A → A → Z) (l : list (option A)) : list (option A) :=
  let present := omap (fun x => x) l in
  map Some (Js.sort cmp present) ++ replicate (length l - length present) None.

Definition analyticsData (results : list StudentResult) : Data :=
  match results with
  | [] => {| avgScore := 0; sectionAvgs := []; passRate := 0; questionDifficulty := [] |}
  | _ :: _ =>
      let totalStudents := inject_Z (Z.of_nat (length results)) in
      let totalScoreSum := foldl (fun sum r => sum + totalScore r) 0 results in
      let avgScore := (inject_Z totalScoreSum / totalStudents)%Q in
      let sectionTotals := foldl add_scores sectionTotals0 results in
      let sectionAvgs :=
        map (fun section =>
               (section, num_div_pos (total_of sectionTotals section) totalStudents))
            SECTIONS in
      let passedCount :=
        length (List.filter (fun r => 50 <=? totalScore r) results) in
      let passRate := (inject_Z (Z.of_nat passedCount) / totalStudents * 100)%Q in
      let questionDifficulty :=
        Js.slice
          (sort_holes by_incorrect_desc
             (imap (difficulty totalStudents) (incorrectCounts results)))
          0 10 in
      {| avgScore := avgScore; sectionAvgs := sectionAvgs; passRate := passRate;
         questionDifficulty := questionDifficulty |}
  end.

(** *** The insights panel *)

(** [s.split(sep)] for a separator of one character. *)
Fixpoint split (sep : ascii) (s : string) : list string :=
  match s with
  | EmptyString => [EmptyString]
  | String c s' =>
      if Ascii.eqb c sep then EmptyString :: split sep s'
      else match split sep s' with
           | line :: lines => String c line :: lines
           | [] => [String c EmptyString]
           end
  end.

(** [s.trim()] *)
Definition trim (s : string) : string := Js.trimEnd (Js.trimStart s).

(** [s.endsWith(t)]: the last [t.length] characters of [s] are [t]. *)
Definition endsWith (s t : string) : bool :=
  let n := String.length s in
  let m := String.length t in
  (m <=? n)%nat && String.eqb (String.substring (n - m) m s) t.

(** [s.substring(start, end)], [end_ = None] when the second argument is
    left out: both indices are clamped to [0, s.length] and swapped when
    they are out of order. *)
Definition substring (s : string) (start : Z) (end_ : option Z) : string :=
  let len := Z.of_nat (String.length s) in
  let clamp x := Z.min (Z.max x 0) len in
  let a := clamp start in
  let b := match end_ with Some e => clamp e | None => len end in
  String.substring (Z.to_nat (Z.min a b)) (Z.to_nat (Z.max a b - Z.min a b)) s.

(** [s.replace(/\*\*/g, '')]: the occurrences of "**" are found from left
    to right, each search starting after the previous match. *)
Fixpoint remove_stars (s : string) : string :=
  match s with
  | EmptyString => EmptyString
  | String c s' =>
      match s' with
      | String d s'' =>
          if Ascii.eqb c "*" && Ascii.eqb d "*" then remove_stars s''
          else String c (remove_stars s')
      | EmptyString => String c EmptyString
      end
  end.

(** What is left of [s] after its leading decimal digits. *)
Fixpoint skip_digits (s : string) : string :=
  match s with
  | String c s' => if Str.is_digit c then skip_digits s' else s
  | EmptyString => s
  end.

(** [/^\d+\.\s/.test(line)]: one or more digits, a dot and a white-space
    character at the front of the line. *)
Definition is_numbered (line : string) : bool :=
  match line with
  | String c s' =>
      Str.is_digit c &&
      match skip_digits s' with
      | String d (String w _) => Ascii.eqb d "." && Js.is_space w
      | _ => false
      end
  | EmptyString => false
  end.

(** The elements [renderInsights] returns, one per line; the key of an
    element is its position in the list. *)
Inductive Block : Type :=
| Heading (text : string)
| Numbered (label rest : string)
| Paragraph (text : string).

Definition render_line (line : string) : Block :=
  if Str.startsWith line "**" && endsWith line "**" then
    Heading (remove_stars line)
  else if is_numbered line then
    Numbered (substring line 0 (Some 2)) (substring line 2 None)
  else Paragraph line.

Definition renderInsights (insights : string) : list Block :=
  let lines :=
    List.filter (fun line => negb (String.eqb (trim line) ""))
                (split "010" insights) in
  List.map render_line lines.

(** The state of the panel. *)
Record Panel : Type := {
  insights : string;
  isLoadingInsights : bool
}.

Definition init_panel : Panel := {| insights := ""; isLoadingInsights := false |}.

(** [handleGenerateInsights]: the two setters before the call give the
    state shown while the call is awaited; the two after it run when the
    call returns, and would not run if it threw. *)
Definition handleGenerateInsights (API_KEY : option string)
    (results : list StudentResult) (s : Panel)
    (api : Gemini.Request → Gemini.Response) (log : list Gemini.Request)
    : Panel * list Gemini.Request :=
  let s := {| insights := insights s; isLoadingInsights := true |} in
  let s := {| insights := ""; isLoadingInsights := isLoadingInsights s |} in
  match Gemini.generateAnalyticsInsights API_KEY results api log with
  | (Gemini.Returns result, log') =>
      let s := {| insights := result; isLoadingInsights := isLoadingInsights s |} in
      ({| insights := insights s; isLoadingInsights := false |}, log')
  | (Gemini.Throws _, log') => (s, log')
  end.

(** The body of the insights panel: the placeholder while loading, the
    rendered insights when there are some, and otherwise the invitation
    with the button that calls [handleGenerateInsights]. *)
Inductive PanelBody : Type :=
| Skeleton
| Rendered (blocks : list Block)
| Invitation.

Definition panel_body (s : Panel) : PanelBody :=
  if isLoadingInsights s then Skeleton
  else if negb (String.eqb (insights s) "") then Rendered (renderInsights (insights s))
  else Invitation.

End AnalyticsView.

(** * Specifications *)

(** ** Batch approve, batch delete and generated answers *)

(** What the spec says batch delete yields, as a relation between the list
    before and the list after: walking the list, a result whose id is
    selected is dropped and any other is kept as it is. *)
Inductive Removes (ids : list string) : list StudentResult → list StudentResult → Prop :=
| Removes_nil : Removes ids [] []
| Removes_keep r l l' :
    ¬ In (id r) ids → Removes ids l l' → Removes ids (r :: l) (r :: l')
| Removes_drop r l l' :
    In (id r) ids → Removes ids l l' → Removes ids (r :: l) l'.

(** What the spec says approving does to one result: the two fields set
    when the id is selected, everything else as before. *)
Definition Approved (ids : list string) (r r' : StudentResult) : Prop :=
  id r' = id r ∧ studentId r' = studentId r ∧ examSet r' = examSet r ∧
  sectionScores r' = sectionScores r ∧ totalScore r' = totalScore r ∧
  answers r' = answers r ∧ originalImage r' = originalImage r ∧
  processingDate r' = processingDate r ∧
  (In (id r) ids → status r' = Complete ∧ confidence r' = 1%Q) ∧
  (¬ In (id r) ids → r' = r).

(** The number of answers marked correct. *)
Definition count_correct (l : list AnswerDetail) : Z :=
  Z.of_nat (length (List.filter isCorrect l)).

(** The answers of the [s]-th section: positions 10s .. 10s+9. *)
Definition section_answers (s : nat) (l : list AnswerDetail) : list AnswerDetail :=
  firstn 10 (skipn (10 * s) l).

(** An answer is marked correct exactly when it is the correct one. *)
Definition answer_ok (a : AnswerDetail) : Prop :=
  isCorrect a = true ↔ studentAnswer a = correctAnswer a.

(** ** The generator *)

(** What one pass over a section leaves behind: ten answers, each marked
    consistently, numbered from the section's first question. *)
Definition block_ok (section : string) (b : list AnswerDetail) : Prop :=
  length b = 10%nat ∧ Forall answer_ok b ∧
  map question b
  = map (fun j => Js.indexOf SECTIONS section * 10 + 0 + Z.of_nat j + 1) (seq 0 10).

(** ** Persistence *)

(** What a result looks like after [JSON.parse (JSON.stringify r)]: the
    same in every field but [processingDate], where a Date object has
    become its ISO string. *)
Definition reparsed (r : StudentResult) : StudentResult :=
  {| id := id r; studentId := studentId r; examSet := examSet r;
     sectionScores := sectionScores r; totalScore := totalScore r;
     confidence := confidence r; status := status r; answers := answers r;
     originalImage := originalImage r;
     processingDate :=
       match processingDate r with
       | DateObj t => DateStr (DateTime.toISOString t)
       | DateStr s => DateStr s
       end |}.

(** ** The processing pipeline *)

(** A file is done when its status is 'complete' or 'error'. *)
Definition terminal (f : OMRFile.t) : bool :=
  Dashboard.is_complete (OMRFile.status f) || Dashboard.is_error (OMRFile.status f).

(** The files that reached 'complete', each with its position in the queue,
    in queue order. *)
Definition completed (pf : list OMRFile.t) : list (nat * OMRFile.t) :=
  List.filter (fun jf => Dashboard.is_complete (OMRFile.status (snd jf)))
              (imap pair pf).

(** [r] is the result generated for the file at a position of the queue:
    some call [generateMockResult(processedFiles[index], index)] of the run
    returned it. *)
Definition GeneratedFor (env : Dashboard.Env) (fs : list OMRFile.t)
    (jf : nat * OMRFile.t) (r : StudentResult) : Prop :=
  ∃ f0 k t,
    nth_error fs (fst jf) = Some f0 ∧
    OMRFile.id f0 = OMRFile.id (snd jf) ∧
    r = fst (generateMockResult (Dashboard.clock env t) f0 (Z.of_nat (fst jf))
                                (Dashboard.draws env) k).

(** Where the run stands when [idx] files are done. *)
Definition phase_ok (d : Dashboard.t) (idx : nat) : Prop :=
  match Dashboard.task d with
  | Dashboard.CallProcessFile i =>
      idx = i ∧ (i ≤ length (Dashboard.files d))%nat ∧ Dashboard.delivered d = None
  | Dashboard.CallUpdateProgress i st c _ =>
      idx = i ∧ (i < length (Dashboard.files d))%nat ∧
      (st = Dashboard.errorStages ∨ st = Dashboard.okStages) ∧
      (c < length st - 1)%nat ∧ Dashboard.delivered d = None
  | Dashboard.CallOnProcessingComplete =>
      idx = length (Dashboard.files d) ∧ Dashboard.delivered d = None
  | Dashboard.Finished =>
      idx = length (Dashboard.files d) ∧
      Dashboard.delivered d = Some (Dashboard.generatedResults d)
  end.

(** The invariant of a run: the queue keeps its files; the first [idx]
    files are done; and the results generated so far are those of the
    completed ones among them, one each, in queue order. *)
Definition RunInv (env : Dashboard.Env) (d : Dashboard.t) : Prop :=
  length (Dashboard.processedFiles d) = length (Dashboard.files d) ∧
  map OMRFile.id (Dashboard.processedFiles d) = map OMRFile.id (Dashboard.files d) ∧
  ∃ idx,
    phase_ok d idx ∧
    Forall (fun f => terminal f = true) (take idx (Dashboard.processedFiles d)) ∧
    Forall2 (GeneratedFor env (Dashboard.files d))
            (completed (take idx (Dashboard.processedFiles d)))
            (Dashboard.generatedResults d).

(** *** A sample run: three files, the second of which fails *)

Definition sample_files : list OMRFile.t :=
  [ OMRFile.mk "sheet1.png-1793600000000-0.11" "sheet1.png" "blob:sheet1" 0 pending;
    OMRFile.mk "sheet2.png-1793600000001-0.22" "sheet2.png" "blob:sheet2" 0 pending;
    OMRFile.mk "sheet3.png-1793600000002-0.33" "sheet3.png" "blob:sheet3" 0 pending ].

(** Every draw is 0.9, but the one that decides the fate of the second
    file, which is 0.05. *)
Definition sample_env : Dashboard.Env :=
  {| Dashboard.draws := fun n => if (n =? 101)%nat then 1 # 20 else 9 # 10;
     Dashboard.clock := fun n => 1793612345678 + 250 * Z.of_nat n |}.

Definition sample_run : Dashboard.t :=
  Dashboard.run sample_env 80 (Dashboard.init sample_files).

Definition sample_results : list StudentResult :=
  Dashboard.generatedResults sample_run.

(** ** Reachable states *)

(** What the user and the timers can do to a page. *)
Inductive Step : Page → Page → Prop :=
| Step_reload p :
    Step p (mount (localStorage p))
| Step_processStart fs p :
    Step p (handleProcessStart fs p)
| Step_processingComplete env fs n rs p :
    Dashboard.delivered (Dashboard.run env n (Dashboard.init fs)) = Some rs →
    Step p (handleProcessingComplete rs p)
| Step_approveResult resultId p :
    Step p (handleApproveResult resultId p)
| Step_approveResults resultIds p :
    Step p (handleApproveResults resultIds p)
| Step_deleteResults resultIds p :
    Step p (handleDeleteResults resultIds p)
| Step_setView v p :
    Step p (setView v p).

(** The states of the application: the page opened on an empty store, and
    whatever follows. *)
Inductive Reachable : Page → Prop :=
| Reachable_open : Reachable (mount ∅)
| Reachable_step p q : Reachable p → Step p q → Reachable q.

(** A result under review has confidence below 0.9. *)
Definition review_ok (r : StudentResult) : Prop :=
  status r = NeedsReview → (confidence r < 9 # 10)%Q.

(** The date is a string, and one that [toISOString] printed. *)
Definition is_DateStr (r : StudentResult) : Prop :=
  ∃ t, processingDate r = DateStr (DateTime.toISOString t).

Definition is_DateObj (r : StudentResult) : Prop :=
  ∃ t, processingDate r = DateObj t.

(** The results loaded from the store, whose dates are strings, come before
    the results generated since, whose dates are Date objects. *)
Definition layered (l : list StudentResult) : Prop :=
  ∃ l1 l2, l = l1 ++ l2 ∧ Forall is_DateStr l1 ∧ Forall is_DateObj l2.

Definition date_wf (r : StudentResult) : Prop := is_DateStr r ∨ is_DateObj r.

(** The store is empty, or holds what the save effect wrote. *)
Definition stored_ok (storage : gmap string Json) : Prop :=
  (storage !! "studentResults"%string = None ∧
   storage !! "totalProcessed"%string = None) ∨
  ∃ l n,
    storage !! "studentResults"%string = Some (JSON.stringify_results l) ∧
    storage !! "totalProcessed"%string = Some (JSON.stringify_total n) ∧
    Forall review_ok l ∧ Forall date_wf l.

Definition PageInv (p : Page) : Prop :=
  isInitialMount (app p) = false ∧
  Forall review_ok (studentResults (app p)) ∧
  layered (studentResults (app p)) ∧
  stored_ok (localStorage p).

(** The page after the sample run. *)
Definition sample_page : Page :=
  handleProcessingComplete sample_results (mount ∅).

(** ** An ISO date string is not a numeric literal *)

Definition Digit (c : ascii) : Prop :=
  In c ["0"; "1"; "2"; "3"; "4"; "5"; "6"; "7"; "8"; "9"]%char.

Fixpoint ends_nonspace (s : string) : bool :=
  match s with
  | EmptyString => false
  | String c EmptyString => negb (Js.is_space c)
  | String c s' => ends_nonspace s'
  end.

(** ** Sorting *)

(** [a] may stay in front of [b]: the comparison function does not return
    a positive number for them. *)
Definition precedes {A : Type} (cmp : A → A → Z) (a b : A) : Prop :=
  (0 <? cmp a b) = false.

(** ** The comparison function of the table *)

(** [a] may come before [b] under the configuration: ascending, [b]'s key
    is not less than [a]'s; descending, [a]'s key is not less than [b]'s. *)
Definition ordered (c : SortConfig) (a b : StudentResult) : Prop :=
  (if ResultsView.is_asc (direction c)
   then Js.lt (ResultsView.field_prim (key c) b) (ResultsView.field_prim (key c) a)
   else Js.lt (ResultsView.field_prim (key c) a) (ResultsView.field_prim (key c) b))
  = false.

Definition num_same (x y : Num) : bool :=
  match x, y with
  | NaN, NaN | NegInf, NegInf | PosInf, PosInf => true
  | Fin a, Fin b => Qeq_bool a b
  | _, _ => false
  end.

(** Two keys are the same value. *)
Definition prim_same (p q : Js.Prim) : bool :=
  match p, q with
  | Js.PStr s, Js.PStr t => String.eqb s t
  | Js.PNum x, Js.PNum y => num_same x y
  | _, _ => false
  end.

(** The result's key is the value [x]. *)
Definition same_key (c : SortConfig) (x : Js.Prim) (r : StudentResult) : bool :=
  prim_same (ResultsView.field_prim (key c) r) x.

(** The key of a result is a string, or a finite number. *)
Definition StrKey (k : SortKey) (r : StudentResult) : Prop :=
  ∃ s, ResultsView.field_prim k r = Js.PStr s.

Definition FinKey (k : SortKey) (r : StudentResult) : Prop :=
  ∃ q, ResultsView.field_prim k r = Js.PNum (Fin q).

(** ** Filtering, relationally *)

(** [Kept P l l']: walking [l], an element that satisfies [P] is kept as it
    is and any other is dropped; [l'] is what remains. *)
Inductive Kept {A : Type} (P : A → Prop) : list A → list A → Prop :=
| Kept_nil : Kept P [] []
| Kept_keep x l l' : P x → Kept P l l' → Kept P (x :: l) (x :: l')
| Kept_drop x l l' : ¬ P x → Kept P l l' → Kept P (x :: l) l'.

(** ** Case-insensitive search *)

(** [s] contains [t] case-insensitively: some substring of [s] equals [t]
    up to the case of its letters. *)
Definition contains_ci (s t : string) : Prop :=
  ∃ pre mid post, s = (pre ++ mid ++ post)%string ∧
                  Str.toLowerCase mid = Str.toLowerCase t.

(** ** The table filters *)

(** The predicate of the table's two filters, as the spec words it. *)
Definition matches (v : ResultsView.t) (r : StudentResult) : Prop :=
  contains_ci (studentId r) (ResultsView.searchTerm v) ∧
  (ResultsView.statusFilter v = All ∨ ResultsView.statusFilter v = Only (status r)).

(** A list as the application holds it after a reload and a new run: the
    first sample result as loaded from the store, then the second as
    generated. *)
Definition sample_mixed : list StudentResult :=
  map reparsed (firstn 1 sample_results) ++ skipn 1 sample_results.

(** ** CSV export *)

(** The first date is an earlier instant than the second; an invalid date
    is before nothing and nothing is before it. *)
Definition before (a b : option Z) : Prop :=
  ∃ x y, a = Some x ∧ b = Some y ∧ x < y.

(** The predicate of the export filters, as the spec words it. *)
Definition export_matches (tz : Z) (v : ResultsView.t) (r : StudentResult) : Prop :=
  (ResultsView.exportStatusFilter v = All ∨
   ResultsView.exportStatusFilter v = Only (status r)) ∧
  (ResultsView.exportStartDate v ≠ ""%string →
   ¬ before (ResultsView.resultDate tz r)
            (DateTime.parse (ResultsView.exportStartDate v))) ∧
  (ResultsView.exportEndDate v ≠ ""%string →
   ¬ before (DateTime.parse (ResultsView.exportEndDate v))
            (ResultsView.resultDate tz r)).

(** ** Sample lists for the persistence results *)

(** The first result of the sample run, as generated. *)
Definition sample_saved : list StudentResult := firstn 1 sample_results.

(** A list the application holds after a reload and a new run: the second
    sample result as loaded from the store, then the first as generated. *)
Definition sample_reloaded_then_new : list StudentResult :=
  map reparsed (skipn 1 sample_results) ++ firstn 1 sample_results.

(** ** Dates that survive a reload *)

(** The time values [toISOString] prints with a four-digit year:
    0000-01-01T00:00:00.000Z to 9999-12-31T23:59:59.999Z. *)
Definition iso_min : Z := -62167219200000.
Definition iso_max : Z := 253402300799999.

(** [P] holds of the [n] integers from [z] on. *)
Fixpoint forall_from (P : Z → bool) (z : Z) (n : nat) : bool :=
  match n with
  | O => true
  | S n' => P z && forall_from P (z + 1) n'
  end.

(** For a day [doe] of the 400-year cycle that starts on 0000-03-01: its
    civil date is a valid date, of the cycle's years, and it is the date of
    that day. *)
Definition civil_ok (doe : Z) : bool :=
  let '(y, m, d) := DateTime.civil_from_days (doe - 719468) in
  (DateTime.days_from_civil y m d =? doe - 719468) &&
  (1 <=? m) && (m <=? 12) && (1 <=? d) && (d <=? DateTime.days_in_month y m) &&
  (d <=? 31) &&
  (0 <=? y) && (y <=? 400) &&
  (if doe <? 146037 then y <=? 399 else y =? 400).

(** The date of a result is a string already, or a Date object that
    [toISOString] prints with a four-digit year. *)
Definition date_in_range (r : StudentResult) : Prop :=
  match processingDate r with
  | DateObj t => iso_min ≤ t ≤ iso_max
  | DateStr _ => True
  end.

(** The number of the local calendar day of the instant [t]. *)
Definition local_day (tz t : Z) : Z := (t + tz) / DateTime.msPerDay.

(** [s] is the value of an <input type="date">: "YYYY-MM-DD", the day
    numbered [day]. *)
Definition date_only (s : string) (day : Z) : Prop :=
  DateTime.read_date s = Some (day * DateTime.msPerDay, ""%string).

(** A default for [nth], and the first result of the sample run. *)
Definition blank_result : StudentResult :=
  {| id := ""; studentId := ""; examSet := SetA; sectionScores := ∅;
     totalScore := 0; confidence := 0; status := Complete; answers := [];
     originalImage := ""; processingDate := DateObj 0 |}.

Definition sample_first : StudentResult := nth 0 sample_results blank_result.

(** The export panel set to the two days 2026-10-06 and 2026-10-07. *)
Definition sample_export_view : ResultsView.t :=
  ResultsView.mk None None "" All 1 ∅ All "2026-10-06" "2026-10-07".

(** ** What the store holds *)

(** The store mirrors the state: nothing was ever saved and the state is
    the initial one, or the store holds what [JSON.stringify] writes for
    the results and the counter now in memory. *)
Definition mirrored (p : Page) : Prop :=
  (localStorage p !! "studentResults"%string = None ∧
   localStorage p !! "totalProcessed"%string = None ∧
   studentResults (app p) = [] ∧ totalProcessed (app p) = 0) ∨
  (localStorage p !! "studentResults"%string
   = Some (JSON.stringify_results (studentResults (app p))) ∧
   localStorage p !! "totalProcessed"%string
   = Some (JSON.stringify_total (totalProcessed (app p)))).

(** ** What the user can do in the table *)

(** One event of the review table.  The list of results is the one the
    parent holds at that moment. *)
Inductive ViewStep : ResultsView.t → ResultsView.t → Prop :=
| ViewStep_search s v : ViewStep v (ResultsView.onSearchChange s v)
| ViewStep_status f v : ViewStep v (ResultsView.onStatusFilter f v)
| ViewStep_prev v : ViewStep v (ResultsView.prevPage v)
| ViewStep_next results v : ViewStep v (ResultsView.nextPage results v)
| ViewStep_sort k v : ViewStep v (ResultsView.requestSort k v)
| ViewStep_select i v : ViewStep v (ResultsView.handleSelect i v)
| ViewStep_selectAll results checked v :
    ViewStep v (ResultsView.handleSelectAll results checked v)
| ViewStep_detail o v : ViewStep v (ResultsView.with_selectedResult o v)
| ViewStep_exportFilters f s e v : ViewStep v (ResultsView.with_exportFilters f s e v)
| ViewStep_approve p v : ViewStep v (snd (ResultsView.approveSelected p v))
| ViewStep_delete c p v : ViewStep v (snd (ResultsView.deleteSelected c p v))
| ViewStep_modalApprove p v : ViewStep v (snd (ResultsView.modalApprove p v)).

(** The states of the table: as it is mounted, and whatever follows. *)
Inductive ViewReachable : ResultsView.t → Prop :=
| ViewReachable_initial : ViewReachable ResultsView.initial
| ViewReachable_step v v' : ViewReachable v → ViewStep v v' → ViewReachable v'.

(** ** Analytics *)

(** The sum of the total scores. *)
Definition sum_scores (results : list StudentResult) : Z :=
  foldr (fun r acc => totalScore r + acc) 0 results.

(** The number of results with a total of 50 or more. *)
Definition passed (results : list StudentResult) : Z :=
  Z.of_nat (length (List.filter (fun r => 50 <=? totalScore r) results)).

(** The sum of the scores of one section; a result without the key counts
    for nothing. *)
Definition section_sum (section : string) (results : list StudentResult) : Z :=
  foldr (fun r acc => default 0 (sectionScores r !! section) + acc) 0 results.

(** Every result has a score for each of the five sections. *)
Definition has_scores (r : StudentResult) : Prop :=
  ∀ section, In section SECTIONS → is_Some (sectionScores r !! section).

(** The total of a result is the sum of its five section scores. *)
Definition total_is_sum (r : StudentResult) : Prop :=
  totalScore r
  = foldr (fun section acc => default 0 (sectionScores r !! section) + acc) 0 SECTIONS.

(** The sum of the finite values of a list of averages. *)
Definition sum_avgs (l : list (string * Num)) : Q :=
  foldr (fun sa acc => match snd sa with Fin q => q + acc | _ => acc end)%Q 0%Q l.

(** How often question [q] was answered incorrectly, over all results. *)
Definition missed (q : Z) (results : list StudentResult) : Z :=
  foldr (fun r acc =>
           Z.of_nat (length (List.filter
                               (fun a => negb (isCorrect a) && (question a =? q))
                               (answers r))) + acc)
        0 results.

(** The array of counts when position [k] holds the count [f k]. *)
Definition counts_of (f : nat → Z) : list AnalyticsView.Slot :=
  map (fun k => AnalyticsView.Count (Fin (inject_Z (f k)))) (seq 0 50).

(** How often question [q] is answered incorrectly in a list of answers. *)
Definition missed_in (q : Z) (l : list AnswerDetail) : Z :=
  Z.of_nat (length (List.filter (fun a => negb (isCorrect a) && (question a =? q)) l)).

(** No answer marked incorrect carries a question number above 50. *)
Definition answers_in_range (r : StudentResult) : Prop :=
  Forall (fun a => isCorrect a = false → question a ≤ 50) (answers r).

(** Question [q] comes before [q'] in the ranking: it was missed more
    often, or as often and it is the earlier question. *)
Definition harder (results : list StudentResult) (q q' : Z) : Prop :=
  missed q' results < missed q results ∨
  (missed q' results = missed q results ∧ q < q').

(** The bar the chart draws for question [q]. *)
Definition bar (results : list StudentResult) (q : Z) : AnalyticsView.Entry :=
  {| AnalyticsView.name := String.append "Q" (pretty q);
     AnalyticsView.incorrect :=
       Fin (inject_Z (missed q results)
            / inject_Z (Z.of_nat (length results)) * 100) |}.

(** The question numbers 1 to 50. *)
Definition questions : list Z := map (fun k => Z.of_nat k + 1) (seq 0 50).

(** ** Results as the generator makes them *)

(** What the generator promises of a result: fifty answers numbered from 1
    and marked consistently, section scores of two points per correct
    answer, and their sum as the total. *)
Definition plausible (r : StudentResult) : Prop :=
  length (answers r) = 50%nat ∧
  (∀ i a, nth_error (answers r) i = Some a →
          question a = Z.of_nat i + 1 ∧ answer_ok a) ∧
  (∀ s section, nth_error SECTIONS s = Some section →
          sectionScores r !! section
          = Some (2 * count_correct (section_answers s (answers r))) ∧
          0 ≤ 2 * count_correct (section_answers s (answers r)) ≤ 20) ∧
  totalScore r
  = 2 * count_correct (section_answers 0 (answers r))
    + 2 * count_correct (section_answers 1 (answers r))
    + 2 * count_correct (section_answers 2 (answers r))
    + 2 * count_correct (section_answers 3 (answers r))
    + 2 * count_correct (section_answers 4 (answers r)) ∧
  0 ≤ totalScore r ≤ 100.

(** ** The queue during a run *)

(** The position of the file the run is working on; the length of the
    queue once every file is done. *)
Definition idx_of (d : Dashboard.t) : nat :=
  match Dashboard.task d with
  | Dashboard.CallProcessFile i => i
  | Dashboard.CallUpdateProgress i _ _ _ => i
  | Dashboard.CallOnProcessingComplete | Dashboard.Finished =>
      length (Dashboard.files d)
  end.

(** The files before that position are done, the files after it wait with
    status 'uploading', and the file at it waits or is in the stage the
    pending timer callback will continue. *)
Definition QueueInv (d : Dashboard.t) : Prop :=
  Forall (fun f => Dashboard.is_done f = true)
         (take (idx_of d) (Dashboard.processedFiles d)) ∧
  Forall (fun f => OMRFile.status f = uploading)
         (drop (S (idx_of d)) (Dashboard.processedFiles d)) ∧
  ∀ f, Dashboard.processedFiles d !! idx_of d = Some f →
       OMRFile.status f = uploading ∨
       ∃ i st c pr, Dashboard.task d = Dashboard.CallUpdateProgress i st c pr ∧
                    OMRFile.status f = nth c st pending.

(** The progress values of the queue, and of the pending timer callback,
    are percentages; a file that is done is left with progress 0. *)
Definition ProgressInv (d : Dashboard.t) : Prop :=
  Forall (fun f => (0 <= OMRFile.progress f <= 100)%Q) (Dashboard.processedFiles d) ∧
  Forall (fun f => Dashboard.is_done f = true → OMRFile.progress f = 0%Q)
         (Dashboard.processedFiles d) ∧
  match Dashboard.task d with
  | Dashboard.CallUpdateProgress _ _ _ pr => (0 <= pr < 100)%Q
  | _ => True
  end.

(** ** The insights panel *)

(** Every character of the string is white space. *)
Fixpoint blank (s : string) : bool :=
  match s with
  | EmptyString => true
  | String c s' => Js.is_space c && blank s'
  end.

(** The text a block shows. *)
Definition block_text (b : AnalyticsView.Block) : string :=
  match b with
  | AnalyticsView.Heading t => t
  | AnalyticsView.Numbered label rest => String.append label rest
  | AnalyticsView.Paragraph t => t
  end.

(** * Proofs *)

(** ** Batch approve and batch delete *)

Lemma elem_of_ids (ids : list string) (x : string) :
  x ∈ (list_to_set ids : gset string) ↔ In x ids.
Proof. rewrite elem_of_list_to_set. apply list_elem_of_In. Qed.

Lemma approve_Approved ids r : In (id r) ids → Approved ids r (approve r).
Proof.
  intros Hin. unfold Approved; simpl.
  repeat split; try reflexivity; intros; contradiction.
Qed.

Lemma keep_Approved ids r : ¬ In (id r) ids → Approved ids r r.
Proof.
  intros Hn. unfold Approved.
  repeat split; try reflexivity; intros; contradiction.
Qed.

Lemma approveResults_Forall2 ids prev :
  Forall2 (Approved ids) prev (approveResults ids prev).
Proof.
  unfold approveResults.
  induction prev as [|r prev IH]; simpl; constructor; [|exact IH].
  destruct (decide (id r ∈ list_to_set ids)) as [Hin|Hn].
  - apply approve_Approved. now apply elem_of_ids.
  - apply keep_Approved. intros Hin. apply Hn. now apply elem_of_ids.
Qed.

Lemma approveResult_singleton resultId prev :
  approveResult resultId prev = approveResults [resultId] prev.
Proof.
  unfold approveResult, approveResults. apply map_ext. intros r.
  destruct (String.eqb_spec (id r) resultId) as [He|Hne].
  - rewrite decide_True; [reflexivity|]. apply elem_of_ids. now left.
  - rewrite decide_False; [reflexivity|]. rewrite elem_of_ids.
    intros [H|[]]. now apply Hne.
Qed.

(** C6. Batch approve sets status to Complete and confidence to 1 on the
    results whose id is selected and on no other; every other field of an
    approved result, every other result, the length of the list and the
    order of the results stay as they were.  The list after is related to
    the list before position by position ([Forall2]), the handler changes
    nothing else of the application state, and approving one id is batch
    approve of that one id. *)
Theorem approve_changes_only_targets (resultIds : list string) (p : Page) :
  let before := studentResults (app p) in
  let after := studentResults (app (handleApproveResults resultIds p)) in
  Forall2 (Approved resultIds) before after ∧
  length after = length before ∧
  map id after = map id before ∧
  view (app (handleApproveResults resultIds p)) = view (app p) ∧
  totalProcessed (app (handleApproveResults resultIds p)) = totalProcessed (app p) ∧
  ∀ resultId,
    studentResults (app (handleApproveResult resultId p))
    = studentResults (app (handleApproveResults [resultId] p)).
Proof.
  assert (Hres : ∀ ids, studentResults (app (handleApproveResults ids p))
                        = approveResults ids (studentResults (app p))).
  { intros ids. unfold handleApproveResults, update, saveEffect; simpl.
    destruct (isInitialMount (app p)); reflexivity. }
  cbv zeta. rewrite Hres.
  pose proof (approveResults_Forall2 resultIds (studentResults (app p))) as HF.
  split; [exact HF|]. split; [symmetry; eapply Forall2_length; exact HF|].
  split.
  { clear Hres. induction HF as [|r r' l l' Hr _ IH]; simpl; [reflexivity|].
    destruct Hr as [Hid _]. now rewrite Hid, IH. }
  split.
  { unfold handleApproveResults, update, saveEffect; simpl.
    destruct (isInitialMount (app p)); reflexivity. }
  split.
  { unfold handleApproveResults, update, saveEffect; simpl.
    destruct (isInitialMount (app p)); reflexivity. }
  intros resultId. rewrite Hres.
  unfold handleApproveResult, update, saveEffect; simpl.
  destruct (isInitialMount (app p)); simpl; apply approveResult_singleton.
Qed.

Lemma deleteResults_Removes ids prev : Removes ids prev (deleteResults ids prev).
Proof.
  unfold deleteResults. induction prev as [|r prev IH]; simpl; [constructor|].
  destruct (bool_decide_reflect (id r ∈ (list_to_set ids : gset string))) as [Hin|Hn];
    simpl.
  - apply Removes_drop; [now apply elem_of_ids | exact IH].
  - apply Removes_keep; [|exact IH]. intros Hin. apply Hn. now apply elem_of_ids.
Qed.

Lemma Removes_functional ids prev l1 :
  Removes ids prev l1 → ∀ l2, Removes ids prev l2 → l1 = l2.
Proof.
  induction 1 as [|r l l' Hn _ IH|r l l' Hin _ IH]; intros l2 H2;
    inversion H2; subst; try contradiction; try reflexivity.
  - f_equal. now apply IH.
  - now apply IH.
Qed.

Lemma Removes_In ids prev after :
  Removes ids prev after → ∀ r, In r after ↔ In r prev ∧ ¬ In (id r) ids.
Proof.
  induction 1 as [|r l l' Hn _ IH|r l l' Hin _ IH]; intros x; simpl.
  - tauto.
  - rewrite IH. split.
    + intros [->|[H1 H2]]; tauto.
    + intros [[->|H1] H2]; tauto.
  - rewrite IH. split.
    + tauto.
    + intros [[->|H1] H2]; [contradiction|tauto].
Qed.

(** C7. Batch delete yields exactly the results whose id is not selected,
    in their original order and unmodified: the list after is the one list
    the relation [Removes] allows, it is a sublist of the list before, and a
    result is in it exactly when it was in the list and its id is not
    selected. *)
Theorem delete_removes_exactly_selected (resultIds : list string) (p : Page) :
  let before := studentResults (app p) in
  let after := studentResults (app (handleDeleteResults resultIds p)) in
  Removes resultIds before after ∧
  (∀ l, Removes resultIds before l → l = after) ∧
  sublist after before ∧
  (∀ r, In r after ↔ In r before ∧ ¬ In (id r) resultIds).
Proof.
  assert (Hres : studentResults (app (handleDeleteResults resultIds p))
                 = deleteResults resultIds (studentResults (app p))).
  { unfold handleDeleteResults, update, saveEffect; simpl.
    destruct (isInitialMount (app p)); reflexivity. }
  cbv zeta. rewrite Hres.
  pose proof (deleteResults_Removes resultIds (studentResults (app p))) as HR.
  split; [exact HR|]. split.
  { intros l Hl. eapply Removes_functional; eassumption. }
  split.
  { clear Hres. induction HR; [constructor| now apply sublist_skip | now apply sublist_cons]. }
  now apply Removes_In.
Qed.

(** ** The generator *)

Lemma Rand_bind_unfold {A B} (m : Rand A) (f : A → Rand B) rng k :
  (m ≫= f) rng k = let '(a, k') := m rng k in f a rng k'.
Proof. reflexivity. Qed.

Lemma wrong_answer_differs (q : Z) :
  Str.fromCharCode (65 + (q + 1) mod 4) ≠ at_index CORRECT_ANSWERS q.
Proof.
  unfold at_index. destruct (Z.ltb_spec q 0) as [Hneg|Hpos].
  - unfold Str.fromCharCode. discriminate.
  - rewrite <- (Z2Nat.id q Hpos). generalize (Z.to_nat q) as n. intros n.
    rewrite Nat2Z.id.
    do 50 (destruct n as [|n]; [intros H; vm_compute in H; discriminate H|]).
    intros H. rewrite nth_overflow in H
      by (change (length CORRECT_ANSWERS) with 50%nat; lia).
    discriminate H.
Qed.

Lemma count_correct_cons a l :
  count_correct (a :: l) = (if isCorrect a then 1 else 0) + count_correct l.
Proof.
  unfold count_correct. cbn [List.filter]. destruct (isCorrect a); cbn [length]; lia.
Qed.

Lemma count_correct_bounds l : 0 ≤ count_correct l ≤ Z.of_nat (length l).
Proof.
  unfold count_correct. pose proof (List.filter_length_le isCorrect l). lia.
Qed.

Lemma question_loop_spec n : ∀ si i sc ans rng k,
  ∃ new,
    question_loop n si i sc ans rng k
    = ((sc + 2 * count_correct new, ans ++ new), (k + n)%nat) ∧
    length new = n ∧
    Forall answer_ok new ∧
    map question new = map (fun j => si * 10 + i + Z.of_nat j + 1) (seq 0 n).
Proof.
  induction n as [|n IH]; intros si i sc ans rng k.
  - exists []. simpl. unfold mret, Rand_ret.
    rewrite app_nil_r, Nat.add_0_r, Z.add_0_r. auto.
  - cbn [question_loop]. rewrite Rand_bind_unfold. unfold random at 1.
    match goal with
    | |- context [question_loop n si (i + 1) ?sc' (ans ++ [?a]) rng (S k)] =>
        destruct (IH si (i + 1) sc' (ans ++ [a]) rng (S k))
          as (new & Heq & Hlen & Hok & Hq);
        exists (a :: new); rewrite Heq
    end.
    split; [|split; [|split]].
    + rewrite count_correct_cons. cbn [isCorrect].
      rewrite <- app_assoc. simpl app.
      f_equal; [|lia]. f_equal.
      destruct (Qltb (3 # 10) (rng k)); simpl; lia.
    + simpl. now rewrite Hlen.
    + constructor; [|exact Hok].
      unfold answer_ok; cbn [isCorrect studentAnswer correctAnswer].
      destruct (Qltb (3 # 10) (rng k)).
      * tauto.
      * split; [discriminate|]. intros H.
        now apply wrong_answer_differs in H.
    + cbn [map question seq]. rewrite Hq. f_equal; [lia|].
      rewrite <- seq_shift, map_map. apply map_ext. intros j. lia.
Qed.

Lemma section_loop_spec todo : ∀ scores total ans rng k,
  ∃ blocks,
    section_loop todo scores total ans rng k
    = ((foldl (fun m sb => <[fst sb := 2 * count_correct (snd sb)]> m)
              scores (zip todo blocks),
        total + foldr (fun b acc => 2 * count_correct b + acc) 0 blocks,
        ans ++ concat blocks),
       (k + 10 * length todo)%nat) ∧
    Forall2 block_ok todo blocks.
Proof.
  induction todo as [|section todo IH]; intros scores total ans rng k.
  - exists []. simpl. unfold mret, Rand_ret.
    rewrite app_nil_r, Z.add_0_r, Nat.add_0_r. auto.
  - cbn [section_loop]. rewrite Rand_bind_unfold.
    destruct (question_loop_spec 10 (Js.indexOf SECTIONS section) 0 0 ans rng k)
      as (b & Heq & Hlen & Hok & Hq).
    rewrite Heq.
    destruct (IH (<[section := 0 + 2 * count_correct b]> scores)
                 (total + (0 + 2 * count_correct b)) (ans ++ b) rng (k + 10)%nat)
      as (blocks & Heq' & HF).
    exists (b :: blocks). rewrite Heq'. split.
    + cbn [zip zip_with foldl foldr concat fst snd length].
      rewrite Z.add_0_l, <- app_assoc. f_equal; [|lia]. f_equal. f_equal. lia.
    + constructor; [|exact HF]. unfold block_ok. auto.
Qed.

Lemma nth_block {A} (n : nat) (blocks : list (list A)) :
  Forall (fun b => length b = n) blocks →
  ∀ s b, nth_error blocks s = Some b →
  firstn n (skipn (n * s) (concat blocks)) = b.
Proof.
  induction 1 as [|b0 blocks Hb0 _ IH]; intros s b Hs.
  - destruct s; discriminate.
  - destruct s as [|s]; simpl in Hs.
    + injection Hs as <-. rewrite Nat.mul_0_r. cbn [skipn concat].
      now apply take_app_length'.
    + cbn [concat]. replace (n * S s)%nat with (length b0 + n * s)%nat by lia.
      rewrite drop_app_add.
      now apply IH.
Qed.

Lemma generateMockResult_blocks now file index rng k :
  ∃ b0 b1 b2 b3 b4 r,
    block_ok "Data Analytics" b0 ∧ block_ok "AI/ML" b1 ∧
    block_ok "Data Science" b2 ∧ block_ok "Generative AI" b3 ∧
    block_ok "Statistics" b4 ∧
    generateMockResult now file index rng k = (r, (k + 53)%nat) ∧
    id r = OMRFile.id file ∧
    answers r = concat [b0; b1; b2; b3; b4] ∧
    sectionScores r
    = foldl (fun m sb => <[fst sb := 2 * count_correct (snd sb)]> m) ∅
            (zip SECTIONS [b0; b1; b2; b3; b4]) ∧
    totalScore r
    = foldr (fun b acc => 2 * count_correct b + acc) 0 [b0; b1; b2; b3; b4] ∧
    status r = (if Qltb (confidence r) (9 # 10) then NeedsReview else Complete) ∧
    ∃ t, processingDate r = DateObj t.
Proof.
  unfold generateMockResult. rewrite Rand_bind_unfold. unfold random at 1.
  rewrite Rand_bind_unfold.
  destruct (section_loop_spec SECTIONS ∅ 0 [] rng (S k)) as (blocks & Heq & HF).
  rewrite Heq. clear Heq. unfold SECTIONS in HF.
  repeat match goal with
         | H : Forall2 _ (_ :: _) _ |- _ => inversion H; subst; clear H
         | H : Forall2 _ [] _ |- _ => inversion H; subst; clear H
         end.
  rewrite !Rand_bind_unfold. unfold random, mret, Rand_ret.
  do 6 eexists. do 5 (split; [eassumption|]).
  split; [apply (f_equal2 pair); [reflexivity|unfold SECTIONS; cbn [length]; lia]|].
  cbn [id answers sectionScores totalScore status confidence processingDate].
  rewrite Z.add_0_l. repeat split; try reflexivity. eexists; reflexivity.
Qed.

(** C3. Every generated result is plausible, whatever the draws, the clock,
    the file and the index: fifty answers, the i-th for question i+1, each
    marked correct exactly when the student's answer is the correct one;
    for each of the five sections a score of twice the number of correct
    answers among its ten questions, between 0 and 20; and a total that is
    the sum of the five section scores, between 0 and 100. *)
Theorem generated_result_plausible
    (now : Z) (file : OMRFile.t) (index : Z) (rng : nat → Q) (k : nat) :
  let r := fst (generateMockResult now file index rng k) in
  let score s := 2 * count_correct (section_answers s (answers r)) in
  length (answers r) = 50%nat ∧
  (∀ i a, nth_error (answers r) i = Some a →
          question a = Z.of_nat i + 1 ∧ answer_ok a) ∧
  (∀ s section, nth_error SECTIONS s = Some section →
          sectionScores r !! section = Some (score s) ∧ 0 ≤ score s ≤ 20) ∧
  totalScore r = score 0%nat + score 1%nat + score 2%nat + score 3%nat + score 4%nat ∧
  0 ≤ totalScore r ≤ 100.
Proof.
  destruct (generateMockResult_blocks now file index rng k)
    as (b0 & b1 & b2 & b3 & b4 & r' & H0 & H1 & H2 & H3 & H4 & Hr
        & _ & Hans & Hsc & Htot & _).
  rewrite Hr. cbn [fst]. cbv zeta. rewrite Hans, Hsc, Htot.
  assert (Hlens : Forall (fun b : list AnswerDetail => length b = 10%nat)
                         [b0; b1; b2; b3; b4]).
  { repeat constructor; [apply H0|apply H1|apply H2|apply H3|apply H4]. }
  assert (Hsec : ∀ s b, nth_error [b0; b1; b2; b3; b4] s = Some b →
                        section_answers s (concat [b0; b1; b2; b3; b4]) = b).
  { intros s b Hs. unfold section_answers. now apply nth_block. }
  assert (Hb : ∀ sec b, block_ok sec b → 0 ≤ 2 * count_correct b ≤ 20).
  { intros sec b (Hl & _). pose proof (count_correct_bounds b). lia. }
  pose proof (Hb _ _ H0). pose proof (Hb _ _ H1). pose proof (Hb _ _ H2).
  pose proof (Hb _ _ H3). pose proof (Hb _ _ H4).
  split; [|split; [|split; [|split]]].
  - cbn [concat]. rewrite !length_app.
    destruct H0 as (-> & _), H1 as (-> & _), H2 as (-> & _), H3 as (-> & _),
             H4 as (-> & _). reflexivity.
  - intros i a Hi.
    assert (Hq : map question (concat [b0; b1; b2; b3; b4])
                 = map (fun j => Z.of_nat j + 1) (seq 0 50)).
    { cbn [concat]. rewrite !map_app.
      destruct H0 as (_ & _ & ->), H1 as (_ & _ & ->), H2 as (_ & _ & ->),
               H3 as (_ & _ & ->), H4 as (_ & _ & ->). reflexivity. }
    split.
    + pose proof (map_nth_error question _ _ Hi) as Hm. rewrite Hq in Hm.
      rewrite nth_error_map, nth_error_seq in Hm.
      destruct (i <? 50)%nat; [|discriminate]. cbn in Hm. injection Hm as <-. lia.
    + assert (Hall : Forall answer_ok (concat [b0; b1; b2; b3; b4])).
      { cbn [concat]. rewrite !Forall_app.
        repeat split; [apply H0|apply H1|apply H2|apply H3|apply H4|constructor]. }
      eapply (proj1 (List.Forall_forall _ _) Hall), nth_error_In; eassumption.
  - intros s section Hs. unfold SECTIONS in Hs.
    unfold SECTIONS. cbn [zip zip_with foldl fst snd].
    destruct s as [|[|[|[|[|s]]]]]; [| | | | |destruct s; discriminate];
      injection Hs as <-.
    + rewrite (Hsec 0%nat b0 eq_refl). split; [|assumption].
      repeat (rewrite lookup_insert_ne by discriminate). apply lookup_insert_eq.
    + rewrite (Hsec 1%nat b1 eq_refl). split; [|assumption].
      repeat (rewrite lookup_insert_ne by discriminate). apply lookup_insert_eq.
    + rewrite (Hsec 2%nat b2 eq_refl). split; [|assumption].
      repeat (rewrite lookup_insert_ne by discriminate). apply lookup_insert_eq.
    + rewrite (Hsec 3%nat b3 eq_refl). split; [|assumption].
      repeat (rewrite lookup_insert_ne by discriminate). apply lookup_insert_eq.
    + rewrite (Hsec 4%nat b4 eq_refl). split; [|assumption].
      apply lookup_insert_eq.
  - rewrite (Hsec 0%nat b0 eq_refl), (Hsec 1%nat b1 eq_refl),
      (Hsec 2%nat b2 eq_refl), (Hsec 3%nat b3 eq_refl), (Hsec 4%nat b4 eq_refl).
    cbn [foldr]. lia.
  - cbn [foldr]. lia.
Qed.

(** ** Persistence *)

Lemma as_int_inject_Z z : JSON.as_int (JNum (inject_Z z)) = Some z.
Proof.
  unfold JSON.as_int, JSON.as_num, mbind, option_bind. rewrite Qfloor_Z.
  now rewrite (proj2 (Qeq_bool_iff _ _) (Qeq_refl _)).
Qed.

Lemma to_answer_of_answer a : JSON.to_answer (JSON.of_answer a) = Some a.
Proof.
  destruct a as [q s c b]. unfold JSON.to_answer, JSON.of_answer.
  cbn -[JSON.as_int]. rewrite as_int_inject_Z. reflexivity.
Qed.

Lemma to_scores_of_scores m : JSON.to_scores (JSON.of_scores m) = Some m.
Proof.
  unfold JSON.to_scores, JSON.of_scores. cbn -[JSON.as_int mapM].
  rewrite (mapM_fmap_Some _ _ (map_to_list m)).
  - cbn. now rewrite list_to_map_to_list.
  - intros [k v]. cbn -[JSON.as_int]. now rewrite as_int_inject_Z.
Qed.

Lemma to_examSet_string e : JSON.to_examSet (examSet_string e) = Some e.
Proof. now destruct e. Qed.

Lemma to_status_string s : JSON.to_status (status_string s) = Some s.
Proof. now destruct s. Qed.

Lemma to_result_of_result r : JSON.to_result (JSON.of_result r) = Some (reparsed r).
Proof.
  destruct r as [i sid es sc ts cf st ans img pd].
  unfold JSON.to_result, JSON.of_result, reparsed.
  cbn -[JSON.as_int JSON.to_scores JSON.of_scores mapM JSON.to_examSet
        JSON.to_status examSet_string status_string DateTime.toISOString].
  rewrite to_examSet_string. cbn -[JSON.as_int JSON.to_scores JSON.of_scores mapM
        JSON.to_status status_string DateTime.toISOString].
  rewrite to_scores_of_scores. cbn -[JSON.as_int mapM JSON.to_status status_string
        DateTime.toISOString].
  rewrite as_int_inject_Z. cbn -[mapM JSON.to_status status_string DateTime.toISOString].
  rewrite to_status_string. cbn -[mapM DateTime.toISOString].
  rewrite (mapM_fmap_Some _ _ ans to_answer_of_answer).
  destruct pd; reflexivity.
Qed.

Lemma parse_stringify_results l :
  JSON.parse_results (JSON.stringify_results l) = Some (map reparsed l).
Proof.
  unfold JSON.parse_results, JSON.stringify_results. cbn -[mapM].
  apply mapM_Some_2. induction l as [|r l IH]; cbn; constructor; [|exact IH].
  apply to_result_of_result.
Qed.

Lemma parse_stringify_total n : JSON.parse_total (JSON.stringify_total n) = Some n.
Proof. apply as_int_inject_Z. Qed.

Lemma reparsed_idem r : reparsed (reparsed r) = reparsed r.
Proof. destruct r as [? ? ? ? ? ? ? ? ? []]; reflexivity. Qed.

(** After a handler that sets state, on a page past its first render, the
    store holds the serialized list and counter. *)
Lemma update_stores f p :
  isInitialMount (app p) = false →
  (∀ a, isInitialMount (f a) = isInitialMount a) →
  let q := update f p in
  app q = f (app p) ∧
  localStorage q !! "studentResults"%string
  = Some (JSON.stringify_results (studentResults (app q))) ∧
  localStorage q !! "totalProcessed"%string
  = Some (JSON.stringify_total (totalProcessed (app q))).
Proof.
  intros Hm Hf. unfold update, saveEffect. cbn [app localStorage].
  rewrite Hf, Hm. cbn [app localStorage]. split; [reflexivity|]. split.
  - rewrite lookup_insert_ne by discriminate. apply lookup_insert_eq.
  - apply lookup_insert_eq.
Qed.

(** Opening the page on a store that holds a serialized list loads that
    list as [JSON.parse] returns it. *)
Lemma mount_loads storage l n :
  storage !! "studentResults"%string = Some (JSON.stringify_results l) →
  storage !! "totalProcessed"%string = Some (JSON.stringify_total n) →
  let q := mount storage in
  studentResults (app q) = map reparsed l ∧ totalProcessed (app q) = n ∧
  isInitialMount (app q) = false ∧
  localStorage q !! "studentResults"%string
  = Some (JSON.stringify_results (map reparsed l)).
Proof.
  intros Hr Ht. unfold mount, loadEffect. cbn [app localStorage].
  rewrite Hr, parse_stringify_results, Ht, parse_stringify_total.
  cbn [orb]. unfold saveEffect. cbn.
  repeat split. rewrite lookup_insert_ne by discriminate. apply lookup_insert_eq.
Qed.

(** ** The processing pipeline *)

Lemma nth_error_lookup {A} (l : list A) (i : nat) : nth_error l i = l !! i.
Proof.
  revert i. induction l as [|x l IH]; intros [|i]; cbn; auto.
Qed.

Lemma imap_update_alter {A} (g : A → A) (i : nat) (l : list A) :
  imap (fun j f => if (j =? i)%nat then g f else f) l = alter g i l.
Proof.
  apply list_eq. intros j. rewrite list_lookup_imap, list_lookup_alter.
  destruct (Nat.eqb_spec j i) as [->|Hne].
  - rewrite decide_True by reflexivity. reflexivity.
  - rewrite decide_False by congruence. now destruct (l !! j).
Qed.

Lemma shown_facts (g : OMRFile.t → OMRFile.t) (i : nat) (pf : list OMRFile.t) :
  (∀ f, OMRFile.id (g f) = OMRFile.id f) →
  let pf' := imap (fun j f => if (j =? i)%nat then g f else f) pf in
  length pf' = length pf ∧
  map OMRFile.id pf' = map OMRFile.id pf ∧
  take i pf' = take i pf ∧
  (∀ f, pf !! i = Some f → take (S i) pf' = take i pf ++ [g f]).
Proof.
  intros Hg pf'. subst pf'. rewrite imap_update_alter.
  split; [apply length_alter|]. split.
  { apply list_eq. intros j. change (map OMRFile.id) with (fmap (M:=list) OMRFile.id).
    rewrite !list_lookup_fmap, list_lookup_alter.
    destruct (decide (i = j)) as [->|]; [|reflexivity].
    destruct (pf !! j); cbn; [now rewrite Hg|reflexivity]. }
  split; [apply take_alter_ge; lia|].
  intros f Hf. rewrite (take_S_r _ _ (g f)).
  - now rewrite take_alter_ge by lia.
  - rewrite list_lookup_alter, decide_True by reflexivity. now rewrite Hf.
Qed.

Lemma completed_snoc l f :
  completed (l ++ [f])
  = completed l ++ (if Dashboard.is_complete (OMRFile.status f) then [(length l, f)] else []).
Proof.
  unfold completed. rewrite imap_app, List.filter_app. cbn [imap List.filter snd].
  now rewrite Nat.add_0_r.
Qed.

Lemma RunInv_init env fs : RunInv env (Dashboard.init fs).
Proof.
  unfold RunInv, Dashboard.init. cbn. split; [reflexivity|]. split; [reflexivity|].
  exists 0%nat. unfold phase_ok. cbn. repeat split; [lia|constructor|constructor].
Qed.

Lemma with_status_id s p f : OMRFile.id (Dashboard.with_status s p f) = OMRFile.id f.
Proof. reflexivity. Qed.

Lemma RunInv_continue env d i st c p s :
  RunInv env d →
  Dashboard.task d = Dashboard.CallUpdateProgress i st c p ∨
  Dashboard.task d = Dashboard.CallProcessFile i →
  ∀ idx, phase_ok d idx → idx = i →
  (i < length (Dashboard.files d))%nat →
  ∀ st' c' p' k' shown,
    (st' = Dashboard.errorStages ∨ st' = Dashboard.okStages) →
    (c' < length st' - 1)%nat →
    shown = Dashboard.processedFiles d ∨
    shown = imap (fun j f => if (j =? i)%nat then Dashboard.with_status s p' f else f)
                 (Dashboard.processedFiles d) →
    Dashboard.delivered d = None →
    RunInv env (Dashboard.mk (Dashboard.files d) shown (Dashboard.generatedResults d)
                  (Dashboard.CallUpdateProgress i st' c' p') k'
                  (S (Dashboard.tick d)) (Dashboard.delivered d)).
Proof.
  intros (Hlen & Hids & idx0 & Hph0 & Hdone & Hgen) Ht idx Hph -> Hlt
         st' c' p' k' shown Hst Hc Hshown Hdel.
  assert (idx0 = i) as ->.
  { unfold phase_ok in Hph0. destruct Ht as [Ht|Ht]; rewrite Ht in Hph0; tauto. }
  pose proof (shown_facts (Dashboard.with_status s p') i (Dashboard.processedFiles d)
                (with_status_id s p')) as (Hl' & Hi' & Ht' & _).
  unfold RunInv. cbn [Dashboard.files Dashboard.processedFiles Dashboard.generatedResults].
  destruct Hshown as [->| ->].
  - split; [exact Hlen|]. split; [exact Hids|]. exists i. unfold phase_ok. cbn.
    repeat split; auto.
  - split; [congruence|]. split; [congruence|]. exists i. unfold phase_ok. cbn.
    rewrite Ht'. repeat split; auto.
Qed.

Lemma RunInv_file_done env d i st c p s p' :
  RunInv env d →
  Dashboard.task d = Dashboard.CallUpdateProgress i st c p →
  (i < length (Dashboard.files d))%nat →
  ∀ gen' k',
    let shown := imap (fun j f => if (j =? i)%nat then Dashboard.with_status s p' f else f)
                      (Dashboard.processedFiles d) in
    Dashboard.is_complete s || Dashboard.is_error s = true →
    (if Dashboard.is_complete s
     then ∃ f0 k t, nth_error (Dashboard.files d) i = Some f0 ∧
            gen' = Dashboard.generatedResults d
                   ++ [fst (generateMockResult (Dashboard.clock env t) f0 (Z.of_nat i)
                                               (Dashboard.draws env) k)]
     else gen' = Dashboard.generatedResults d) →
    Dashboard.delivered d = None →
    RunInv env (Dashboard.mk (Dashboard.files d) shown gen'
                  (Dashboard.CallProcessFile (S i)) k'
                  (S (Dashboard.tick d)) (Dashboard.delivered d)).
Proof.
  intros (Hlen & Hids & idx0 & Hph0 & Hdone & Hgen) Ht Hlt gen' k' shown Hterm Hg Hdel.
  assert (idx0 = i) as ->.
  { unfold phase_ok in Hph0. rewrite Ht in Hph0. tauto. }
  pose proof (shown_facts (Dashboard.with_status s p') i (Dashboard.processedFiles d)
                (with_status_id s p')) as (Hl' & Hi' & Ht' & HS').
  fold shown in Hl', Hi', Ht', HS'.
  destruct (lookup_lt_is_Some_2 (Dashboard.processedFiles d) i) as [f Hf]; [lia|].
  specialize (HS' f Hf).
  unfold RunInv. cbn [Dashboard.files Dashboard.processedFiles Dashboard.generatedResults].
  split; [congruence|]. split; [congruence|]. exists (S i). unfold phase_ok. cbn.
  split; [repeat split; [lia|assumption]|].
  rewrite HS'. split.
  - apply Forall_app. split; [exact Hdone|]. constructor; [|constructor].
    unfold terminal. cbn. exact Hterm.
  - rewrite completed_snoc. cbn [Dashboard.with_status OMRFile.status].
    destruct (Dashboard.is_complete s).
    + destruct Hg as (f0 & k & t & Hf0 & ->).
      apply Forall2_app; [exact Hgen|]. constructor; [|constructor].
      exists f0, k, t. cbn [fst snd]. rewrite length_take_le by lia.
      split; [exact Hf0|]. split; [|reflexivity].
      cbn [Dashboard.with_status OMRFile.id].
      assert (Hid : map OMRFile.id (Dashboard.processedFiles d) !! i
                    = map OMRFile.id (Dashboard.files d) !! i) by now rewrite Hids.
      change (map OMRFile.id) with (fmap (M:=list) OMRFile.id) in Hid.
      rewrite !list_lookup_fmap, Hf in Hid.
      rewrite <- (nth_error_lookup (Dashboard.files d)), Hf0 in Hid. cbn in Hid. congruence.
    + subst gen'. rewrite app_nil_r. exact Hgen.
Qed.

Lemma RunInv_updateProgress env d i st c p :
  RunInv env d →
  Dashboard.task d = Dashboard.CallUpdateProgress i st c p →
  RunInv env (Dashboard.updateProgress env i st c p d).
Proof.
  intros HI Ht.
  assert (Hph : (i < length (Dashboard.files d))%nat ∧
                (st = Dashboard.errorStages ∨ st = Dashboard.okStages) ∧
                (c < length st - 1)%nat ∧ Dashboard.delivered d = None).
  { destruct HI as (_ & _ & idx & Hph & _). unfold phase_ok in Hph.
    rewrite Ht in Hph. tauto. }
  destruct Hph as (Hlt & Hst & Hc & Hdel).
  assert (Hidx : ∃ idx, phase_ok d idx ∧ idx = i).
  { destruct HI as (_ & _ & idx & Hph & _). exists idx. split; [exact Hph|].
    unfold phase_ok in Hph. rewrite Ht in Hph. tauto. }
  destruct Hidx as (idx & Hph & Hidx).
  destruct (nth_error (Dashboard.files d) i) as [f0|] eqn:Hf0;
    [|apply nth_error_None in Hf0; lia].
  unfold Dashboard.updateProgress.
  destruct (Qle_bool 100 (p + Dashboard.draws env (Dashboard.cursor d) * 15)) eqn:Hfull;
    destruct Hst as [-> | ->]; unfold Dashboard.errorStages, Dashboard.okStages in *;
    cbn [length Nat.sub] in Hc;
    (destruct c as [|[|[|c]]]; try lia);
    cbn [length Nat.sub Nat.ltb Nat.leb nth Dashboard.is_complete Dashboard.is_error orb];
    rewrite ?Hf0;
    try (destruct (generateMockResult _ _ _ _ _) as [r k2] eqn:Hr);
    first
      [ eapply (RunInv_continue env d i _ _ _ _ HI (or_introl Ht) idx Hph Hidx Hlt);
        [auto | cbn [length Nat.sub]; lia | right; reflexivity | exact Hdel]
      | eapply (RunInv_file_done env d i _ _ _ _ _ HI Ht Hlt);
        [ reflexivity | reflexivity | exact Hdel ]
      | eapply (RunInv_file_done env d i _ _ _ _ _ HI Ht Hlt);
        [ reflexivity
        | exists f0; do 2 eexists; split; [exact Hf0|];
          match goal with H : generateMockResult _ _ _ _ _ = _ |- _ => rewrite H end;
          reflexivity
        | exact Hdel ] ].
Qed.

Lemma RunInv_step env d : RunInv env d → RunInv env (Dashboard.step env d).
Proof.
  intros HI. unfold Dashboard.step.
  destruct (Dashboard.task d) as [i|i st c p| |] eqn:Ht.
  - destruct HI as (Hlen & Hids & idx & Hph & Hdone & Hgen).
    pose proof Hph as Hph'. unfold phase_ok in Hph'. rewrite Ht in Hph'.
    destruct Hph' as (-> & Hle & Hdel).
    unfold Dashboard.processFile.
    destruct (Nat.leb_spec (length (Dashboard.files d)) i) as [Hge|Hlt].
    + unfold RunInv. cbn. split; [exact Hlen|]. split; [exact Hids|].
      exists i. unfold phase_ok. cbn. repeat split; auto. lia.
    + assert (HI : RunInv env d) by (unfold RunInv; eauto 10).
      eapply (RunInv_continue env d i [] 0%nat 0%Q pending HI (or_intror Ht) i Hph
                eq_refl Hlt);
        [destruct (Qltb _ _); auto | destruct (Qltb _ _); cbn; lia
        | left; reflexivity | exact Hdel].
  - now apply RunInv_updateProgress.
  - destruct HI as (Hlen & Hids & idx & Hph & Hdone & Hgen).
    unfold phase_ok in Hph. rewrite Ht in Hph. destruct Hph as (-> & Hdel).
    unfold RunInv. cbn. split; [exact Hlen|]. split; [exact Hids|].
    exists (length (Dashboard.files d)). unfold phase_ok. cbn. auto.
  - exact HI.
Qed.

Lemma run_S env n d :
  Dashboard.run env (S n) d = Dashboard.step env (Dashboard.run env n d).
Proof. reflexivity. Qed.

Lemma RunInv_run env fs n : RunInv env (Dashboard.run env n (Dashboard.init fs)).
Proof.
  induction n as [|n IH]; [apply RunInv_init|].
  rewrite run_S. now apply RunInv_step.
Qed.

Lemma step_files env d : Dashboard.files (Dashboard.step env d) = Dashboard.files d.
Proof.
  unfold Dashboard.step. destruct (Dashboard.task d) as [i|i st c p| |]; try reflexivity.
  - unfold Dashboard.processFile. now destruct (_ <=? _)%nat.
  - unfold Dashboard.updateProgress. repeat case_match; reflexivity.
Qed.

Lemma run_files env n fs :
  Dashboard.files (Dashboard.run env n (Dashboard.init fs))
  = map (fun f => Dashboard.with_status uploading (OMRFile.progress f) f) fs.
Proof.
  induction n as [|n IH]; [reflexivity|]. now rewrite run_S, step_files.
Qed.

Lemma filter_imap_snd {A} (P : A → bool) (g : nat → nat) (l : list A) :
  map snd (List.filter (fun jf => P (snd jf)) (imap (fun j f => (g j, f)) l))
  = List.filter P l.
Proof.
  revert g. induction l as [|x l IH]; intros g; [reflexivity|].
  rewrite imap_cons. cbn [List.filter snd].
  destruct (P x); cbn [map snd]; [f_equal|]; apply (IH (g ∘ S)).
Qed.

Lemma completed_files pf :
  map snd (completed pf)
  = List.filter (fun f => Dashboard.is_complete (OMRFile.status f)) pf.
Proof.
  exact (filter_imap_snd (fun f => Dashboard.is_complete (OMRFile.status f))
                         (fun j => j) pf).
Qed.

Lemma generated_id now file index rng k :
  id (fst (generateMockResult now file index rng k)) = OMRFile.id file.
Proof.
  destruct (generateMockResult_blocks now file index rng k)
    as (b0 & b1 & b2 & b3 & b4 & r & _ & _ & _ & _ & _ & Hr & Hid & _).
  now rewrite Hr.
Qed.

Lemma generated_ids env fs jfs rs :
  Forall2 (GeneratedFor env fs) jfs rs →
  map id rs = map OMRFile.id (map snd jfs).
Proof.
  induction 1 as [|jf r jfs rs (f0 & k & t & _ & Hid & ->) _ IH]; [reflexivity|].
  cbn [map]. now rewrite IH, generated_id, Hid.
Qed.

(** C10. A run of the pipeline that has called the completion callback has
    brought every file to 'complete' or 'error'; the callback received
    exactly one generated result for each file that reached 'complete', in
    queue order, and none for a file that reached 'error'; the handler
    appended them to the existing results and raised the counter by the
    number of completed files. *)
Theorem processing_run_results
    (env : Dashboard.Env) (fs : list OMRFile.t) (n : nat)
    (rs : list StudentResult) (p : Page) :
  Dashboard.delivered (Dashboard.run env n (Dashboard.init fs)) = Some rs →
  let d := Dashboard.run env n (Dashboard.init fs) in
  let queue := Dashboard.processedFiles d in
  let done := List.filter (fun f => Dashboard.is_complete (OMRFile.status f)) queue in
  map OMRFile.id queue = map OMRFile.id fs ∧
  Forall (fun f => OMRFile.status f = complete ∨ OMRFile.status f = error) queue ∧
  Forall2 (GeneratedFor env (Dashboard.files d)) (completed queue) rs ∧
  map id rs = map OMRFile.id done ∧
  studentResults (app (handleProcessingComplete rs p)) = studentResults (app p) ++ rs ∧
  totalProcessed (app (handleProcessingComplete rs p))
  = totalProcessed (app p) + Z.of_nat (length done).
Proof.
  intros Hdel d queue done.
  destruct (RunInv_run env fs n) as (Hlen & Hids & idx & Hph & Hterm & Hgen).
  fold d in Hlen, Hids, Hph, Hterm, Hgen. fold queue in Hlen, Hids, Hterm, Hgen.
  assert (Hfin : idx = length (Dashboard.files d) ∧ rs = Dashboard.generatedResults d).
  { unfold phase_ok in Hph. fold d in Hdel.
    destruct (Dashboard.task d); rewrite Hdel in Hph;
      [destruct Hph as (_ & _ & ?)|destruct Hph as (_ & _ & _ & _ & ?)
      |destruct Hph as (_ & ?)|]; try discriminate.
    destruct Hph as (-> & Heq). split; congruence. }
  destruct Hfin as (-> & ->).
  rewrite take_ge in Hterm, Hgen by lia.
  assert (Hmap : map id (Dashboard.generatedResults d) = map OMRFile.id done).
  { rewrite (generated_ids _ _ _ _ Hgen). unfold done. now rewrite completed_files. }
  split.
  { rewrite Hids. unfold d. rewrite run_files, map_map. now apply map_ext. }
  split.
  { eapply Forall_impl; [exact Hterm|]. intros f. unfold terminal.
    destruct (OMRFile.status f); cbn; intros; auto; discriminate. }
  split; [exact Hgen|]. split; [exact Hmap|].
  assert (Hn : length (Dashboard.generatedResults d) = length done).
  { rewrite <- (length_map id), Hmap. apply length_map. }
  unfold handleProcessingComplete, update, saveEffect. cbn [app].
  destruct (isInitialMount _); cbn; rewrite Hn; split; reflexivity.
Qed.

(** *** A sample run: three files, the second of which fails *)

Lemma processing_run_results_witness :
  Dashboard.delivered (Dashboard.run sample_env 80 (Dashboard.init sample_files))
  = Some sample_results ∧
  map OMRFile.status (Dashboard.processedFiles sample_run) = [complete; error; complete] ∧
  map id sample_results
  = ["sheet1.png-1793600000000-0.11"; "sheet3.png-1793600000002-0.33"]%string ∧
  totalProcessed (app (handleProcessingComplete sample_results (mount ∅))) = 2.
Proof.
  assert (Hrun : Dashboard.delivered
                   (Dashboard.run sample_env 80 (Dashboard.init sample_files))
                 = Some sample_results) by (vm_compute; reflexivity).
  destruct (processing_run_results sample_env sample_files 80 sample_results
              (mount ∅) Hrun) as (_ & _ & _ & Hids & _ & Htotal).
  split; [exact Hrun|]. split; [vm_compute; reflexivity|]. split.
  - rewrite Hids. vm_compute. reflexivity.
  - rewrite Htotal. vm_compute. reflexivity.
Defined.

(** ** Reachable states *)

Lemma Qltb_lt (a b : Q) : Qltb a b = true ↔ (a < b)%Q.
Proof.
  unfold Qltb. rewrite negb_true_iff. split.
  - intros H. apply Qnot_le_lt. intros Hle.
    apply Qle_bool_iff in Hle. congruence.
  - intros H. destruct (Qle_bool b a) eqn:E; [|reflexivity].
    apply Qle_bool_iff in E. exfalso. eapply Qlt_not_le; eassumption.
Qed.

Lemma generated_review now file index rng k :
  let r := fst (generateMockResult now file index rng k) in
  (status r = NeedsReview ↔ (confidence r < 9 # 10)%Q) ∧ is_DateObj r.
Proof.
  destruct (generateMockResult_blocks now file index rng k)
    as (b0 & b1 & b2 & b3 & b4 & r & _ & _ & _ & _ & _ & Hr & _ & _ & _ & _ & Hst & Hd).
  rewrite Hr. cbn [fst]. split; [|exact Hd].
  rewrite Hst, <- Qltb_lt. destruct (Qltb _ _); split; congruence.
Qed.

Lemma GeneratedFor_generated env fs jfs rs :
  Forall2 (GeneratedFor env fs) jfs rs →
  Forall (fun r => ∃ now file index rng k,
                     r = fst (generateMockResult now file index rng k)) rs.
Proof.
  induction 1 as [|jf r jfs rs (f0 & k & t & _ & _ & ->) _ IH];
    [constructor|constructor; [eauto 10|exact IH]].
Qed.

Lemma delivered_generated env fs n rs :
  Dashboard.delivered (Dashboard.run env n (Dashboard.init fs)) = Some rs →
  Forall (fun r => ∃ now file index rng k,
                     r = fst (generateMockResult now file index rng k)) rs.
Proof.
  intros Hdel.
  destruct (RunInv_run env fs n) as (_ & _ & idx & Hph & _ & Hgen).
  assert (rs = Dashboard.generatedResults
                 (Dashboard.run env n (Dashboard.init fs))) as ->.
  { unfold phase_ok in Hph.
    destruct (Dashboard.task _); rewrite Hdel in Hph;
      [destruct Hph as (_ & _ & ?)|destruct Hph as (_ & _ & _ & _ & ?)
      |destruct Hph as (_ & ?)|destruct Hph as (_ & ?)]; congruence. }
  eapply GeneratedFor_generated; eassumption.
Qed.

Lemma review_ok_approve r : review_ok (approve r).
Proof. unfold review_ok. cbn. discriminate. Qed.

Lemma review_ok_reparsed r : review_ok r → review_ok (reparsed r).
Proof. unfold review_ok. now destruct r. Qed.

Lemma layered_map (g : StudentResult → StudentResult) l :
  (∀ r, processingDate (g r) = processingDate r) → layered l → layered (map g l).
Proof.
  intros Hg (l1 & l2 & -> & H1 & H2). exists (map g l1), (map g l2).
  rewrite map_app. split; [reflexivity|].
  split; apply List.Forall_map; (eapply Forall_impl; [eassumption|]);
    intros r [x Hx]; exists x; now rewrite Hg.
Qed.

Lemma Forall_filter_bool {A} (P : A → Prop) (f : A → bool) l :
  Forall P l → Forall P (List.filter f l).
Proof.
  rewrite !List.Forall_forall. intros H x Hx. apply List.filter_In in Hx.
  apply H, Hx.
Qed.

Lemma layered_filter (P : StudentResult → bool) l :
  layered l → layered (List.filter P l).
Proof.
  intros (l1 & l2 & -> & H1 & H2). exists (List.filter P l1), (List.filter P l2).
  rewrite List.filter_app. split; [reflexivity|].
  split; apply Forall_filter_bool; assumption.
Qed.

Lemma layered_app_objs l rs : layered l → Forall is_DateObj rs → layered (l ++ rs).
Proof.
  intros (l1 & l2 & -> & H1 & H2) Hrs. exists l1, (l2 ++ rs).
  rewrite <- app_assoc. split; [reflexivity|]. split; [exact H1|].
  apply Forall_app. split; assumption.
Qed.

Lemma is_DateStr_reparsed r : date_wf r → is_DateStr (reparsed r).
Proof.
  unfold is_DateStr, is_DateObj. intros [[t Ht]|[t Ht]]; exists t;
    destruct r as [? ? ? ? ? ? ? ? ? pd]; cbn in *; now subst pd.
Qed.

Lemma layered_reparsed l : Forall date_wf l → layered (map reparsed l).
Proof.
  intros Hl. exists (map reparsed l), []. rewrite app_nil_r. split; [reflexivity|].
  split; [|constructor]. apply List.Forall_map.
  eapply Forall_impl; [exact Hl|]. apply is_DateStr_reparsed.
Qed.

Lemma layered_wf l : layered l → Forall date_wf l.
Proof.
  intros (l1 & l2 & -> & H1 & H2). apply Forall_app. split.
  - eapply Forall_impl; [exact H1|]. intros r Hr. now left.
  - eapply Forall_impl; [exact H2|]. intros r Hr. now right.
Qed.

Lemma approve_date r : processingDate (approve r) = processingDate r.
Proof. reflexivity. Qed.

Lemma mount_fresh storage :
  storage !! "studentResults"%string = None →
  storage !! "totalProcessed"%string = None →
  mount storage
  = {| app := {| view := upload; omrFiles := []; studentResults := [];
                 totalProcessed := 0; isInitialMount := false |};
       localStorage := storage |}.
Proof.
  intros Hr Ht. unfold mount, loadEffect. cbn [app localStorage].
  now rewrite Hr, Ht.
Qed.

Lemma mount_total storage l n :
  storage !! "studentResults"%string = Some (JSON.stringify_results l) →
  storage !! "totalProcessed"%string = Some (JSON.stringify_total n) →
  localStorage (mount storage) !! "totalProcessed"%string
  = Some (JSON.stringify_total n).
Proof.
  intros Hr Ht. unfold mount, loadEffect. cbn [app localStorage].
  rewrite Hr, parse_stringify_results, Ht, parse_stringify_total.
  cbn [orb]. unfold saveEffect. cbn. apply lookup_insert_eq.
Qed.

Lemma layered_nil : layered [].
Proof. exists [], []. repeat split; constructor. Qed.

Lemma PageInv_mount storage : stored_ok storage → PageInv (mount storage).
Proof.
  intros [[Hr Ht]|(l & n & Hr & Ht & Hl & Hwf)].
  - rewrite (mount_fresh _ Hr Ht). unfold PageInv. cbn.
    repeat split; [constructor|apply layered_nil|left; auto].
  - destruct (mount_loads storage l n Hr Ht) as (Hres & Htot & Hm & Hst).
    unfold PageInv. rewrite Hres. split; [exact Hm|].
    assert (Hok : Forall review_ok (map reparsed l)).
    { apply List.Forall_map. eapply Forall_impl; [exact Hl|].
      apply review_ok_reparsed. }
    split; [exact Hok|]. split; [now apply layered_reparsed|].
    right. exists (map reparsed l), n. split; [exact Hst|].
    split; [eapply mount_total; eassumption|]. split; [exact Hok|].
    now apply layered_wf, layered_reparsed.
Qed.

Lemma PageInv_update f p :
  PageInv p →
  (∀ a, isInitialMount (f a) = isInitialMount a) →
  Forall review_ok (studentResults (f (app p))) →
  layered (studentResults (f (app p))) →
  PageInv (update f p).
Proof.
  intros (Hm & _ & _ & _) Hf Hok Hlay.
  destruct (update_stores f p Hm Hf) as (Happ & Hr & Ht).
  unfold PageInv. rewrite Happ in *. rewrite Hf.
  split; [exact Hm|]. split; [exact Hok|]. split; [exact Hlay|].
  right. do 2 eexists. split; [exact Hr|]. split; [exact Ht|].
  split; [exact Hok|]. now apply layered_wf.
Qed.

Lemma PageInv_step p q : PageInv p → Step p q → PageInv q.
Proof.
  intros HI Hs. pose proof HI as (Hm & Hok & Hlay & Hst).
  destruct Hs as [p|fs p|env fs n rs p Hdel|i p|ids p|ids p|v p].
  - now apply PageInv_mount.
  - exact HI.
  - pose proof (delivered_generated _ _ _ _ Hdel) as Hgen.
    apply PageInv_update; [exact HI|reflexivity| |]; cbn.
    + apply Forall_app. split; [exact Hok|].
      eapply Forall_impl; [exact Hgen|].
      intros r (now & file & index & rng & k & ->).
      intros H. now apply generated_review.
    + apply layered_app_objs; [exact Hlay|].
      eapply Forall_impl; [exact Hgen|].
      intros r (now & file & index & rng & k & ->). apply generated_review.
  - apply PageInv_update; [exact HI|reflexivity| |]; cbn.
    + unfold approveResult. apply List.Forall_map.
      eapply Forall_impl; [exact Hok|]. intros r Hr.
      destruct (String.eqb _ _); [apply review_ok_approve|exact Hr].
    + unfold approveResult. apply layered_map; [|exact Hlay].
      intros r. now destruct (String.eqb _ _).
  - apply PageInv_update; [exact HI|reflexivity| |]; cbn.
    + unfold approveResults. apply List.Forall_map.
      eapply Forall_impl; [exact Hok|]. intros r Hr.
      destruct (decide _); [apply review_ok_approve|exact Hr].
    + unfold approveResults. apply layered_map; [|exact Hlay].
      intros r. now destruct (decide _).
  - apply PageInv_update; [exact HI|reflexivity| |]; cbn.
    + now apply Forall_filter_bool.
    + now apply layered_filter.
  - exact HI.
Qed.

Lemma Reachable_PageInv p : Reachable p → PageInv p.
Proof.
  induction 1 as [|p q _ IH Hs].
  - apply PageInv_mount. left. split; apply lookup_empty.
  - eapply PageInv_step; eassumption.
Qed.

(** C9. In every reachable state a result whose status is 'Needs Review'
    has confidence strictly below 0.9.  Generation establishes it: a
    generated result is under review exactly when its confidence is below
    0.9.  Approving sets status and confidence together, so an approved
    result is 'Complete' with confidence 1, and the state after either
    approve handler is reachable and satisfies the property again. *)
Theorem needs_review_has_low_confidence (p : Page) :
  Reachable p →
  (∀ r, In r (studentResults (app p)) →
        status r = NeedsReview → (confidence r < 9 # 10)%Q) ∧
  (∀ now file index rng k,
     let r := fst (generateMockResult now file index rng k) in
     status r = NeedsReview ↔ (confidence r < 9 # 10)%Q) ∧
  (∀ r, status (approve r) = Complete ∧ confidence (approve r) = 1%Q) ∧
  (∀ resultId r,
     In r (studentResults (app (handleApproveResult resultId p))) →
     status r = NeedsReview → (confidence r < 9 # 10)%Q) ∧
  (∀ resultIds r,
     In r (studentResults (app (handleApproveResults resultIds p))) →
     status r = NeedsReview → (confidence r < 9 # 10)%Q).
Proof.
  intros HR.
  assert (Hall : ∀ q, Reachable q → ∀ r, In r (studentResults (app q)) →
                      status r = NeedsReview → (confidence r < 9 # 10)%Q).
  { intros q Hq r Hin. destruct (Reachable_PageInv q Hq) as (_ & Hok & _).
    rewrite List.Forall_forall in Hok. now apply Hok. }
  split; [now apply Hall|].
  split; [intros now file index rng k; apply generated_review|].
  split; [intros r; split; reflexivity|].
  split.
  - intros i. apply Hall. eapply Reachable_step; [exact HR|constructor].
  - intros ids. apply Hall. eapply Reachable_step; [exact HR|constructor].
Qed.

Lemma sample_page_Reachable : Reachable sample_page.
Proof.
  eapply Reachable_step; [apply Reachable_open|].
  apply (Step_processingComplete sample_env sample_files 80).
  vm_compute. reflexivity.
Defined.

Lemma needs_review_has_low_confidence_witness :
  Reachable sample_page ∧
  ∀ r, In r (studentResults (app sample_page)) →
       status r = NeedsReview → (confidence r < 9 # 10)%Q.
Proof.
  split; [exact sample_page_Reachable|].
  exact (proj1 (needs_review_has_low_confidence sample_page sample_page_Reachable)).
Defined.

(** ** An ISO date string is not a numeric literal *)

Lemma digit_char_Digit n : Digit (Str.digit_char n).
Proof.
  unfold Str.digit_char. pose proof (Z.mod_pos_bound n 10 eq_refl) as Hb.
  assert (H : n mod 10 = 0 ∨ n mod 10 = 1 ∨ n mod 10 = 2 ∨ n mod 10 = 3 ∨
              n mod 10 = 4 ∨ n mod 10 = 5 ∨ n mod 10 = 6 ∨ n mod 10 = 7 ∨
              n mod 10 = 8 ∨ n mod 10 = 9) by lia.
  unfold Digit.
  repeat (destruct H as [->|H]; [cbn; tauto|]). rewrite H. cbn; tauto.
Qed.

Ltac digit_cases H :=
  unfold Digit in H; cbn [In] in H;
  repeat (destruct H as [<-|H]; [reflexivity|]); destruct H.

Lemma Digit_not_space c : Digit c → Js.is_space c = false.
Proof. intros H. digit_cases H. Qed.

Lemma Digit_radix c : Digit c → Js.radix_digit 10 c ≠ None.
Proof.
  intros H. unfold Digit in H; cbn [In] in H.
  repeat (destruct H as [<-|H]; [discriminate|]). destruct H.
Qed.

Lemma Digit_not_mark c :
  Digit c →
  Ascii.eqb c "-" = false ∧ Ascii.eqb c "+" = false ∧ Ascii.eqb c "I" = false ∧
  Ascii.eqb c "x" = false ∧ Ascii.eqb c "X" = false ∧ Ascii.eqb c "o" = false ∧
  Ascii.eqb c "O" = false ∧ Ascii.eqb c "b" = false ∧ Ascii.eqb c "B" = false.
Proof.
  intros H. unfold Digit in H; cbn [In] in H.
  repeat (destruct H as [<-|H]; [repeat split; reflexivity|]). destruct H.
Qed.

Lemma trimEnd_id s : ends_nonspace s = true → Js.trimEnd s = s.
Proof.
  induction s as [|c s IH]; [discriminate|]. cbn [ends_nonspace Js.trimEnd].
  destruct s as [|c' s'].
  - cbn. intros H. apply negb_true_iff in H. now rewrite H.
  - intros H. now rewrite (IH H).
Qed.

Lemma ends_nonspace_cons c s : ends_nonspace s = true → ends_nonspace (String c s) = true.
Proof. destruct s; [discriminate|]. auto. Qed.

Lemma ends_nonspace_app a b :
  ends_nonspace b = true → ends_nonspace (a ++ b)%string = true.
Proof.
  intros Hb. induction a as [|c a IH]; [exact Hb|].
  cbn [String.append]. now apply ends_nonspace_cons.
Qed.

Lemma radix_digit_zero c : Js.radix_digit 0 c = None.
Proof.
  unfold Js.radix_digit.
  set (n := Z.of_nat (nat_of_ascii c)).
  destruct ((48 <=? n) && (n <=? 57)) eqn:E1;
    [|destruct ((97 <=? n) && (n <=? 102)) eqn:E2;
      [|destruct ((65 <=? n) && (n <=? 70)) eqn:E3]];
    try (apply andb_true_iff in E1; destruct E1 as [E1 _]; apply Z.leb_le in E1);
    try (apply andb_true_iff in E2; destruct E2 as [E2 _]; apply Z.leb_le in E2);
    try (apply andb_true_iff in E3; destruct E3 as [E3 _]; apply Z.leb_le in E3);
    match goal with |- context [(?v <? 0)] => destruct (Z.ltb_spec v 0) end;
    try reflexivity; lia.
Qed.

Lemma digits_zero_radix acc len s : Js.digits 0 acc len s = (acc, len, s).
Proof.
  destruct s as [|c s]; [reflexivity|]. cbn [Js.digits].
  now rewrite radix_digit_zero.
Qed.

Lemma non_decimal_digit c p s : Digit p → Js.non_decimal (String c (String p s)) = None.
Proof.
  intros Hp. destruct (Digit_not_mark p Hp) as (_ & _ & _ & Hx & HX & Ho & HO & Hb & HB).
  unfold Js.non_decimal. rewrite Hx, HX, Ho, HO, Hb, HB. cbn [orb].
  rewrite digits_zero_radix. now destruct (Ascii.eqb c "0").
Qed.

(** After a run of digits and a hyphen nothing numeric can follow. *)
Lemma unsigned_decimal_hyphen ds rest :
  Forall Digit ds → ds ≠ [] →
  Js.unsigned_decimal (string_of_list_ascii ds ++ String "-" rest) = None.
Proof.
  intros Hds Hne. unfold Js.unsigned_decimal.
  assert (Hrun : ∀ acc len, ∃ v,
             Js.digits 10 acc len (string_of_list_ascii ds ++ String "-" rest)
             = (v, (len + length ds)%nat, String "-" rest)).
  { clear Hne. induction Hds as [|c ds Hc _ IH]; intros acc len.
    - exists acc. cbn. now rewrite Nat.add_0_r.
    - cbn [string_of_list_ascii].
      change (String c (string_of_list_ascii ds) ++ String "-" rest)%string
        with (String c (string_of_list_ascii ds ++ String "-" rest))%string.
      cbn [Js.digits].
      destruct (Js.radix_digit 10 c) as [v|] eqn:Hv; [|now apply Digit_radix in Hc].
      cbv iota beta. destruct (IH (10 * acc + v) (S len)) as (v' & ->). exists v'.
      cbn [length]. do 2 f_equal. lia. }
  destruct (Hrun 0 0%nat) as (v & ->). cbn [Ascii.eqb Bool.eqb].
  destruct ds as [|c ds]; [congruence|]. reflexivity.
Qed.

Lemma append_assoc (a b c : string) : ((a ++ b) ++ c = a ++ (b ++ c))%string.
Proof.
  induction a as [|x a IH]; [reflexivity|].
  change (String x ((a ++ b) ++ c) = String x (a ++ (b ++ c)))%string.
  now rewrite IH.
Qed.

Lemma append_empty_r (a : string) : (a ++ "")%string = a.
Proof.
  induction a as [|x a IH]; [reflexivity|].
  change (String x (a ++ "") = String x a)%string. now rewrite IH.
Qed.

Lemma string_of_list_ascii_snoc ds c :
  string_of_list_ascii (ds ++ [c]) = (string_of_list_ascii ds ++ String c "")%string.
Proof.
  induction ds as [|d ds IH]; [reflexivity|].
  change (String d (string_of_list_ascii (ds ++ [c]))
          = String d (string_of_list_ascii ds ++ String c ""))%string.
  now rewrite IH.
Qed.

Lemma pad_digits_list w : ∀ n acc,
  ∃ ds, length ds = w ∧ Forall Digit ds ∧
        Str.pad_digits w n acc = (string_of_list_ascii ds ++ acc)%string.
Proof.
  induction w as [|w IH]; intros n acc.
  - exists []. repeat split. constructor.
  - cbn [Str.pad_digits].
    destruct (IH (n / 10) (String (Str.digit_char n) acc)) as (ds & Hl & Hd & ->).
    exists (ds ++ [Str.digit_char n]). split; [rewrite length_app; cbn; lia|].
    split.
    + apply Forall_app. split; [exact Hd|]. constructor; [|constructor].
      apply digit_char_Digit.
    + rewrite string_of_list_ascii_snoc, append_assoc. reflexivity.
Qed.

Lemma StringToNumber_digits_hyphen d1 d2 ds X :
  Forall Digit (d1 :: d2 :: ds) → ends_nonspace X = true →
  Js.StringToNumber (string_of_list_ascii (d1 :: d2 :: ds) ++ String "-" X) = NaN.
Proof.
  intros Hds HX.
  pose proof (Forall_inv Hds) as H1.
  pose proof (Forall_inv (Forall_inv_tail Hds)) as H2.
  destruct (Digit_not_mark d1 H1) as (Hm & Hp & HI & _).
  unfold Js.StringToNumber.
  set (whole := (string_of_list_ascii (d1 :: d2 :: ds) ++ String "-" X)%string).
  assert (Hw : whole = String d1 (String d2 (string_of_list_ascii ds ++ String "-" X)))
    by reflexivity.
  assert (Hts : Js.trimStart whole = whole).
  { rewrite Hw. cbn [Js.trimStart]. now rewrite (Digit_not_space d1 H1). }
  assert (Hte : Js.trimEnd whole = whole).
  { apply trimEnd_id. unfold whole. apply ends_nonspace_app.
    now apply ends_nonspace_cons. }
  rewrite Hts, Hte.
  assert (Hnd : Js.non_decimal whole = None).
  { rewrite Hw. now apply non_decimal_digit. }
  assert (Hsg : Js.sign whole = (false, whole)).
  { rewrite Hw. unfold Js.sign. now rewrite Hm, Hp. }
  assert (Hinf : String.eqb whole "Infinity" = false).
  { rewrite Hw. cbn [String.eqb]. now rewrite HI. }
  assert (Hud : Js.unsigned_decimal whole = None).
  { unfold whole. apply unsigned_decimal_hyphen; [exact Hds|discriminate]. }
  rewrite Hnd, Hsg, Hinf, Hud. now rewrite Hw.
Qed.

Lemma StringToNumber_signed_hyphen (neg : bool) d ds X :
  Forall Digit (d :: ds) → ends_nonspace X = true →
  Js.StringToNumber
    ((if neg then "-" else "+") ++ (string_of_list_ascii (d :: ds) ++ String "-" X))
  = NaN.
Proof.
  intros Hds HX.
  pose proof (Forall_inv Hds) as H1.
  destruct (Digit_not_mark d H1) as (_ & _ & HI & _).
  unfold Js.StringToNumber.
  set (body := (string_of_list_ascii (d :: ds) ++ String "-" X)%string).
  assert (Hb : body = String d (string_of_list_ascii ds ++ String "-" X)) by reflexivity.
  set (whole := ((if neg then "-" else "+") ++ body)%string).
  assert (Hw : whole = String (if neg then "-" else "+")%char body)
    by (unfold whole; now destruct neg).
  assert (Hts : Js.trimStart whole = whole).
  { rewrite Hw. cbn [Js.trimStart]. now destruct neg. }
  assert (Hte : Js.trimEnd whole = whole).
  { apply trimEnd_id. rewrite Hw. apply ends_nonspace_cons. unfold body.
    apply ends_nonspace_app. now apply ends_nonspace_cons. }
  rewrite Hts, Hte.
  assert (Hnd : Js.non_decimal whole = None).
  { rewrite Hw, Hb. unfold Js.non_decimal. now destruct neg. }
  assert (Hsg : Js.sign whole = (neg, body)).
  { rewrite Hw. unfold Js.sign. now destruct neg. }
  assert (Hinf : String.eqb body "Infinity" = false).
  { rewrite Hb. cbn [String.eqb]. now rewrite HI. }
  assert (Hud : Js.unsigned_decimal body = None).
  { unfold body. apply unsigned_decimal_hyphen; [exact Hds|discriminate]. }
  rewrite Hnd, Hsg, Hinf, Hud. rewrite Hw. now destruct neg.
Qed.

Lemma concat_cons2 x y l :
  String.concat "" (x :: y :: l) = (x ++ String.concat "" (y :: l))%string.
Proof. reflexivity. Qed.

(** ToNumber of what [toISOString] prints is NaN: compared with a Number,
    such a string is neither less nor greater. *)
Lemma StringToNumber_ISO t : Js.StringToNumber (DateTime.toISOString t) = NaN.
Proof.
  unfold DateTime.toISOString.
  destruct (DateTime.civil_from_days (t / DateTime.msPerDay)) as [[y m] d].
  rewrite concat_cons2, concat_cons2.
  set (X := String.concat "" (Str.padStart0 2 m :: _)).
  assert (HX : ends_nonspace X = true).
  { unfold X. repeat (rewrite concat_cons2; apply ends_nonspace_app). reflexivity. }
  change ("-" ++ X)%string with (String "-" X).
  unfold DateTime.iso_year.
  destruct ((0 <=? y) && (y <=? 9999)).
  - unfold Str.padStart0.
    destruct (pad_digits_list 4 y "") as (ds & Hl & Hd & ->).
    destruct ds as [|d1 [|d2 ds]]; try discriminate.
    rewrite append_empty_r.
    now apply StringToNumber_digits_hyphen.
  - unfold Str.padStart0.
    destruct (pad_digits_list 6 (Z.abs y) "") as (ds & Hl & Hd & ->).
    destruct ds as [|d1 ds]; try discriminate.
    rewrite append_empty_r.
    rewrite append_assoc.
    now apply (StringToNumber_signed_hyphen (y <? 0)).
Qed.

(** ** Sorting *)

Section SortFacts.

Context {A : Type} (cmp : A → A → Z).

Lemma sort_insert_perm x l : Permutation (Js.sort_insert cmp x l) (x :: l).
Proof.
  induction l as [|y l IH]; cbn [Js.sort_insert]; [reflexivity|].
  destruct (0 <? cmp x y); [|reflexivity].
  rewrite IH. apply perm_swap.
Qed.

Lemma sort_perm l : Permutation (Js.sort cmp l) l.
Proof.
  induction l as [|x l IH]; cbn [Js.sort]; [reflexivity|].
  rewrite sort_insert_perm. now constructor.
Qed.

Lemma sort_In l x : In x (Js.sort cmp l) ↔ In x l.
Proof.
  split; apply Permutation_in; [|symmetry]; apply sort_perm.
Qed.

Variable C : A → Prop.
Hypothesis precedes_total : ∀ a b, precedes cmp a b ∨ precedes cmp b a.
Hypothesis precedes_trans :
  ∀ a b c, C a → C b → C c → precedes cmp a b → precedes cmp b c → precedes cmp a c.

Lemma sort_insert_sorted x l :
  C x → Forall C l →
  StronglySorted (precedes cmp) l → StronglySorted (precedes cmp) (Js.sort_insert cmp x l).
Proof.
  intros Hx Hl Hs. induction Hs as [|y l Hs IH Hy]; cbn [Js.sort_insert].
  - repeat constructor.
  - pose proof (Forall_inv Hl) as HCy. pose proof (Forall_inv_tail Hl) as HCl.
    destruct (0 <? cmp x y) eqn:E.
    + constructor; [now apply IH|].
      apply List.Forall_forall. intros z Hz.
      apply (Permutation_in _ (sort_insert_perm x l)) in Hz.
      destruct Hz as [<-|Hz].
      * destruct (precedes_total y x) as [H|H]; [exact H|].
        unfold precedes in H. congruence.
      * rewrite List.Forall_forall in Hy. now apply Hy.
    + constructor; [now constructor|].
      constructor; [exact E|].
      rewrite List.Forall_forall in Hy, HCl |- *. intros z Hz.
      apply (precedes_trans x y z); auto.
Qed.

Lemma sort_sorted l : Forall C l → StronglySorted (precedes cmp) (Js.sort cmp l).
Proof.
  induction l as [|x l IH]; intros Hl; cbn [Js.sort]; [constructor|].
  apply sort_insert_sorted.
  - now apply Forall_inv in Hl.
  - apply Forall_inv_tail in Hl. rewrite List.Forall_forall in Hl |- *.
    intros y Hy. apply Hl. now apply sort_In.
  - apply IH. now apply Forall_inv_tail in Hl.
Qed.

End SortFacts.

Section SortBlocks.

Context {A : Type} (cmp : A → A → Z).

Lemma sort_insert_app x m1 m2 :
  (∀ y, In y m2 → precedes cmp x y) →
  Js.sort_insert cmp x (m1 ++ m2) = Js.sort_insert cmp x m1 ++ m2.
Proof.
  intros Hx. induction m1 as [|y m1 IH].
  - rewrite app_nil_l. destruct m2 as [|y m2]; [reflexivity|].
    cbn [Js.sort_insert].
    pose proof (Hx y (or_introl eq_refl)) as H. unfold precedes in H.
    now rewrite H.
  - rewrite <- app_comm_cons. cbn [Js.sort_insert].
    destruct (0 <? cmp x y); [|reflexivity]. now rewrite IH.
Qed.

Lemma sort_app l1 l2 :
  (∀ a b, In a l1 → In b l2 → precedes cmp a b) →
  Js.sort cmp (l1 ++ l2) = Js.sort cmp l1 ++ Js.sort cmp l2.
Proof.
  intros Hc. induction l1 as [|x l1 IH]; [reflexivity|].
  rewrite <- app_comm_cons. cbn [Js.sort]. rewrite IH.
  - apply sort_insert_app. intros y Hy. apply Hc; [now left|].
    now apply sort_In in Hy.
  - intros a b Ha Hb. apply Hc; [now right|exact Hb].
Qed.

Lemma StronglySorted_app (R : A → A → Prop) m1 m2 :
  StronglySorted R m1 → StronglySorted R m2 →
  (∀ a b, In a m1 → In b m2 → R a b) →
  StronglySorted R (m1 ++ m2).
Proof.
  intros H1 H2 Hc. induction H1 as [|x m1 H1 IH Hx]; [exact H2|].
  rewrite <- app_comm_cons. constructor.
  - apply IH. intros a b Ha Hb. apply Hc; [now right|exact Hb].
  - apply Forall_app. split; [exact Hx|].
    apply List.Forall_forall. intros b Hb. apply Hc; [now left|exact Hb].
Qed.

(** Results that the filter [E] selects and that never jump one another
    keep their order. *)
Lemma sort_insert_filter (E : A → bool) x l :
  (∀ y, E x = true → E y = true → precedes cmp x y) →
  List.filter E (Js.sort_insert cmp x l) = List.filter E (x :: l).
Proof.
  intros Hx. induction l as [|y l IH]; [reflexivity|].
  cbn [Js.sort_insert]. destruct (0 <? cmp x y) eqn:Hxy; [|reflexivity].
  cbn [List.filter] in *. rewrite IH.
  destruct (E x) eqn:Ex; [|reflexivity].
  destruct (E y) eqn:Ey; [|reflexivity].
  specialize (Hx y eq_refl Ey). unfold precedes in Hx. congruence.
Qed.

Lemma sort_filter (E : A → bool) l :
  (∀ x y, E x = true → E y = true → precedes cmp x y) →
  List.filter E (Js.sort cmp l) = List.filter E l.
Proof.
  intros HE. induction l as [|x l IH]; [reflexivity|].
  cbn [Js.sort]. rewrite sort_insert_filter by (intros y; apply HE).
  cbn [List.filter]. now rewrite IH.
Qed.

End SortBlocks.

(** ** The comparison function of the table *)

Lemma Qltb_false (a b : Q) : Qltb a b = false ↔ (b <= a)%Q.
Proof.
  unfold Qltb. rewrite negb_false_iff. apply Qle_bool_iff.
Qed.

Lemma str_lt_irrefl s : Str.lt s s = false.
Proof.
  unfold Str.lt. pose proof (proj2 (String_as_OT.cmp_eq s s) eq_refl) as H.
  change String_as_OT.cmp with String.compare in H. now rewrite H.
Qed.

Lemma str_lt_asym s t : Str.lt s t = true → Str.lt t s = false.
Proof.
  unfold Str.lt. pose proof (String_as_OT.cmp_antisym t s) as H.
  change String_as_OT.cmp with String.compare in H. rewrite H.
  now destruct (String.compare s t).
Qed.

(** [a <= b] and [b <= c] give [a <= c], for strings. *)
Lemma str_le_trans a b c :
  Str.lt b a = false → Str.lt c b = false → Str.lt c a = false.
Proof.
  unfold Str.lt. intros Hba Hcb.
  destruct (String.compare c a) eqn:Hca; try reflexivity. exfalso.
  apply String_as_OT.cmp_lt in Hca.
  destruct (String.compare b a) eqn:Eba; try discriminate;
    destruct (String.compare c b) eqn:Ecb; try discriminate.
  - apply String_as_OT.cmp_eq in Eba, Ecb. subst.
    apply (String_as_OT.lt_not_eq _ _ Hca). reflexivity.
  - apply String_as_OT.cmp_eq in Eba. subst b.
    pose proof (String_as_OT.cmp_antisym a c) as Han.
    change String_as_OT.cmp with String.compare in Han. rewrite Ecb in Han.
    apply String_as_OT.cmp_lt in Han.
    apply (String_as_OT.lt_not_eq a a); [|reflexivity].
    eapply String_as_OT.lt_trans; eassumption.
  - apply String_as_OT.cmp_eq in Ecb. subst c.
    pose proof (String_as_OT.cmp_antisym a b) as Han.
    change String_as_OT.cmp with String.compare in Han. rewrite Eba in Han.
    apply String_as_OT.cmp_lt in Han.
    apply (String_as_OT.lt_not_eq a a); [|reflexivity].
    eapply String_as_OT.lt_trans; eassumption.
  - pose proof (String_as_OT.cmp_antisym a b) as H1.
    pose proof (String_as_OT.cmp_antisym b c) as H2.
    change String_as_OT.cmp with String.compare in H1, H2.
    rewrite Eba in H1. rewrite Ecb in H2.
    apply String_as_OT.cmp_lt in H1, H2.
    apply (String_as_OT.lt_not_eq a a); [|reflexivity].
    eapply String_as_OT.lt_trans; [exact H1|].
    eapply String_as_OT.lt_trans; eassumption.
Qed.

Lemma num_lt_asym x y : num_lt x y = true → num_lt y x = false.
Proof.
  destruct x as [| |a|], y as [| |b|]; cbn; try congruence.
  intros H. apply Qltb_lt in H. apply Qltb_false. now apply Qlt_le_weak.
Qed.

Lemma js_lt_asym p q : Js.lt p q = true → Js.lt q p = false.
Proof.
  destruct p as [x|s], q as [y|t]; cbn [Js.lt];
    try apply num_lt_asym. apply str_lt_asym.
Qed.

Lemma compareFn_precedes c a b :
  precedes (ResultsView.compareFn c) a b ↔ ordered c a b.
Proof.
  unfold precedes, ordered, ResultsView.compareFn, Js.gt.
  set (x := ResultsView.field_prim (key c) a).
  set (y := ResultsView.field_prim (key c) b).
  pose proof (js_lt_asym x y) as Hxy. pose proof (js_lt_asym y x) as Hyx.
  destruct (ResultsView.is_asc (direction c));
    destruct (Js.lt x y), (Js.lt y x); cbn; split; intros H;
    try reflexivity; try discriminate;
    try (specialize (Hxy eq_refl)); try (specialize (Hyx eq_refl));
    congruence.
Qed.

Lemma ordered_total c a b : ordered c a b ∨ ordered c b a.
Proof.
  unfold ordered.
  set (x := ResultsView.field_prim (key c) a).
  set (y := ResultsView.field_prim (key c) b).
  pose proof (js_lt_asym x y) as Hxy.
  destruct (ResultsView.is_asc (direction c));
    destruct (Js.lt x y); auto.
Qed.

Lemma ordered_trans_str c x y z :
  StrKey (key c) x → StrKey (key c) y → StrKey (key c) z →
  ordered c x y → ordered c y z → ordered c x z.
Proof.
  unfold ordered. intros [a ->] [b ->] [d ->].
  destruct (ResultsView.is_asc (direction c)); cbn [Js.lt]; intros H1 H2.
  - eapply str_le_trans; eassumption.
  - eapply str_le_trans; eassumption.
Qed.

Lemma ordered_trans_fin c x y z :
  FinKey (key c) x → FinKey (key c) y → FinKey (key c) z →
  ordered c x y → ordered c y z → ordered c x z.
Proof.
  unfold ordered. intros [a ->] [b ->] [d ->].
  destruct (ResultsView.is_asc (direction c)); cbn [Js.lt Js.ToNumber num_lt];
    rewrite !Qltb_false; intros H1 H2; eapply Qle_trans; eassumption.
Qed.

Lemma ordered_cross c x y :
  StrKey (key c) x → FinKey (key c) y →
  (∀ s, ResultsView.field_prim (key c) x = Js.PStr s → Js.StringToNumber s = NaN) →
  ordered c x y.
Proof.
  unfold ordered. intros [s Hs] [q Hq] Hnan. rewrite Hs, Hq.
  specialize (Hnan s Hs).
  destruct (ResultsView.is_asc (direction c)); cbn [Js.lt Js.ToNumber];
    rewrite Hnan; reflexivity.
Qed.

Lemma prim_same_precedes c x a b :
  same_key c x a = true → same_key c x b = true →
  precedes (ResultsView.compareFn c) a b.
Proof.
  unfold same_key. intros Ha Hb. apply compareFn_precedes. unfold ordered.
  destruct (ResultsView.field_prim (key c) a) as [u|s],
           (ResultsView.field_prim (key c) b) as [w|t], x as [z|r];
    cbn [prim_same] in Ha, Hb; try discriminate.
  - assert (Hlt : num_lt u w = false ∧ num_lt w u = false).
    { destruct u as [| |p|], w as [| |q|], z as [| |o|];
        cbn [num_same] in Ha, Hb; try discriminate; cbn [num_lt]; auto.
      apply Qeq_bool_iff in Ha, Hb. rewrite !Qltb_false.
      assert (Hpq : (p == q)%Q) by (rewrite Ha, Hb; reflexivity).
      rewrite Hpq. split; apply Qle_refl. }
    destruct (ResultsView.is_asc (direction c)); cbn [Js.lt Js.ToNumber]; tauto.
  - apply String.eqb_eq in Ha, Hb. subst.
    destruct (ResultsView.is_asc (direction c)); cbn [Js.lt]; apply str_lt_irrefl.
Qed.

Lemma StronglySorted_impl {A} (R S : A → A → Prop) l :
  (∀ a b, R a b → S a b) → StronglySorted R l → StronglySorted S l.
Proof.
  intros HRS. induction 1 as [|x l Hs IH Hx]; constructor; [exact IH|].
  eapply Forall_impl; [exact Hx|]. intros b. apply HRS.
Qed.

(** A result list of the application splits, for any sort key, into the
    results whose key is a string followed by those whose key is a number,
    and no comparison across the two parts orders anything. *)
Lemma key_blocks c l :
  layered l →
  ∃ l1 l2, l = l1 ++ l2 ∧
           Forall (StrKey (key c)) l1 ∧ Forall (FinKey (key c)) l2 ∧
           ∀ a b, In a l1 → In b l2 → ordered c a b.
Proof.
  intros (d1 & d2 & -> & H1 & H2).
  assert (Hall_l : ∀ P : StudentResult → Prop, (∀ r, P r) → Forall P (d1 ++ d2)).
  { intros P HP. apply List.Forall_forall. intros r _. apply HP. }
  destruct (key c) eqn:Hk.
  - exists (d1 ++ d2), []. rewrite app_nil_r. repeat split; [|constructor|intros ? ? ? []].
    apply Hall_l. intros r. eexists; reflexivity.
  - exists [], (d1 ++ d2). repeat split; [constructor| |intros ? ? []].
    apply Hall_l. intros r. eexists; reflexivity.
  - exists (d1 ++ d2), []. rewrite app_nil_r. repeat split; [|constructor|intros ? ? ? []].
    apply Hall_l. intros r. eexists; reflexivity.
  - exists d1, d2. split; [reflexivity|].
    assert (HS : Forall (StrKey K_processingDate) d1).
    { eapply Forall_impl; [exact H1|]. intros r [t Ht]. unfold StrKey. cbn.
      rewrite Ht. eauto. }
    assert (HF : Forall (FinKey K_processingDate) d2).
    { eapply Forall_impl; [exact H2|]. intros r [t Ht]. unfold FinKey. cbn.
      rewrite Ht. eauto. }
    split; [exact HS|]. split; [exact HF|].
    intros a b Ha Hb. rewrite List.Forall_forall in HS, HF, H1.
    apply ordered_cross; rewrite Hk; [now apply HS|now apply HF|].
    intros s Hs. destruct (H1 a Ha) as [t Ht]. cbn in Hs. rewrite Ht in Hs.
    injection Hs as <-. apply StringToNumber_ISO.
  - exists [], (d1 ++ d2). repeat split; [constructor| |intros ? ? []].
    apply Hall_l. intros r. eexists; reflexivity.
  - exists (d1 ++ d2), []. rewrite app_nil_r. repeat split; [|constructor|intros ? ? ? []].
    apply Hall_l. intros r. eexists; reflexivity.
Qed.

(** What sorting a result list of the application gives: the same results,
    in the order of the configuration, those with the same key value in
    the order they had. *)
Lemma sort_by_config c l :
  layered l →
  let sorted := Js.sort (ResultsView.compareFn c) l in
  Permutation sorted l ∧
  StronglySorted (ordered c) sorted ∧
  ∀ x, List.filter (same_key c x) sorted = List.filter (same_key c x) l.
Proof.
  intros Hlay sorted. subst sorted. split; [apply sort_perm|]. split.
  - destruct (key_blocks c l Hlay) as (l1 & l2 & -> & HS & HF & Hcross).
    assert (Htot : ∀ a b, precedes (ResultsView.compareFn c) a b ∨
                          precedes (ResultsView.compareFn c) b a).
    { intros a b. rewrite !compareFn_precedes. apply ordered_total. }
    rewrite sort_app by (intros a b Ha Hb; apply compareFn_precedes; auto).
    apply (StronglySorted_impl (precedes (ResultsView.compareFn c)));
      [intros a b; apply compareFn_precedes|].
    apply StronglySorted_app.
    + apply (sort_sorted _ (StrKey (key c)) Htot); [|exact HS].
      intros x y z Hx Hy Hz. rewrite !compareFn_precedes.
      now apply ordered_trans_str.
    + apply (sort_sorted _ (FinKey (key c)) Htot); [|exact HF].
      intros x y z Hx Hy Hz. rewrite !compareFn_precedes.
      now apply ordered_trans_fin.
    + intros a b Ha Hb. apply compareFn_precedes.
      apply sort_In in Ha, Hb. auto.
  - intros x. apply sort_filter. intros a b. apply prim_same_precedes.
Qed.

(** ** Filtering, relationally *)

Lemma filter_Kept {A} (P : A → Prop) (f : A → bool) l :
  (∀ x, f x = true ↔ P x) → Kept P l (List.filter f l).
Proof.
  intros Hf. induction l as [|x l IH]; cbn [List.filter]; [constructor|].
  destruct (f x) eqn:E.
  - apply Kept_keep; [now apply Hf|exact IH].
  - apply Kept_drop; [|exact IH]. intros HP. apply Hf in HP. congruence.
Qed.

Lemma Kept_functional {A} (P : A → Prop) l l1 :
  Kept P l l1 → ∀ l2, Kept P l l2 → l1 = l2.
Proof.
  induction 1 as [|x l l' Hx _ IH|x l l' Hx _ IH]; intros l2 H2;
    inversion H2; subst; try contradiction; try reflexivity.
  - f_equal. now apply IH.
  - now apply IH.
Qed.

Lemma Kept_In {A} (P : A → Prop) l l' :
  Kept P l l' → ∀ x, In x l' ↔ In x l ∧ P x.
Proof.
  induction 1 as [|y l l' Hy _ IH|y l l' Hy _ IH]; intros x; cbn [In].
  - tauto.
  - rewrite IH. split.
    + intros [->|[H1 H2]]; tauto.
    + intros [[->|H1] H2]; tauto.
  - rewrite IH. split.
    + tauto.
    + intros [[->|H1] H2]; [contradiction|tauto].
Qed.

Lemma filter_twice {A} (f g : A → bool) l :
  List.filter g (List.filter f l) = List.filter (fun x => f x && g x) l.
Proof.
  induction l as [|x l IH]; [reflexivity|]. cbn [List.filter].
  destruct (f x); cbn [List.filter andb]; [|exact IH].
  destruct (g x); now rewrite IH.
Qed.

(** ** Case-insensitive search *)

Lemma startsWith_spec s t :
  Str.startsWith s t = true ↔ ∃ post, s = (t ++ post)%string.
Proof.
  revert s. induction t as [|b t IH]; intros s.
  - destruct s; cbn; split; eauto.
  - destruct s as [|a s]; cbn [Str.startsWith].
    + split; [discriminate|]. intros [post H]. discriminate.
    + rewrite andb_true_iff, IH, Ascii.eqb_eq. split.
      * intros [-> [post ->]]. now exists post.
      * intros [post H]. injection H as -> ->. eauto.
Qed.

Lemma includes_spec s t :
  Str.includes s t = true ↔ ∃ pre post, s = (pre ++ t ++ post)%string.
Proof.
  induction s as [|a s IH]; cbn [Str.includes]; rewrite orb_true_iff, startsWith_spec.
  - split.
    + intros [[post H]|H]; [|discriminate]. now exists ""%string, post.
    + intros (pre & post & H). left.
      destruct pre; [now exists post|discriminate].
  - rewrite IH. split.
    + intros [[post H]|(pre & post & ->)].
      * now exists ""%string, post.
      * now exists (String a pre), post.
    + intros (pre & post & H). destruct pre as [|c pre].
      * left. now exists post.
      * right. injection H as -> ->. eauto.
Qed.

Lemma toLowerCase_app a b :
  Str.toLowerCase (a ++ b) = (Str.toLowerCase a ++ Str.toLowerCase b)%string.
Proof.
  induction a as [|c a IH]; [reflexivity|].
  change (String (Str.lower_char c) (Str.toLowerCase (a ++ b))
          = String (Str.lower_char c) (Str.toLowerCase a ++ Str.toLowerCase b))%string.
  now rewrite IH.
Qed.

Lemma toLowerCase_split s : ∀ a b,
  Str.toLowerCase s = (a ++ b)%string →
  ∃ s1 s2, s = (s1 ++ s2)%string ∧ Str.toLowerCase s1 = a ∧ Str.toLowerCase s2 = b.
Proof.
  induction s as [|c s IH]; intros a b H.
  - destruct a; [|discriminate]. destruct b; [|discriminate].
    now exists ""%string, ""%string.
  - destruct a as [|x a].
    + exists ""%string, (String c s). auto.
    + cbn [Str.toLowerCase] in H.
      change (String (Str.lower_char c) (Str.toLowerCase s) = String x (a ++ b))%string in H.
      injection H as Hx Hs. destruct (IH a b Hs) as (s1 & s2 & -> & H1 & H2).
      exists (String c s1), s2. cbn [Str.toLowerCase]. now rewrite Hx, H1.
Qed.

Lemma includes_lower_spec s t :
  Str.includes (Str.toLowerCase s) (Str.toLowerCase t) = true ↔ contains_ci s t.
Proof.
  rewrite includes_spec. unfold contains_ci. split.
  - intros (pre & post & H).
    destruct (toLowerCase_split _ _ _ H) as (s1 & s23 & -> & H1 & H23).
    destruct (toLowerCase_split _ _ _ H23) as (s2 & s3 & -> & H2 & H3).
    now exists s1, s2, s3.
  - intros (pre & mid & post & -> & Hm).
    exists (Str.toLowerCase pre), (Str.toLowerCase post).
    now rewrite !toLowerCase_app, Hm.
Qed.

(** ** Pagination *)

(** A slice that starts at a non-negative index and spans ten places. *)
Lemma slice_page {A} (l : list A) (start : Z) :
  0 ≤ start →
  Js.slice l start (start + 10) = firstn 10 (skipn (Z.to_nat start) l).
Proof.
  intros Hs. unfold Js.slice.
  destruct (Z.ltb_spec start 0) as [?|_]; [lia|].
  destruct (Z.ltb_spec (start + 10) 0) as [?|_]; [lia|].
  set (len := Z.of_nat (length l)).
  destruct (Z.le_gt_cases len start) as [Hge|Hlt].
  - rewrite !Z.min_r by lia. rewrite Z.sub_diag.
    rewrite !skipn_all2 by (unfold len in *; lia). now rewrite !firstn_nil.
  - rewrite (Z.min_l start) by lia.
    destruct (Z.le_gt_cases (start + 10) len) as [Hfit|Hshort].
    + rewrite Z.min_l by lia. f_equal. lia.
    + rewrite Z.min_r by lia.
      assert (Hlen : length (skipn (Z.to_nat start) l) = Z.to_nat (len - start)).
      { rewrite length_skipn. unfold len. lia. }
      rewrite !firstn_all2; [reflexivity| |]; rewrite Hlen; lia.
Qed.

Lemma ceil_tenth (n : Z) :
  let T := Qceiling (inject_Z n / inject_Z 10) in
  10 * (T - 1) < n ≤ 10 * T.
Proof.
  intros T. subst T.
  assert (Hx : (inject_Z n / inject_Z 10 == n # 10)%Q).
  { unfold Qdiv, Qinv, Qmult, inject_Z, Qeq. cbn. lia. }
  rewrite (Qceiling_comp _ _ Hx).
  pose proof (Qle_ceiling (n # 10)) as Hle.
  pose proof (Qceiling_lt (n # 10)) as Hlt.
  unfold Qle, Qlt, inject_Z in Hle, Hlt. cbn in Hle, Hlt. lia.
Qed.

Lemma status_passes_spec f r :
  ResultsView.status_passes f r = true ↔ f = All ∨ f = Only (status r).
Proof.
  destruct f as [|s]; cbn [ResultsView.status_passes].
  - split; auto.
  - split.
    + intros H. right. f_equal.
      destruct (status r), s; try discriminate; reflexivity.
    + intros [H|H]; [discriminate|]. injection H as ->. now destruct (status r).
Qed.

Lemma filteredResults_Kept results v :
  Kept (matches v) results (ResultsView.filteredResults results v).
Proof.
  unfold ResultsView.filteredResults. rewrite filter_twice.
  apply filter_Kept. intros r. unfold matches.
  now rewrite andb_true_iff, includes_lower_spec, status_passes_spec.
Qed.

Lemma layered_Reachable p : Reachable p → layered (studentResults (app p)).
Proof. intros H. now destruct (Reachable_PageInv p H) as (_ & _ & Hl & _). Qed.

Lemma filteredResults_layered results v :
  layered results → layered (ResultsView.filteredResults results v).
Proof.
  intros H. unfold ResultsView.filteredResults. now do 2 apply layered_filter.
Qed.


Lemma sample_mixed_layered : layered sample_mixed.
Proof.
  exists (map reparsed (firstn 1 sample_results)), (skipn 1 sample_results).
  split; [reflexivity|]. split.
  - assert (H : map processingDate (map reparsed (firstn 1 sample_results))
                = [DateStr (DateTime.toISOString 1791279551678)])
      by (vm_compute; reflexivity).
    destruct (map reparsed (firstn 1 sample_results)) as [|r [|? ?]];
      try discriminate H.
    injection H as H. repeat constructor. now exists 1791279551678.
  - assert (H : map processingDate (skipn 1 sample_results)
                = [DateObj 1791279562178])
      by (vm_compute; reflexivity).
    destruct (skipn 1 sample_results) as [|r [|? ?]]; try discriminate H.
    injection H as H. repeat constructor. now exists 1791279562178.
Defined.




(** ** CSV export *)

Lemma date_lt_before a b : ResultsView.date_lt a b = true ↔ before a b.
Proof.
  unfold ResultsView.date_lt, before. destruct a as [x|], b as [y|].
  - rewrite Z.ltb_lt. split; [eauto|]. intros (x' & y' & [= <-] & [= <-] & H). exact H.
  - split; [discriminate|]. intros (? & ? & _ & H & _). discriminate.
  - split; [discriminate|]. intros (? & ? & H & _). discriminate.
  - split; [discriminate|]. intros (? & ? & H & _). discriminate.
Qed.

Lemma is_set_spec s : ResultsView.is_set s = true ↔ s ≠ ""%string.
Proof.
  unfold ResultsView.is_set. rewrite negb_true_iff.
  destruct (String.eqb_spec s ""); split; congruence.
Qed.

Lemma export_keeps_spec tz v r :
  ResultsView.export_keeps tz v r = true ↔ export_matches tz v r.
Proof.
  unfold ResultsView.export_keeps, export_matches.
  rewrite <- status_passes_spec, <- !is_set_spec, <- !date_lt_before.
  destruct (ResultsView.status_passes (ResultsView.exportStatusFilter v) r),
           (ResultsView.is_set (ResultsView.exportStartDate v)),
           (ResultsView.is_set (ResultsView.exportEndDate v)),
           (ResultsView.date_lt (ResultsView.resultDate tz r)
              (DateTime.parse (ResultsView.exportStartDate v))),
           (ResultsView.date_lt (DateTime.parse (ResultsView.exportEndDate v))
              (ResultsView.resultDate tz r));
    cbn [negb andb]; intuition congruence.
Qed.


(** ** AI insights *)

(** C8. The insights call ends by returning a string, whatever the result
    list, the API key and the behaviour of the external service: without a
    key it returns the fixed notice and sends nothing; with a key it sends
    exactly one request and returns the text of the response, or the fixed
    error notice when the request is rejected. *)
Theorem insights_never_throws
    (API_KEY : option string) (results : list StudentResult)
    (api : Gemini.Request → Gemini.Response) (log : list Gemini.Request) :
  ∃ text log',
    Gemini.generateAnalyticsInsights API_KEY results api log
    = (Gemini.Returns text, log') ∧
    (Gemini.key_missing API_KEY = true →
     text = Gemini.keyMissingMessage ∧ log' = log) ∧
    (Gemini.key_missing API_KEY = false →
     ∃ req, log' = log ++ [req] ∧
            Gemini.model req = "gemini-2.5-flash"%string ∧
            match api req with
            | Gemini.Resolved t => text = t
            | Gemini.Rejected _ => text = Gemini.errorMessage
            end).
Proof.
  unfold Gemini.generateAnalyticsInsights.
  destruct (Gemini.key_missing API_KEY).
  - exists Gemini.keyMissingMessage, log. split; [reflexivity|].
    split; [auto|discriminate].
  - set (req := {| Gemini.model := "gemini-2.5-flash";
                   Gemini.contents := JArr (Gemini.detail <$> results) |}).
    unfold Gemini.try_catch, mbind, Gemini.Io_bind, Gemini.generateContent.
    destruct (api req) as [t|e] eqn:Hreq.
    + exists t, (log ++ [req]). split; [reflexivity|]. split; [discriminate|].
      intros _. exists req. now rewrite Hreq.
    + exists Gemini.errorMessage, (log ++ [req]). split; [reflexivity|].
      split; [discriminate|]. intros _. exists req. now rewrite Hreq.
Qed.

(** ** Persistence: what a reload gives back *)

(** Saving a list on a fresh page stores its serialization, and opening the
    page again loads the list as [JSON.parse] returns it. *)
Lemma save_then_reload (l : list StudentResult) :
  let p := handleProcessingComplete l (mount ∅) in
  let q := mount (localStorage p) in
  studentResults (app p) = l ∧
  localStorage p !! "studentResults"%string = Some (JSON.stringify_results l) ∧
  studentResults (app q) = map reparsed l.
Proof.
  intros p q.
  assert (Hfresh : mount ∅
            = {| app := {| view := upload; omrFiles := []; studentResults := [];
                           totalProcessed := 0; isInitialMount := false |};
                 localStorage := ∅ |}).
  { apply mount_fresh; apply lookup_empty. }
  destruct (update_stores
              (fun a => set_view results
                 (set_total (totalProcessed a + Z.of_nat (length l))
                    (set_results (studentResults a ++ l) a)))
              (mount ∅)) as (Happ & Hres & Htot).
  { now rewrite Hfresh. }
  { reflexivity. }
  fold (handleProcessingComplete l (mount ∅)) in Happ, Hres, Htot.
  fold p in Happ, Hres, Htot.
  assert (Hp : studentResults (app p) = l).
  { rewrite Happ, Hfresh. reflexivity. }
  rewrite Hp in Hres.
  destruct (mount_loads (localStorage p) l _ Hres Htot) as (Hq & _).
  auto.
Qed.

(** C4, on the code.  The save effect stores the serialized list under
    'studentResults', and opening the page again parses it back; but what
    comes back for [processingDate] is the ISO string of the date, not the
    Date object that was saved, so the loaded list is not the saved one. *)
Theorem reload_returns_date_strings :
  let p := handleProcessingComplete sample_saved (mount ∅) in
  let q := mount (localStorage p) in
  studentResults (app p) = sample_saved ∧
  localStorage p !! "studentResults"%string
  = Some (JSON.stringify_results sample_saved) ∧
  studentResults (app q) = map reparsed sample_saved ∧
  map processingDate sample_saved = [DateObj 1791279551678] ∧
  map processingDate (studentResults (app q))
  = [DateStr "2026-10-06T09:39:11.678Z"] ∧
  studentResults (app q) ≠ sample_saved.
Proof.
  destruct (save_then_reload sample_saved) as (Hp & Hres & Hq).
  cbv zeta. rewrite Hq.
  assert (Hd : map processingDate sample_saved = [DateObj 1791279551678])
    by (vm_compute; reflexivity).
  assert (Hs : map processingDate (map reparsed sample_saved)
               = [DateStr "2026-10-06T09:39:11.678Z"]) by (vm_compute; reflexivity).
  split; [exact Hp|]. split; [exact Hres|]. split; [reflexivity|].
  split; [exact Hd|]. split; [exact Hs|].
  intros Heq. rewrite Heq in Hs. rewrite Hd in Hs. discriminate Hs.
Qed.

(** ** The run ends *)

Lemma run_step_first env n d :
  Dashboard.run env (S n) d = Dashboard.run env n (Dashboard.step env d).
Proof.
  induction n as [|n IH]; [reflexivity|].
  rewrite run_S, IH. reflexivity.
Qed.

Lemma run_add env m n d :
  Dashboard.run env (m + n) d = Dashboard.run env m (Dashboard.run env n d).
Proof.
  induction m as [|m IH]; [reflexivity|].
  change (S m + n)%nat with (S (m + n)). now rewrite !run_S, IH.
Qed.

Lemma RunInv_run_from env d n : RunInv env d → RunInv env (Dashboard.run env n d).
Proof.
  intros H. induction n as [|n IH]; [exact H|]. rewrite run_S. now apply RunInv_step.
Qed.

Lemma run_files_from env n d :
  Dashboard.files (Dashboard.run env n d) = Dashboard.files d.
Proof.
  induction n as [|n IH]; [reflexivity|]. now rewrite run_S, step_files.
Qed.

(** The timer that [updateProgress] leaves pending. *)
Lemma updateProgress_task env d i st c pr :
  st = Dashboard.errorStages ∨ st = Dashboard.okStages →
  (c < length st - 1)%nat →
  (i < length (Dashboard.files d))%nat →
  Dashboard.task (Dashboard.updateProgress env i st c pr d)
  = let pr1 := (pr + Dashboard.draws env (Dashboard.cursor d) * 15)%Q in
    if Qle_bool 100 pr1 then
      if (S c <? length st - 1)%nat then Dashboard.CallUpdateProgress i st (S c) 0
      else Dashboard.CallProcessFile (S i)
    else Dashboard.CallUpdateProgress i st c pr1.
Proof.
  intros Hst Hc Hlt.
  destruct (nth_error (Dashboard.files d) i) as [f0|] eqn:Hf0;
    [|apply nth_error_None in Hf0; lia].
  unfold Dashboard.updateProgress. cbv zeta.
  destruct (Qle_bool 100 (pr + Dashboard.draws env (Dashboard.cursor d) * 15));
    destruct Hst as [-> | ->]; unfold Dashboard.errorStages, Dashboard.okStages in *;
    cbn [length Nat.sub] in Hc;
    (destruct c as [|[|[|c]]]; try lia);
    cbn [length Nat.sub Nat.ltb Nat.leb nth Dashboard.is_complete Dashboard.is_error orb];
    rewrite ?Hf0;
    try (destruct (generateMockResult _ _ _ _ _) as [r k2]);
    reflexivity.
Qed.

Section Termination.

Variable env : Dashboard.Env.
Variable δ : Q.
Hypothesis δ_pos : (0 < δ)%Q.
Hypothesis draws_above : ∀ n, (δ <= Dashboard.draws env n)%Q.

(** With [S m] more ticks enough to fill the bar, the stage ends: the file
    is done, or its next stage starts from zero. *)
Lemma stage_ends (m : nat) : ∀ d i st c pr,
  RunInv env d →
  Dashboard.task d = Dashboard.CallUpdateProgress i st c pr →
  (100 <= pr + inject_Z (Z.of_nat (S m)) * (15 * δ))%Q →
  ∃ n, Dashboard.task (Dashboard.run env n d) = Dashboard.CallProcessFile (S i) ∨
       (Dashboard.task (Dashboard.run env n d)
        = Dashboard.CallUpdateProgress i st (S c) 0 ∧ (S c < length st - 1)%nat).
Proof.
  induction m as [|m IH]; intros d i st c pr HI Ht Hm.
  all: assert (Hph : (i < length (Dashboard.files d))%nat ∧
                     (st = Dashboard.errorStages ∨ st = Dashboard.okStages) ∧
                     (c < length st - 1)%nat)
         by (destruct HI as (_ & _ & idx & Hph & _); unfold phase_ok in Hph;
             rewrite Ht in Hph; tauto).
  all: destruct Hph as (Hlt & Hst & Hc).
  all: pose proof (updateProgress_task env d i st c pr Hst Hc Hlt) as Hstep;
    cbv zeta in Hstep.
  all: assert (Hs : Dashboard.step env d = Dashboard.updateProgress env i st c pr d)
         by (unfold Dashboard.step; now rewrite Ht).
  all: pose proof (draws_above (Dashboard.cursor d)) as Hdraw.
  all: destruct (Qle_bool 100 (pr + Dashboard.draws env (Dashboard.cursor d) * 15))
         eqn:Hfull.
  - exists 1%nat. change (Dashboard.run env 1 d) with (Dashboard.step env d).
    rewrite Hs, Hstep.
    destruct (Nat.ltb_spec (S c) (length st - 1)); auto.
  - exfalso. assert (Hlt100 : ¬ (100 <= pr + Dashboard.draws env (Dashboard.cursor d) * 15)%Q).
    { intros H. apply Qle_bool_iff in H. congruence. }
    apply Hlt100. change (inject_Z (Z.of_nat 1)) with 1%Q in Hm. lra.
  - exists 1%nat. change (Dashboard.run env 1 d) with (Dashboard.step env d).
    rewrite Hs, Hstep.
    destruct (Nat.ltb_spec (S c) (length st - 1)); auto.
  - assert (Hnext : (100 <= (pr + Dashboard.draws env (Dashboard.cursor d) * 15)
                            + inject_Z (Z.of_nat (S m)) * (15 * δ))%Q).
    { assert (He : (inject_Z (Z.of_nat (S (S m)))
                    == inject_Z (Z.of_nat (S m)) + 1)%Q).
      { rewrite <- (inject_Z_plus _ 1). apply inject_Z_injective. lia. }
      rewrite He in Hm. lra. }
    destruct (IH (Dashboard.step env d) i st c _ (RunInv_step env d HI)
                 ltac:(rewrite Hs; exact Hstep) Hnext) as (n & Hn).
    exists (S n). now rewrite run_step_first.
Qed.

(** Enough ticks to fill the bar from zero. *)
Lemma enough_ticks : ∃ m, (100 <= 0 + inject_Z (Z.of_nat (S m)) * (15 * δ))%Q.
Proof.
  destruct δ as [a b] eqn:Hδ. unfold Qlt in δ_pos. cbn in δ_pos.
  exists (Pos.to_nat (100 * b) - 1)%nat.
  assert (He : Z.of_nat (S (Pos.to_nat (100 * b) - 1)) = Z.pos (100 * b)) by lia.
  rewrite He. unfold Qle, Qplus, Qmult, inject_Z. cbn. nia.
Qed.

(** A file whose processing has started gets done. *)
Lemma file_gets_done (s : nat) : ∀ d i st c,
  RunInv env d →
  Dashboard.task d = Dashboard.CallUpdateProgress i st c 0 →
  (length st - 1 - c ≤ s)%nat →
  ∃ n, Dashboard.task (Dashboard.run env n d) = Dashboard.CallProcessFile (S i).
Proof.
  induction s as [|s IH]; intros d i st c HI Ht Hs.
  - destruct HI as (_ & _ & idx & Hph & _). unfold phase_ok in Hph.
    rewrite Ht in Hph. lia.
  - destruct enough_ticks as (m & Hm).
    destruct (stage_ends m d i st c 0 HI Ht Hm) as (n & [Hdone|[Hnext Hc]]).
    + now exists n.
    + destruct (IH (Dashboard.run env n d) i st (S c)
                   (RunInv_run_from env d n HI) Hnext ltac:(lia)) as (n' & Hn').
      exists (n' + n)%nat. now rewrite run_add.
Qed.

(** The run reaches the completion callback. *)
Lemma queue_gets_done (k : nat) : ∀ d i,
  RunInv env d →
  Dashboard.task d = Dashboard.CallProcessFile i →
  (length (Dashboard.files d) - i ≤ k)%nat →
  ∃ n, Dashboard.delivered (Dashboard.run env n d)
       = Some (Dashboard.generatedResults (Dashboard.run env n d)).
Proof.
  induction k as [|k IH]; intros d i HI Ht Hk.
  all: assert (Hs : Dashboard.step env d = Dashboard.processFile env i d)
         by (unfold Dashboard.step; now rewrite Ht).
  all: destruct (Nat.leb_spec (length (Dashboard.files d)) i) as [Hge|Hlt'];
    try lia.
  1, 2: exists 2%nat;
    change (Dashboard.run env 2 d)
      with (Dashboard.step env (Dashboard.step env d));
    rewrite Hs; unfold Dashboard.processFile;
    destruct (Nat.leb_spec (length (Dashboard.files d)) i); try lia; reflexivity.
  assert (Htask : ∃ st, Dashboard.task (Dashboard.step env d)
                        = Dashboard.CallUpdateProgress i st 0 0 ∧
                        (length st - 1 - 0 ≤ 3)%nat).
  { rewrite Hs. unfold Dashboard.processFile.
    destruct (Nat.leb_spec (length (Dashboard.files d)) i); try lia.
    destruct (Qltb _ _); eexists; (split; [reflexivity|cbn; lia]). }
  destruct Htask as (st & Htask & Hst).
  destruct (file_gets_done 3 (Dashboard.step env d) i st 0
              (RunInv_step env d HI) Htask Hst) as (n & Hn).
  destruct (IH (Dashboard.run env n (Dashboard.step env d)) (S i)
               (RunInv_run_from env _ n (RunInv_step env d HI)) Hn)
    as (n' & Hn').
  { rewrite run_files_from, step_files. lia. }
  exists (n' + S n)%nat. now rewrite run_add, run_step_first.
Qed.

End Termination.

(** When the draws stay above some positive bound, the run calls the
    completion callback. *)
Lemma run_finishes env fs δ :
  (0 < δ)%Q → (∀ n, (δ <= Dashboard.draws env n)%Q) →
  ∃ n rs, Dashboard.delivered (Dashboard.run env n (Dashboard.init fs)) = Some rs.
Proof.
  intros Hpos Hd.
  destruct (queue_gets_done env δ Hpos Hd (length fs) (Dashboard.init fs) 0%nat
              (RunInv_init env fs) eq_refl) as (n & Hn).
  { cbn. rewrite length_map. lia. }
  eauto.
Qed.

(** What the loss of the Date objects does to the table: sorted ascending
    by processing date, a result loaded from the store stays in front of a
    newly generated one whose date is earlier, because a string and a
    Number compare as neither less nor greater. *)
Lemma reloaded_dates_sort_before_new_ones :
  let sorted :=
    ResultsView.sortedResults sample_reloaded_then_new
      (ResultsView.requestSort K_processingDate ResultsView.initial) in
  map processingDate sorted
  = [DateStr "2026-10-06T09:39:22.178Z"; DateObj 1791279551678] ∧
  map (fun r => newDate (processingDate r)) sorted
  = [Some 1791279562178; Some 1791279551678].
Proof. split; vm_compute; reflexivity. Qed.

(** * Further properties of the code *)

(** ** Dates survive a reload *)

Lemma forall_from_spec P n : ∀ z,
  forall_from P z n = true → ∀ i, z ≤ i < z + Z.of_nat n → P i = true.
Proof.
  induction n as [|n IH]; intros z H i Hi; [lia|].
  cbn [forall_from] in H. apply andb_true_iff in H as [H0 H1].
  destruct (Z.eq_dec i z) as [->|Hne]; [exact H0|].
  apply (IH (z + 1) H1). lia.
Qed.

Lemma civil_ok_all : forall_from civil_ok 0 (Z.to_nat 146097) = true.
Proof. vm_cast_no_check (eq_refl true). Qed.

Lemma civil_ok_doe doe : 0 ≤ doe < 146097 → civil_ok doe = true.
Proof.
  intros H. apply (forall_from_spec _ _ _ civil_ok_all).
  rewrite Z2Nat.id; lia.
Qed.


Lemma civil_shift n k :
  DateTime.civil_from_days (n + 146097 * k)
  = let '(y, m, d) := DateTime.civil_from_days n in (y + 400 * k, m, d).
Proof.
  unfold DateTime.civil_from_days.
  replace (n + 146097 * k + 719468) with (n + 719468 + k * 146097) by ring.
  rewrite Z.div_add, Z.mod_add by discriminate.
  generalize ((n + 719468) `mod` 146097) ((n + 719468) `div` 146097).
  intros doe era. cbv beta iota zeta. f_equal. f_equal.
  match goal with |- ?a + _ + ?c = _ => generalize a c end.
  intros a c. ring.
Qed.

Lemma days_shift y m d k :
  DateTime.days_from_civil (y + 400 * k) m d = DateTime.days_from_civil y m d + 146097 * k.
Proof.
  unfold DateTime.days_from_civil.
  replace (if m <=? 2 then y + 400 * k - 1 else y + 400 * k)
    with ((if m <=? 2 then y - 1 else y) + k * 400)
    by (destruct (m <=? 2); ring).
  generalize (if m <=? 2 then y - 1 else y). intros y'.
  rewrite Z.div_add by discriminate. cbv beta iota zeta.
  replace (y' + k * 400 - (y' `div` 400 + k) * 400)
    with (y' - y' `div` 400 * 400) by ring.
  ring.
Qed.

Lemma days_in_month_shift y m k :
  DateTime.days_in_month (y + 400 * k) m = DateTime.days_in_month y m.
Proof.
  unfold DateTime.days_in_month.
  destruct (m =? 12).
  - replace (y + 400 * k + 1) with (y + 1 + 400 * k) by lia.
    rewrite !days_shift. ring.
  - rewrite !days_shift. ring.
Qed.

(** The civil date of a day number between 0000-01-01 and 9999-12-31 is a
    valid date of a year 0..9999, and it is the date of that day. *)
Lemma civil_round_trip n :
  -719528 ≤ n ≤ 2932896 →
  let '(y, m, d) := DateTime.civil_from_days n in
  DateTime.days_from_civil y m d = n ∧ 0 ≤ y ≤ 9999 ∧ 1 ≤ m ≤ 12 ∧
  1 ≤ d ≤ DateTime.days_in_month y m ∧ d ≤ 31.
Proof.
  intros Hn.
  set (k := (n + 719468) / 146097).
  set (doe := (n + 719468) mod 146097).
  assert (Hz : n + 719468 = 146097 * k + doe) by (apply Z.div_mod; lia).
  assert (Hdoe : 0 ≤ doe < 146097) by (apply Z.mod_pos_bound; lia).
  assert (Hk : -1 ≤ k < 25).
  { unfold k. split.
    - apply Z.div_le_lower_bound; lia.
    - apply Z.div_lt_upper_bound; lia. }
  clearbody k doe.
  replace n with (doe - 719468 + 146097 * k) by lia.
  rewrite civil_shift.
  pose proof (civil_ok_doe doe Hdoe) as Hok. unfold civil_ok in Hok.
  destruct (DateTime.civil_from_days (doe - 719468)) as [[y m] d].
  rewrite !andb_true_iff in Hok.
  destruct Hok as ((((((((H1 & H2) & H3) & H4) & H5) & H5') & H6) & H7) & H8).
  rewrite days_shift, days_in_month_shift.
  destruct (doe <? 146037) eqn:E; lia.
Qed.

Lemma digit_char_read n :
  Str.is_digit (Str.digit_char n) = true ∧ Str.digit_val (Str.digit_char n) = n mod 10.
Proof.
  unfold Str.digit_char.
  assert (H : 0 ≤ n mod 10 < 10) by (apply Z.mod_pos_bound; lia).
  generalize dependent (n mod 10). intros r H.
  assert (Hr : r = 0 ∨ r = 1 ∨ r = 2 ∨ r = 3 ∨ r = 4 ∨ r = 5 ∨ r = 6 ∨ r = 7 ∨
               r = 8 ∨ r = 9) by lia.
  repeat destruct Hr as [-> | Hr]; try subst r; split; reflexivity.
Qed.

Lemma pad_digits_app w : ∀ n acc,
  Str.pad_digits w n acc = (Str.pad_digits w n "" ++ acc)%string.
Proof.
  induction w as [|w IH]; intros n acc; [reflexivity|].
  cbn [Str.pad_digits].
  rewrite (IH _ (String _ acc)), (IH _ (String _ "")), append_assoc.
  reflexivity.
Qed.

Lemma read_pad w : ∀ k n a rest,
  Str.read_digits (w + k) a (Str.pad_digits w n "" ++ rest)
  = Str.read_digits k (a * 10 ^ Z.of_nat w + n mod 10 ^ Z.of_nat w) rest.
Proof.
  induction w as [|w IH]; intros k n a rest.
  - cbn [Str.pad_digits plus]. change (10 ^ Z.of_nat 0) with 1.
    rewrite Z.mod_1_r, Z.mul_1_r, Z.add_0_r. reflexivity.
  - cbn [Str.pad_digits]. rewrite pad_digits_app, append_assoc.
    replace (S w + k)%nat with (w + S k)%nat by lia.
    rewrite IH.
    change (String (Str.digit_char n) "" ++ rest)%string
      with (String (Str.digit_char n) rest).
    cbn [Str.read_digits].
    destruct (digit_char_read n) as [-> ->].
    f_equal.
    rewrite Nat2Z.inj_succ, Z.pow_succ_r by lia.
    rewrite (Z.rem_mul_r n 10 (10 ^ Z.of_nat w)) by lia.
    ring.
Qed.

Lemma read_padStart0 w n rest :
  0 ≤ n < 10 ^ Z.of_nat w →
  Str.read_digits w 0 (Str.padStart0 w n ++ rest) = Some (n, rest).
Proof.
  intros H. unfold Str.padStart0.
  replace w with (w + 0)%nat at 1 by lia.
  rewrite read_pad. cbn [Str.read_digits].
  rewrite Z.mod_small by lia. reflexivity.
Qed.

Lemma bind_some {A B} (x : A) (f : A → option B) : (Some x ≫= f) = f x.
Proof. reflexivity. Qed.

Lemma expect_cons c rest : Str.expect c (String c rest) = Some rest.
Proof. cbn [Str.expect]. now rewrite Ascii.eqb_refl. Qed.

Lemma append_cons c s t : (String c s ++ t)%string = String c (s ++ t)%string.
Proof. reflexivity. Qed.

Lemma append_nil s : ("" ++ s)%string = s.
Proof. reflexivity. Qed.

Ltac read_next :=
  repeat progress
    (rewrite ?append_cons, ?append_nil, ?expect_cons, ?bind_some; cbv beta iota).

Lemma read_date_printed y m d rest :
  0 ≤ y ≤ 9999 → 1 ≤ m ≤ 12 → 1 ≤ d ≤ DateTime.days_in_month y m → d ≤ 31 →
  DateTime.read_date
    (Str.padStart0 4 y ++ "-" ++ Str.padStart0 2 m ++ "-" ++ Str.padStart0 2 d ++ rest)
  = Some (DateTime.days_from_civil y m d * DateTime.msPerDay, rest).
Proof.
  intros Hy Hm Hd Hd'. unfold DateTime.read_date.
  rewrite read_padStart0 by (change (10 ^ Z.of_nat 4) with 10000; lia).
  read_next.
  rewrite read_padStart0 by (change (10 ^ Z.of_nat 2) with 100; lia).
  read_next.
  rewrite read_padStart0 by (change (10 ^ Z.of_nat 2) with 100; lia).
  read_next.
  replace ((1 <=? m) && (m <=? 12) && (1 <=? d) && (d <=? DateTime.days_in_month y m))
    with true; [reflexivity|].
  symmetry. rewrite !andb_true_iff, !Z.leb_le. lia.
Qed.

Lemma read_time_printed h mi s ms :
  0 ≤ h ≤ 23 → 0 ≤ mi ≤ 59 → 0 ≤ s ≤ 59 → 0 ≤ ms ≤ 999 →
  DateTime.read_time
    ("T" ++ Str.padStart0 2 h ++ ":" ++ Str.padStart0 2 mi ++ ":" ++
     Str.padStart0 2 s ++ "." ++ Str.padStart0 3 ms ++ "Z")
  = Some (h * 3600000 + mi * 60000 + s * 1000 + ms).
Proof.
  intros Hh Hmi Hs Hms. unfold DateTime.read_time.
  read_next.
  rewrite read_padStart0 by (change (10 ^ Z.of_nat 2) with 100; lia).
  read_next.
  rewrite read_padStart0 by (change (10 ^ Z.of_nat 2) with 100; lia).
  read_next.
  rewrite read_padStart0 by (change (10 ^ Z.of_nat 2) with 100; lia).
  read_next.
  rewrite read_padStart0 by (change (10 ^ Z.of_nat 3) with 1000; lia).
  read_next.
  replace ((h <=? 23) && (mi <=? 59) && (s <=? 59)) with true; [reflexivity|].
  symmetry. rewrite !andb_true_iff, !Z.leb_le. lia.
Qed.

Lemma parse_printed y m d h mi s ms :
  0 ≤ y ≤ 9999 → 1 ≤ m ≤ 12 → 1 ≤ d ≤ DateTime.days_in_month y m → d ≤ 31 →
  0 ≤ h ≤ 23 → 0 ≤ mi ≤ 59 → 0 ≤ s ≤ 59 → 0 ≤ ms ≤ 999 →
  DateTime.parse
    (Str.padStart0 4 y ++ "-" ++ Str.padStart0 2 m ++ "-" ++ Str.padStart0 2 d ++
     "T" ++ Str.padStart0 2 h ++ ":" ++ Str.padStart0 2 mi ++ ":" ++
     Str.padStart0 2 s ++ "." ++ Str.padStart0 3 ms ++ "Z")
  = Some (DateTime.days_from_civil y m d * DateTime.msPerDay
          + (h * 3600000 + mi * 60000 + s * 1000 + ms)).
Proof.
  intros Hy Hm Hd Hd' Hh Hmi Hs Hms.
  pose proof (read_time_printed h mi s ms Hh Hmi Hs Hms) as Htime.
  unfold DateTime.parse.
  rewrite read_date_printed by assumption.
  rewrite bind_some. cbv beta iota.
  rewrite append_cons, append_nil in Htime |- *.
  rewrite Htime. reflexivity.
Qed.

Lemma parse_toISOString t :
  iso_min ≤ t ≤ iso_max → DateTime.parse (DateTime.toISOString t) = Some t.
Proof.
  unfold iso_min, iso_max. intros Ht.
  unfold DateTime.toISOString.
  assert (Hn : -719528 ≤ t / DateTime.msPerDay ≤ 2932896).
  { unfold DateTime.msPerDay. split.
    - apply Z.div_le_lower_bound; lia.
    - apply Z.lt_succ_r. apply Z.div_lt_upper_bound; lia. }
  pose proof (civil_round_trip _ Hn) as Hc.
  destruct (DateTime.civil_from_days (t / DateTime.msPerDay)) as [[y m] d].
  destruct Hc as (Hday & Hy & Hm & Hd & Hd').
  assert (Hr : 0 ≤ t mod DateTime.msPerDay < DateTime.msPerDay)
    by (apply Z.mod_pos_bound; reflexivity).
  assert (Ht' : t = DateTime.msPerDay * (t / DateTime.msPerDay) + t mod DateTime.msPerDay)
    by (apply Z.div_mod; discriminate).
  generalize dependent (t mod DateTime.msPerDay). intros r Hr Ht'.
  unfold DateTime.iso_year.
  replace ((0 <=? y) && (y <=? 9999)) with true
    by (symmetry; rewrite andb_true_iff, !Z.leb_le; lia).
  rewrite !concat_cons2.
  change (String.concat "" ["Z"%string]) with "Z"%string.
  unfold DateTime.msPerDay in Hr.
  rewrite parse_printed; try assumption.
  - f_equal. rewrite Hday. unfold DateTime.msPerDay in *.
    etransitivity; [|symmetry; exact Ht']. generalize (t / 86400000). intros n.
    cut (r / 3600000 * 3600000 + r / 60000 mod 60 * 60000
         + r / 1000 mod 60 * 1000 + r mod 1000 = r); [lia|].
    clear.
    replace (r / 3600000) with (r / 1000 / 60 / 60)
      by (rewrite !Z.div_div by lia; reflexivity).
    replace (r / 60000) with (r / 1000 / 60)
      by (rewrite !Z.div_div by lia; reflexivity).
    pose proof (Z.div_mod r 1000 ltac:(lia)).
    pose proof (Z.div_mod (r / 1000) 60 ltac:(lia)).
    pose proof (Z.div_mod (r / 1000 / 60) 60 ltac:(lia)).
    generalize dependent (r / 1000 / 60 / 60).
    generalize dependent ((r / 1000 / 60) mod 60).
    generalize dependent (r / 1000 / 60).
    generalize dependent ((r / 1000) mod 60).
    generalize dependent (r / 1000).
    generalize dependent (r mod 1000).
    intros. lia.
  - split; [apply Z.div_pos; lia|]. apply Z.lt_succ_r, Z.div_lt_upper_bound; lia.
  - pose proof (Z.mod_pos_bound (r / 60000) 60); lia.
  - pose proof (Z.mod_pos_bound (r / 1000) 60); lia.
  - pose proof (Z.mod_pos_bound r 1000); lia.
Qed.

(** X1. A saved date reads back as the instant it was: for a time value
    that [toISOString] prints with a four-digit year, [Date.parse] of the
    printed string is that time value; so [new Date(r.processingDate)] of a
    result that went through [JSON.stringify] and [JSON.parse] is the date
    the result was generated with, although the field itself is a string. *)
Theorem saved_date_reads_back (t : Z) :
  iso_min ≤ t ≤ iso_max →
  DateTime.parse (DateTime.toISOString t) = Some t ∧
  ∀ r, processingDate r = DateObj t →
       JSON.to_result (JSON.of_result r) = Some (reparsed r) ∧
       processingDate (reparsed r) = DateStr (DateTime.toISOString t) ∧
       newDate (processingDate (reparsed r)) = Some t.
Proof.
  intros Ht. pose proof (parse_toISOString t Ht) as Hp. split; [exact Hp|].
  intros r Hr. split; [apply to_result_of_result|].
  unfold reparsed. cbn [processingDate]. rewrite Hr. cbn [newDate]. auto.
Qed.

Lemma saved_date_reads_back_witness :
  iso_min ≤ 1791279551678 ≤ iso_max ∧
  DateTime.parse (DateTime.toISOString 1791279551678) = Some 1791279551678.
Proof.
  assert (H : iso_min ≤ 1791279551678 ≤ iso_max) by (unfold iso_min, iso_max; lia).
  exact (conj H (proj1 (saved_date_reads_back 1791279551678 H))).
Defined.

Lemma newDate_reparsed r :
  date_in_range r → newDate (processingDate (reparsed r)) = newDate (processingDate r).
Proof.
  unfold date_in_range. destruct r as [? ? ? ? ? ? ? ? ? [t|s]]; cbn; [|reflexivity].
  apply parse_toISOString.
Qed.

Lemma csvRow_reparsed r :
  date_in_range r → ResultsView.csvRow (reparsed r) = ResultsView.csvRow r.
Proof.
  intros H. unfold ResultsView.csvRow. rewrite (newDate_reparsed r H). reflexivity.
Qed.

Lemma export_keeps_reparsed tz v r :
  date_in_range r →
  ResultsView.export_keeps tz v (reparsed r) = ResultsView.export_keeps tz v r.
Proof.
  intros H. unfold ResultsView.export_keeps, ResultsView.resultDate.
  rewrite (newDate_reparsed r H).
  replace (ResultsView.status_passes (ResultsView.exportStatusFilter v) (reparsed r))
    with (ResultsView.status_passes (ResultsView.exportStatusFilter v) r)
    by (now destruct r).
  reflexivity.
Qed.

Lemma dataToExport_reparsed tz v l :
  Forall date_in_range l →
  ResultsView.dataToExport tz (map reparsed l) v
  = map reparsed (ResultsView.dataToExport tz l v).
Proof.
  unfold ResultsView.dataToExport.
  induction 1 as [|r l Hr Hl IH]; [reflexivity|].
  cbn [map List.filter]. rewrite (export_keeps_reparsed tz v r Hr), IH.
  now destruct (ResultsView.export_keeps tz v r).
Qed.

Lemma mapM_csvRow_reparsed l :
  Forall date_in_range l →
  mapM (M := option) ResultsView.csvRow (map reparsed l)
  = mapM (M := option) ResultsView.csvRow l.
Proof.
  induction 1 as [|r l Hr Hl IH]; [reflexivity|].
  cbn [map mapM]. rewrite (csvRow_reparsed r Hr), IH. reflexivity.
Qed.

(** X2. The CSV export does not see the reload: for results whose dates
    print with a four-digit year, [new Date(processingDate)] of a reloaded
    result is the instant that was saved, the export filter keeps the same
    results, and the outcome of the export (the alert, or the file with its
    rows) is the same for the reloaded list as for the list that was saved. *)
Theorem export_survives_reload
    (tz : Z) (results : list StudentResult) (v : ResultsView.t) :
  Forall date_in_range results →
  (∀ r, In r results →
        newDate (processingDate (reparsed r)) = newDate (processingDate r)) ∧
  ResultsView.dataToExport tz (map reparsed results) v
  = map reparsed (ResultsView.dataToExport tz results v) ∧
  ResultsView.exportToCSV tz (map reparsed results) v
  = ResultsView.exportToCSV tz results v.
Proof.
  intros H. split; [|split].
  - intros r Hr. apply newDate_reparsed.
    rewrite List.Forall_forall in H. now apply H.
  - now apply dataToExport_reparsed.
  - unfold ResultsView.exportToCSV.
    rewrite (dataToExport_reparsed tz v results H).
    assert (Hk : Forall date_in_range (ResultsView.dataToExport tz results v))
      by (now apply Forall_filter_bool).
    rewrite (mapM_csvRow_reparsed _ Hk).
    now destruct (ResultsView.dataToExport tz results v).
Qed.


Lemma dates_of_sample :
  map processingDate sample_results = [DateObj 1791279551678; DateObj 1791279562178].
Proof. vm_compute. reflexivity. Qed.

Lemma date_in_range_map l :
  Forall (fun d => match d with DateObj t => iso_min ≤ t ≤ iso_max | DateStr _ => True end)
         (map processingDate l) → Forall date_in_range l.
Proof. rewrite Forall_map. intros H. exact H. Qed.

Lemma sample_results_in_range : Forall date_in_range sample_results.
Proof.
  apply date_in_range_map. rewrite dates_of_sample.
  repeat constructor; unfold iso_min, iso_max; lia.
Qed.

Lemma export_survives_reload_witness :
  Forall date_in_range sample_results ∧
  ResultsView.exportToCSV 0 (map reparsed sample_results) ResultsView.initial
  = ResultsView.exportToCSV 0 sample_results ResultsView.initial.
Proof.
  exact (conj sample_results_in_range
           (proj2 (proj2 (export_survives_reload 0 sample_results ResultsView.initial
                            sample_results_in_range)))).
Defined.

Lemma date_only_parse s day :
  date_only s day →
  DateTime.parse s = Some (day * DateTime.msPerDay) ∧ ResultsView.is_set s = true.
Proof.
  unfold date_only, DateTime.parse. intros H. split.
  - rewrite H. reflexivity.
  - destruct s; [discriminate H|reflexivity].
Qed.

(** X3. What the two date bounds of the export keep.  The result's date is
    taken to local midnight while the bounds are read as UTC midnights, so
    the range of local days that passes depends on the side of Greenwich:
    east of it (local time ahead of UTC) a result of the start day itself
    is left out, west of it a result of the end day is left out, and at UTC
    both days are in. *)
Theorem export_date_bounds
    (tz t ds de : Z) (v : ResultsView.t) (r : StudentResult) :
  - DateTime.msPerDay < tz < DateTime.msPerDay →
  newDate (processingDate r) = Some t →
  ResultsView.status_passes (ResultsView.exportStatusFilter v) r = true →
  date_only (ResultsView.exportStartDate v) ds →
  date_only (ResultsView.exportEndDate v) de →
  (ResultsView.export_keeps tz v r = true ↔
   (if 0 <? tz then ds + 1 else ds) ≤ local_day tz t
   ≤ (if tz <? 0 then de - 1 else de)).
Proof.
  intros Htz Ht Hst Hs He.
  destruct (date_only_parse _ _ Hs) as [Ps Ss].
  destruct (date_only_parse _ _ He) as [Pe Se].
  unfold ResultsView.export_keeps, ResultsView.resultDate.
  rewrite Hst, Ss, Se, Ps, Pe, Ht. cbn [negb fmap option_fmap option_map andb].
  unfold ResultsView.date_lt, DateTime.setHours0, local_day.
  unfold DateTime.msPerDay in *.
  generalize ((t + tz) / 86400000). intros L.
  destruct (L * 86400000 - tz <? ds * 86400000) eqn:E1;
    [apply Z.ltb_lt in E1 | apply Z.ltb_ge in E1];
    (destruct (de * 86400000 <? L * 86400000 - tz) eqn:E2;
     [apply Z.ltb_lt in E2 | apply Z.ltb_ge in E2]);
    destruct (0 <? tz) eqn:E3; destruct (tz <? 0) eqn:E4;
    try apply Z.ltb_lt in E3; try apply Z.ltb_ge in E3;
    try apply Z.ltb_lt in E4; try apply Z.ltb_ge in E4;
    split; intros H; try discriminate H; try reflexivity; try lia.
Qed.


Lemma sample_first_date : newDate (processingDate sample_first) = Some 1791279551678.
Proof. vm_compute. reflexivity. Qed.

Lemma sample_first_passes :
  ResultsView.status_passes (ResultsView.exportStatusFilter sample_export_view)
                            sample_first = true.
Proof. reflexivity. Qed.

Lemma sample_start_day : date_only (ResultsView.exportStartDate sample_export_view) 20732.
Proof. vm_compute. reflexivity. Qed.

Lemma sample_end_day : date_only (ResultsView.exportEndDate sample_export_view) 20733.
Proof. vm_compute. reflexivity. Qed.

Lemma sample_zone : - DateTime.msPerDay < 19800000 < DateTime.msPerDay.
Proof. unfold DateTime.msPerDay. lia. Qed.

Lemma export_date_bounds_witness :
  - DateTime.msPerDay < 19800000 < DateTime.msPerDay ∧
  newDate (processingDate sample_first) = Some 1791279551678 ∧
  date_only (ResultsView.exportStartDate sample_export_view) 20732 ∧
  date_only (ResultsView.exportEndDate sample_export_view) 20733 ∧
  (ResultsView.export_keeps 19800000 sample_export_view sample_first = true ↔
   (if 0 <? 19800000 then 20732 + 1 else 20732) ≤ local_day 19800000 1791279551678
   ≤ (if 19800000 <? 0 then 20733 - 1 else 20733)).
Proof.
  exact (conj sample_zone (conj sample_first_date (conj sample_start_day
          (conj sample_end_day
             (export_date_bounds 19800000 1791279551678 20732 20733
                sample_export_view sample_first
                sample_zone sample_first_date sample_first_passes
                sample_start_day sample_end_day))))).
Defined.

(** ** The store mirrors the state *)

(** Opening the page on a store that holds a saved list and counter. *)
Lemma mount_stored storage l n :
  storage !! "studentResults"%string = Some (JSON.stringify_results l) →
  storage !! "totalProcessed"%string = Some (JSON.stringify_total n) →
  mount storage
  = {| app := {| view := upload; omrFiles := []; studentResults := map reparsed l;
                 totalProcessed := n; isInitialMount := false |};
       localStorage :=
         <["totalProcessed"%string := JSON.stringify_total n]>
           (<["studentResults"%string := JSON.stringify_results (map reparsed l)]>
              storage) |}.
Proof.
  intros Hr Ht. unfold mount, loadEffect. cbn [app localStorage].
  rewrite Hr, parse_stringify_results, Ht, parse_stringify_total.
  reflexivity.
Qed.

Lemma map_reparsed_idem l : map reparsed (map reparsed l) = map reparsed l.
Proof.
  rewrite List.map_map. apply List.map_ext. intros r. apply reparsed_idem.
Qed.

(** Opening the page a second time changes nothing. *)
Lemma mount_stored_again storage l n :
  storage !! "studentResults"%string = Some (JSON.stringify_results l) →
  storage !! "totalProcessed"%string = Some (JSON.stringify_total n) →
  mount (localStorage (mount storage)) = mount storage.
Proof.
  intros Hr Ht. rewrite (mount_stored storage l n Hr Ht). cbn [localStorage].
  set (s1 := <["totalProcessed"%string := _]> _).
  assert (H1 : s1 !! "studentResults"%string
               = Some (JSON.stringify_results (map reparsed l))).
  { unfold s1. rewrite lookup_insert_ne by discriminate. apply lookup_insert_eq. }
  assert (H2 : s1 !! "totalProcessed"%string = Some (JSON.stringify_total n)).
  { unfold s1. apply lookup_insert_eq. }
  rewrite (mount_stored s1 _ n H1 H2), map_reparsed_idem.
  f_equal. rewrite (insert_id s1 _ _ H1). apply (insert_id s1 _ _ H2).
Qed.

Lemma mirrored_mount storage :
  (storage !! "studentResults"%string = None ∧
   storage !! "totalProcessed"%string = None) ∨
  (∃ l n, storage !! "studentResults"%string = Some (JSON.stringify_results l) ∧
          storage !! "totalProcessed"%string = Some (JSON.stringify_total n)) →
  isInitialMount (app (mount storage)) = false ∧ mirrored (mount storage).
Proof.
  intros [[Hr Ht]|(l & n & Hr & Ht)].
  - rewrite (mount_fresh _ Hr Ht). split; [reflexivity|]. left. cbn. auto.
  - rewrite (mount_stored _ l n Hr Ht). split; [reflexivity|]. right. cbn. split.
    + rewrite lookup_insert_ne by discriminate. apply lookup_insert_eq.
    + apply lookup_insert_eq.
Qed.

Lemma mirrored_update f p :
  isInitialMount (app p) = false →
  (∀ a, isInitialMount (f a) = isInitialMount a) →
  isInitialMount (app (update f p)) = false ∧ mirrored (update f p).
Proof.
  intros Hm Hf. destruct (update_stores f p Hm Hf) as (Ha & Hr & Ht).
  split; [now rewrite Ha, Hf|]. right. auto.
Qed.

Lemma mirrored_stored p :
  mirrored p →
  (localStorage p !! "studentResults"%string = None ∧
   localStorage p !! "totalProcessed"%string = None) ∨
  (∃ l n, localStorage p !! "studentResults"%string = Some (JSON.stringify_results l) ∧
          localStorage p !! "totalProcessed"%string = Some (JSON.stringify_total n)).
Proof. intros [(?&?&_)|(?&?)]; [left|right]; eauto. Qed.

Lemma mirrored_step p q :
  isInitialMount (app p) = false ∧ mirrored p → Step p q →
  isInitialMount (app q) = false ∧ mirrored q.
Proof.
  intros [Hm Hmir] Hs.
  destruct Hs as [p|fs p|env fs n rs p Hdel|i p|ids p|ids p|v p];
    try (apply mirrored_update; [exact Hm|reflexivity]).
  - apply mirrored_mount, mirrored_stored, Hmir.
  - split; [exact Hm|exact Hmir].
  - split; [exact Hm|exact Hmir].
Qed.

Lemma Reachable_mirrored p : Reachable p → isInitialMount (app p) = false ∧ mirrored p.
Proof.
  induction 1 as [|p q _ IH Hs].
  - apply mirrored_mount. left. split; apply lookup_empty.
  - exact (mirrored_step p q IH Hs).
Qed.

(** What a reload gives back, in terms of the state before it. *)
Lemma reload_of_mirrored p :
  mirrored p →
  let q := mount (localStorage p) in
  app q = {| view := upload; omrFiles := [];
             studentResults := map reparsed (studentResults (app p));
             totalProcessed := totalProcessed (app p); isInitialMount := false |} ∧
  mount (localStorage q) = q.
Proof.
  intros [(Hr & Ht & Hl & Hn)|(Hr & Ht)]; cbv zeta.
  - rewrite (mount_fresh _ Hr Ht), Hl, Hn. cbn [app localStorage map].
    split; [reflexivity|]. apply (mount_fresh _ Hr Ht).
  - split.
    + now rewrite (mount_stored _ _ _ Hr Ht).
    + exact (mount_stored_again _ _ _ Hr Ht).
Qed.



(** ** The counter of processed sheets *)

Lemma total_of_update f p :
  isInitialMount (app p) = false →
  (∀ a, isInitialMount (f a) = isInitialMount a) →
  app (update f p) = f (app p).
Proof. intros Hm Hf. now destruct (update_stores f p Hm Hf) as (Ha & _). Qed.

Lemma length_approveResult i l : length (approveResult i l) = length l.
Proof. apply List.length_map. Qed.

Lemma length_approveResults ids l : length (approveResults ids l) = length l.
Proof. apply List.length_map. Qed.

Lemma length_deleteResults ids l : (length (deleteResults ids l) ≤ length l)%nat.
Proof. apply List.filter_length_le. Qed.

(** One step: the counter does not go down, and stays at or above the
    number of results held. *)
Lemma counter_step p q :
  isInitialMount (app p) = false → mirrored p → Step p q →
  Z.of_nat (length (studentResults (app p))) ≤ totalProcessed (app p) →
  totalProcessed (app p) ≤ totalProcessed (app q) ∧
  Z.of_nat (length (studentResults (app q))) ≤ totalProcessed (app q).
Proof.
  intros Hm Hmir Hs Hc.
  destruct Hs as [p|fs p|env fs n rs p Hdel|i p|ids p|ids p|v p].
  - destruct (reload_of_mirrored p Hmir) as [Ha _]. cbv zeta in Ha.
    rewrite Ha. cbn. rewrite List.length_map. lia.
  - cbn. lia.
  - unfold handleProcessingComplete. rewrite total_of_update by (exact Hm || reflexivity).
    cbn. rewrite List.length_app. lia.
  - unfold handleApproveResult. rewrite total_of_update by (exact Hm || reflexivity).
    cbn. rewrite length_approveResult. lia.
  - unfold handleApproveResults. rewrite total_of_update by (exact Hm || reflexivity).
    cbn. rewrite length_approveResults. lia.
  - unfold handleDeleteResults. rewrite total_of_update by (exact Hm || reflexivity).
    cbn. pose proof (length_deleteResults ids (studentResults (app p))). lia.
  - cbn. lia.
Qed.

Lemma Reachable_counter p :
  Reachable p → Z.of_nat (length (studentResults (app p))) ≤ totalProcessed (app p).
Proof.
  induction 1 as [|p q Hp IH Hs].
  - rewrite mount_fresh by apply lookup_empty. cbn. lia.
  - destruct (Reachable_mirrored p Hp) as [Hm Hmir].
    now destruct (counter_step p q Hm Hmir Hs IH).
Qed.



(** ** Properties of every result the application holds *)

(** A property that every generated result has, and that approving and
    reloading keep, holds of every result of every reachable state. *)
Lemma Reachable_results (P : StudentResult → Prop) :
  (∀ now file index rng k, P (fst (generateMockResult now file index rng k))) →
  (∀ r, P r → P (approve r)) →
  (∀ r, P r → P (reparsed r)) →
  ∀ p, Reachable p → Forall P (studentResults (app p)).
Proof.
  intros Hgen Happ Hrep p H.
  induction H as [|p q Hp IH Hs].
  - rewrite mount_fresh by apply lookup_empty. constructor.
  - destruct (Reachable_mirrored p Hp) as [Hm Hmir].
    destruct Hs as [p|fs p|env fs n rs p Hdel|i p|ids p|ids p|v p].
    + destruct (reload_of_mirrored p Hmir) as [Ha _]. cbv zeta in Ha.
      rewrite Ha. cbn [studentResults]. apply List.Forall_map.
      eapply Forall_impl; [exact IH|]. exact Hrep.
    + exact IH.
    + unfold handleProcessingComplete.
      rewrite total_of_update by (exact Hm || reflexivity). cbn.
      apply Forall_app. split; [exact IH|].
      eapply Forall_impl; [exact (delivered_generated _ _ _ _ Hdel)|].
      intros r (now & file & index & rng & k & ->). apply Hgen.
    + unfold handleApproveResult.
      rewrite total_of_update by (exact Hm || reflexivity). cbn.
      unfold approveResult. apply List.Forall_map.
      eapply Forall_impl; [exact IH|]. intros r Hr.
      destruct (String.eqb _ _); auto.
    + unfold handleApproveResults.
      rewrite total_of_update by (exact Hm || reflexivity). cbn.
      unfold approveResults. apply List.Forall_map.
      eapply Forall_impl; [exact IH|]. intros r Hr.
      destruct (decide _); auto.
    + unfold handleDeleteResults.
      rewrite total_of_update by (exact Hm || reflexivity). cbn.
      now apply Forall_filter_bool.
    + exact IH.
Qed.

(** ** The page number *)

Lemma selectionEffect_fields a b :
  let c := ResultsView.selectionEffect a b in
  ResultsView.sortConfig c = ResultsView.sortConfig b ∧
  ResultsView.searchTerm c = ResultsView.searchTerm b ∧
  ResultsView.statusFilter c = ResultsView.statusFilter b ∧
  ResultsView.currentPage c = ResultsView.currentPage b.
Proof.
  cbv zeta. unfold ResultsView.selectionEffect.
  destruct (_ && _); cbn; auto.
Qed.

(** The rows depend on the filters, the sort and the page, not on the
    selection. *)
Lemma sortedResults_ext results v v' :
  ResultsView.sortConfig v' = ResultsView.sortConfig v →
  ResultsView.searchTerm v' = ResultsView.searchTerm v →
  ResultsView.statusFilter v' = ResultsView.statusFilter v →
  ResultsView.sortedResults results v' = ResultsView.sortedResults results v.
Proof.
  intros Hc Hs Hf.
  unfold ResultsView.sortedResults, ResultsView.filteredResults.
  now rewrite Hc, Hs, Hf.
Qed.

Lemma paginatedResults_ext results v v' :
  ResultsView.sortConfig v' = ResultsView.sortConfig v →
  ResultsView.searchTerm v' = ResultsView.searchTerm v →
  ResultsView.statusFilter v' = ResultsView.statusFilter v →
  ResultsView.currentPage v' = ResultsView.currentPage v →
  ResultsView.paginatedResults results v' = ResultsView.paginatedResults results v.
Proof.
  intros Hc Hs Hf Hp. unfold ResultsView.paginatedResults.
  now rewrite (sortedResults_ext results v v' Hc Hs Hf), Hp.
Qed.

Lemma totalPages_ext results v v' :
  ResultsView.sortConfig v' = ResultsView.sortConfig v →
  ResultsView.searchTerm v' = ResultsView.searchTerm v →
  ResultsView.statusFilter v' = ResultsView.statusFilter v →
  ResultsView.totalPages results v' = ResultsView.totalPages results v.
Proof.
  intros Hc Hs Hf. unfold ResultsView.totalPages.
  now rewrite (sortedResults_ext results v v' Hc Hs Hf).
Qed.

Lemma totalPages_bounds results v :
  let n := Z.of_nat (length (ResultsView.sortedResults results v)) in
  let T := ResultsView.totalPages results v in
  10 * (T - 1) < n ≤ 10 * T ∧ 0 ≤ T.
Proof.
  cbv zeta. pose proof (ceil_tenth (Z.of_nat (length (ResultsView.sortedResults results v)))) as H.
  cbv zeta in H. unfold ResultsView.totalPages, RESULTS_PER_PAGE. lia.
Qed.

Lemma nextPage_page results v :
  1 ≤ ResultsView.currentPage v →
  let v' := ResultsView.nextPage results v in
  ResultsView.currentPage v' = ResultsView.currentPage v ∨
  1 ≤ ResultsView.currentPage v' ≤ ResultsView.totalPages results v.
Proof.
  intros Hp. cbv zeta. unfold ResultsView.nextPage.
  destruct (totalPages_bounds results v) as [_ HT]. cbv zeta in HT.
  destruct ((_ =? _) || (_ =? 0)) eqn:E; [now left|right].
  apply orb_false_iff in E as [_ E2]. apply Z.eqb_neq in E2.
  destruct (selectionEffect_fields v
              (ResultsView.with_currentPage
                 (Z.min (ResultsView.totalPages results v) (ResultsView.currentPage v + 1)) v))
    as (_ & _ & _ & ->).
  cbn [ResultsView.with_currentPage ResultsView.currentPage]. lia.
Qed.

Lemma prevPage_page v :
  1 ≤ ResultsView.currentPage v →
  1 ≤ ResultsView.currentPage (ResultsView.prevPage v) ≤ ResultsView.currentPage v.
Proof.
  intros Hp. unfold ResultsView.prevPage.
  destruct (_ =? 1) eqn:E; [lia|].
  destruct (selectionEffect_fields v
              (ResultsView.with_currentPage (Z.max 1 (ResultsView.currentPage v - 1)) v))
    as (_ & _ & _ & ->).
  cbn [ResultsView.with_currentPage ResultsView.currentPage]. lia.
Qed.

Lemma onSearchChange_page s v :
  ResultsView.currentPage (ResultsView.onSearchChange s v) = 1.
Proof.
  unfold ResultsView.onSearchChange.
  now destruct (selectionEffect_fields v
                  (ResultsView.with_currentPage 1 (ResultsView.with_searchTerm s v)))
    as (_ & _ & _ & ->).
Qed.

Lemma onStatusFilter_page f v :
  ResultsView.currentPage (ResultsView.onStatusFilter f v) = 1.
Proof.
  unfold ResultsView.onStatusFilter.
  now destruct (selectionEffect_fields v
                  (ResultsView.with_currentPage 1 (ResultsView.with_statusFilter f v)))
    as (_ & _ & _ & ->).
Qed.

Lemma ViewStep_page v v' :
  ViewStep v v' → 1 ≤ ResultsView.currentPage v → 1 ≤ ResultsView.currentPage v'.
Proof.
  intros Hs Hp.
  destruct Hs as [s v|f v|v|results v|k v|i v|results c v|o v|f s e v|p v|c p v|p v].
  - rewrite onSearchChange_page. lia.
  - rewrite onStatusFilter_page. lia.
  - now apply prevPage_page.
  - destruct (nextPage_page results v Hp) as [->|H]; lia.
  - exact Hp.
  - exact Hp.
  - exact Hp.
  - exact Hp.
  - exact Hp.
  - unfold ResultsView.approveSelected. now destruct (decide _).
  - unfold ResultsView.deleteSelected. destruct (decide _); [exact Hp|].
    now destruct c.
  - unfold ResultsView.modalApprove.
    destruct (ResultsView.selectedResult v) as [r|]; [|exact Hp].
    now destruct (Status_eqb _ _).
Qed.

Lemma ViewReachable_page v : ViewReachable v → 1 ≤ ResultsView.currentPage v.
Proof.
  induction 1 as [|v v' _ IH Hs]; [cbn; lia|].
  exact (ViewStep_page v v' Hs IH).
Qed.

(** X6. The page number never drops below 1, whatever the user does in
    the table.  A click on the next-page button leaves the page as it is
    (the button is disabled) or moves to a page between 1 and the last one;
    the previous-page button never goes below 1; and typing in the search
    box or choosing a status goes back to page 1. *)
Theorem page_number_in_range (v : ResultsView.t) :
  ViewReachable v →
  1 ≤ ResultsView.currentPage v ∧
  (∀ results,
     let v' := ResultsView.nextPage results v in
     ResultsView.currentPage v' = ResultsView.currentPage v ∨
     1 ≤ ResultsView.currentPage v' ≤ ResultsView.totalPages results v') ∧
  1 ≤ ResultsView.currentPage (ResultsView.prevPage v) ≤ ResultsView.currentPage v ∧
  (∀ s, ResultsView.currentPage (ResultsView.onSearchChange s v) = 1) ∧
  (∀ f, ResultsView.currentPage (ResultsView.onStatusFilter f v) = 1).
Proof.
  intros H. pose proof (ViewReachable_page v H) as Hp.
  split; [exact Hp|]. split; [|split; [|split]].
  - intros results. cbv zeta.
    destruct (nextPage_page results v Hp) as [E|E]; [now left|right].
    enough (Ht : ResultsView.totalPages results (ResultsView.nextPage results v)
                 = ResultsView.totalPages results v) by (rewrite Ht; exact E).
    unfold ResultsView.nextPage. destruct (_ || _); [reflexivity|].
    destruct (selectionEffect_fields v
                (ResultsView.with_currentPage
                   (Z.min (ResultsView.totalPages results v)
                          (ResultsView.currentPage v + 1)) v))
      as (Hc & Hs & Hf & _).
    now apply totalPages_ext.
  - now apply prevPage_page.
  - intros s. apply onSearchChange_page.
  - intros f. apply onStatusFilter_page.
Qed.

Lemma sample_view_Reachable :
  ViewReachable (ResultsView.nextPage sample_mixed ResultsView.initial).
Proof.
  eapply ViewReachable_step; [apply ViewReachable_initial|apply ViewStep_next].
Defined.

Lemma page_number_in_range_witness :
  ViewReachable (ResultsView.nextPage sample_mixed ResultsView.initial) ∧
  1 ≤ ResultsView.currentPage (ResultsView.nextPage sample_mixed ResultsView.initial).
Proof.
  exact (conj sample_view_Reachable
           (proj1 (page_number_in_range _ sample_view_Reachable))).
Defined.

(** ** The rows of a page and the footer *)

Lemma length_paginatedResults results v :
  1 ≤ ResultsView.currentPage v →
  Z.of_nat (length (ResultsView.paginatedResults results v))
  = Z.max 0 (Z.min 10 (Z.of_nat (length (ResultsView.sortedResults results v))
                       - (ResultsView.currentPage v - 1) * 10)).
Proof.
  intros Hp. unfold ResultsView.paginatedResults, RESULTS_PER_PAGE.
  rewrite slice_page by lia.
  rewrite List.length_firstn, List.length_skipn. lia.
Qed.

(** X7. The rows shown agree with the footer "Showing a to b of n": on a
    page from 1 on, the number of rows is b - a + 1 when that is positive
    and zero otherwise; the page has rows exactly when it is not past the
    last page; every page before the last has ten rows, and the last one
    has the remaining ones. *)
Theorem shown_rows_match_footer (results : list StudentResult) (v : ResultsView.t) :
  1 ≤ ResultsView.currentPage v →
  let rows := ResultsView.paginatedResults results v in
  let n := Z.of_nat (length (ResultsView.sortedResults results v)) in
  let T := ResultsView.totalPages results v in
  Z.of_nat (length rows)
  = Z.max 0 (ResultsView.showingTo results v - ResultsView.showingFrom v + 1) ∧
  (ResultsView.currentPage v ≤ T ↔ rows ≠ []) ∧
  (ResultsView.currentPage v < T → length rows = 10%nat) ∧
  (ResultsView.currentPage v = T → Z.of_nat (length rows) = n - 10 * (T - 1)).
Proof.
  intros Hp. cbv zeta.
  pose proof (length_paginatedResults results v Hp) as Hlen.
  destruct (totalPages_bounds results v) as [HT HT0]. cbv zeta in HT, HT0.
  unfold ResultsView.showingTo, ResultsView.showingFrom, RESULTS_PER_PAGE.
  split; [lia|]. split; [|split].
  - split.
    + intros Hle Hnil. rewrite Hnil in Hlen. cbn [length] in Hlen. lia.
    + intros Hne. destruct (ResultsView.paginatedResults results v) as [|r rows] eqn:E;
        [congruence|]. cbn [length] in Hlen. lia.
  - lia.
  - lia.
Qed.

Lemma shown_rows_match_footer_witness :
  1 ≤ ResultsView.currentPage ResultsView.initial ∧
  Z.of_nat (length (ResultsView.paginatedResults sample_mixed ResultsView.initial))
  = Z.max 0 (ResultsView.showingTo sample_mixed ResultsView.initial
             - ResultsView.showingFrom ResultsView.initial + 1).
Proof.
  assert (H : 1 ≤ ResultsView.currentPage ResultsView.initial) by (cbn; lia).
  exact (conj H (proj1 (shown_rows_match_footer sample_mixed ResultsView.initial H))).
Defined.

(** ** Selection *)

Lemma handleSelectAll_fields results c v :
  let v' := ResultsView.handleSelectAll results c v in
  ResultsView.sortConfig v' = ResultsView.sortConfig v ∧
  ResultsView.searchTerm v' = ResultsView.searchTerm v ∧
  ResultsView.statusFilter v' = ResultsView.statusFilter v ∧
  ResultsView.currentPage v' = ResultsView.currentPage v.
Proof. cbn. auto. Qed.

Lemma paginatedResults_selection results s v :
  ResultsView.paginatedResults results (ResultsView.with_selectedIds s v)
  = ResultsView.paginatedResults results v.
Proof. now apply paginatedResults_ext. Qed.

Lemma isAllSelectedOnPage_spec results v :
  ResultsView.isAllSelectedOnPage results v = true ↔
  ResultsView.paginatedResults results v ≠ [] ∧
  ∀ r, In r (ResultsView.paginatedResults results v) → id r ∈ ResultsView.selectedIds v.
Proof.
  unfold ResultsView.isAllSelectedOnPage. cbv zeta.
  rewrite andb_true_iff, forallb_forall, Z.ltb_lt.
  split; intros [H1 H2]; split.
  - intros E. rewrite E in H1. cbn in H1. lia.
  - intros r Hr. specialize (H2 r Hr). now apply bool_decide_eq_true in H2.
  - destruct (ResultsView.paginatedResults results v); [congruence|cbn; lia].
  - intros r Hr. apply bool_decide_eq_true. now apply H2.
Qed.

Lemma handleSelect_twice i v :
  ResultsView.handleSelect i (ResultsView.handleSelect i v) = v.
Proof.
  destruct v as [sr sc st sf cp ids f sd ed].
  unfold ResultsView.handleSelect, ResultsView.with_selectedIds.
  cbn [ResultsView.selectedIds ResultsView.selectedResult ResultsView.sortConfig
       ResultsView.searchTerm ResultsView.statusFilter ResultsView.currentPage
       ResultsView.exportStatusFilter ResultsView.exportStartDate
       ResultsView.exportEndDate].
  f_equal. destruct (decide (i ∈ ids)) as [Hin|Hout].
  - destruct (decide (i ∈ ids ∖ {[i]})) as [H|H].
    + apply elem_of_difference in H as [_ H]. now rewrite elem_of_singleton in H.
    + apply set_eq. intros x.
      rewrite elem_of_union, elem_of_difference, elem_of_singleton.
      destruct (decide (x = i)) as [->|Hx]; tauto.
  - destruct (decide (i ∈ ids ∪ {[i]})) as [H|H].
    + apply set_eq. intros x.
      rewrite elem_of_difference, elem_of_union, elem_of_singleton.
      destruct (decide (x = i)) as [->|Hx]; tauto.
    + exfalso. apply H. rewrite elem_of_union, elem_of_singleton. now right.
Qed.

Lemma handleSelect_elem i j v :
  j ∈ ResultsView.selectedIds (ResultsView.handleSelect i v) ↔
  (j = i ∧ i ∉ ResultsView.selectedIds v) ∨ (j ≠ i ∧ j ∈ ResultsView.selectedIds v).
Proof.
  unfold ResultsView.handleSelect.
  cbn [ResultsView.with_selectedIds ResultsView.selectedIds].
  destruct (decide (i ∈ ResultsView.selectedIds v)) as [Hin|Hout].
  - rewrite elem_of_difference, elem_of_singleton.
    destruct (decide (j = i)) as [->|Hj]; tauto.
  - rewrite elem_of_union, elem_of_singleton.
    destruct (decide (j = i)) as [->|Hj]; tauto.
Qed.

(** X8. A row's checkbox toggles that row and no other, and ticking it
    twice gives the selection back.  The header checkbox selects the rows
    of the page: after it is ticked it shows as ticked exactly when the page
    has rows, after it is cleared nothing is selected, and clearing one row
    of a fully selected page clears the header checkbox. *)
Theorem selection_toggles (results : list StudentResult) (v : ResultsView.t) (i : string) :
  (i ∈ ResultsView.selectedIds (ResultsView.handleSelect i v)
   ↔ i ∉ ResultsView.selectedIds v) ∧
  (∀ j, j ≠ i →
        (j ∈ ResultsView.selectedIds (ResultsView.handleSelect i v)
         ↔ j ∈ ResultsView.selectedIds v)) ∧
  ResultsView.handleSelect i (ResultsView.handleSelect i v) = v ∧
  (ResultsView.isAllSelectedOnPage results (ResultsView.handleSelectAll results true v) = true
   ↔ ResultsView.paginatedResults results v ≠ []) ∧
  ResultsView.selectedIds (ResultsView.handleSelectAll results false v) = ∅ ∧
  ResultsView.isAllSelectedOnPage results (ResultsView.handleSelectAll results false v) = false ∧
  (∀ r, In r (ResultsView.paginatedResults results v) →
        ResultsView.isAllSelectedOnPage results
          (ResultsView.handleSelect (id r) (ResultsView.handleSelectAll results true v))
        = false).
Proof.
  split; [|split; [|split; [|split; [|split; [|split]]]]].
  - rewrite handleSelect_elem. tauto.
  - intros j Hj. rewrite handleSelect_elem. tauto.
  - apply handleSelect_twice.
  - rewrite isAllSelectedOnPage_spec.
    unfold ResultsView.handleSelectAll. rewrite paginatedResults_selection.
    cbn [ResultsView.with_selectedIds ResultsView.selectedIds].
    split; [now intros [H _]|]. intros H. split; [exact H|].
    intros r Hr. apply elem_of_list_to_set, list_elem_of_In, in_map, Hr.
  - reflexivity.
  - apply not_true_is_false. rewrite isAllSelectedOnPage_spec.
    unfold ResultsView.handleSelectAll. rewrite paginatedResults_selection.
    cbn [ResultsView.with_selectedIds ResultsView.selectedIds].
    intros [Hne Hall]. destruct (ResultsView.paginatedResults results v) as [|r rows];
      [congruence|]. specialize (Hall r (or_introl eq_refl)).
    now apply not_elem_of_empty in Hall.
  - intros r Hr. apply not_true_is_false. rewrite isAllSelectedOnPage_spec.
    unfold ResultsView.handleSelect, ResultsView.handleSelectAll.
    rewrite !paginatedResults_selection.
    cbn [ResultsView.with_selectedIds ResultsView.selectedIds].
    intros [_ Hall]. specialize (Hall r Hr).
    assert (Hsel : id r ∈ (list_to_set (map id (ResultsView.paginatedResults results v))
                           : gset string))
      by apply elem_of_list_to_set, list_elem_of_In, in_map, Hr.
    destruct (decide (id r ∈ _)) as [Hin|Hout]; [|now apply Hout].
    apply elem_of_difference in Hall as [_ Hall]. now rewrite elem_of_singleton in Hall.
Qed.

(** ** The batch buttons after "select all" *)

Lemma results_of_update f p :
  studentResults (app (update f p)) = studentResults (f (app p)).
Proof. unfold update, saveEffect. cbn. now destruct (isInitialMount _). Qed.

Lemma In_firstn_skipn {A} (l : list A) n m x : In x (firstn n (skipn m l)) → In x l.
Proof.
  intros H. rewrite <- (List.firstn_skipn m l). apply in_or_app. right.
  rewrite <- (List.firstn_skipn n (skipn m l)). apply in_or_app. now left.
Qed.

Lemma In_slice {A} (l : list A) a b x : In x (Js.slice l a b) → In x l.
Proof. unfold Js.slice. cbv zeta. apply In_firstn_skipn. Qed.

Lemma Removes_sublist ids prev after : Removes ids prev after → sublist after prev.
Proof. induction 1; [constructor|now apply sublist_skip|now apply sublist_cons]. Qed.

(** A row of the table is one of the results. *)
Lemma paginatedResults_In results v r :
  In r (ResultsView.paginatedResults results v) → In r results.
Proof.
  unfold ResultsView.paginatedResults. intros H. apply In_slice in H.
  unfold ResultsView.sortedResults in H. cbv zeta in H.
  assert (Hf : In r (ResultsView.filteredResults results v)).
  { destruct (ResultsView.sortConfig v); [now apply sort_In in H|exact H]. }
  unfold ResultsView.filteredResults in Hf.
  apply List.filter_In in Hf as [Hf _]. now apply List.filter_In in Hf as [Hf _].
Qed.

Lemma In_elements_selectAll results v x :
  In x (elements (ResultsView.selectedIds (ResultsView.handleSelectAll results true v)))
  ↔ In x (map id (ResultsView.paginatedResults results v)).
Proof.
  cbn [ResultsView.handleSelectAll ResultsView.with_selectedIds ResultsView.selectedIds].
  rewrite <- list_elem_of_In, elem_of_elements, elem_of_list_to_set, list_elem_of_In.
  reflexivity.
Qed.

Lemma selectAll_empty results v :
  ResultsView.selectedIds (ResultsView.handleSelectAll results true v) = ∅ →
  ResultsView.paginatedResults results v = [].
Proof.
  cbn [ResultsView.handleSelectAll ResultsView.with_selectedIds ResultsView.selectedIds].
  intros H. destruct (ResultsView.paginatedResults results v) as [|r rows]; [reflexivity|].
  exfalso. apply (not_elem_of_empty (C := gset string) (id r)). rewrite <- H.
  apply elem_of_list_to_set. cbn. left.
Qed.

(** X9. "Select all" then Delete, confirmed, removes from the list every
    result whose id is on the displayed page and leaves every other result
    as it is, so no row of the page is left; the selection is empty
    afterwards; and when the confirmation is refused nothing changes. *)
Theorem select_all_then_delete (p : Page) (v : ResultsView.t) :
  let results := studentResults (app p) in
  let rows := ResultsView.paginatedResults results v in
  let v1 := ResultsView.handleSelectAll results true v in
  let after := studentResults (app (fst (ResultsView.deleteSelected true p v1))) in
  (∀ r, In r after ↔ In r results ∧ ¬ In (id r) (map id rows)) ∧
  sublist after results ∧
  (∀ r, In r rows → ¬ In r after) ∧
  ResultsView.selectedIds (snd (ResultsView.deleteSelected true p v1)) = ∅ ∧
  ResultsView.deleteSelected false p v1 = (p, v1).
Proof.
  cbv zeta. set (results := studentResults (app p)).
  set (v1 := ResultsView.handleSelectAll results true v).
  assert (Hin : ∀ r,
    In r (studentResults (app (fst (ResultsView.deleteSelected true p v1)))) ↔
    In r results ∧ ¬ In (id r) (map id (ResultsView.paginatedResults results v))).
  { intros r. unfold ResultsView.deleteSelected.
    destruct (decide (ResultsView.selectedIds v1 = ∅)) as [He|Hne]; cbn [fst].
    - rewrite (selectAll_empty results v He). cbn. fold results. tauto.
    - unfold handleDeleteResults. rewrite results_of_update. cbn [set_results studentResults].
      fold results.
      rewrite (Removes_In _ _ _ (deleteResults_Removes _ results) r).
      unfold v1. now rewrite In_elements_selectAll. }
  split; [exact Hin|]. split; [|split; [|split]].
  - unfold ResultsView.deleteSelected.
    destruct (decide (ResultsView.selectedIds v1 = ∅)) as [He|Hne]; cbn [fst].
    + reflexivity.
    + unfold handleDeleteResults. rewrite results_of_update. cbn [set_results studentResults].
      apply (Removes_sublist (elements (ResultsView.selectedIds v1))).
      apply deleteResults_Removes.
  - intros r Hr Hafter. apply Hin in Hafter as [_ Hn]. apply Hn. now apply in_map.
  - unfold ResultsView.deleteSelected.
    destruct (decide (ResultsView.selectedIds v1 = ∅)) as [He|Hne]; [exact He|reflexivity].
  - unfold ResultsView.deleteSelected. now destruct (decide _).
Qed.

(** X10. "Select all" then Approve sets every result whose id is on the
    displayed page to 'Complete' with confidence 1 and changes nothing
    else: the list keeps its length and order, every row of the page is in
    it in its approved form, and the selection is empty afterwards. *)
Theorem select_all_then_approve (p : Page) (v : ResultsView.t) :
  let results := studentResults (app p) in
  let rows := ResultsView.paginatedResults results v in
  let v1 := ResultsView.handleSelectAll results true v in
  let after := studentResults (app (fst (ResultsView.approveSelected p v1))) in
  Forall2 (Approved (map id rows)) results after ∧
  (∀ r, In r rows → In (approve r) after) ∧
  (∀ r, In r after → In (id r) (map id rows) →
        status r = Complete ∧ confidence r = 1%Q) ∧
  ResultsView.selectedIds (snd (ResultsView.approveSelected p v1)) = ∅.
Proof.
  cbv zeta. set (results := studentResults (app p)).
  set (rows := ResultsView.paginatedResults results v).
  set (v1 := ResultsView.handleSelectAll results true v).
  assert (Hafter : studentResults (app (fst (ResultsView.approveSelected p v1)))
                   = approveResults (map id rows) results).
  { unfold ResultsView.approveSelected.
    destruct (decide (ResultsView.selectedIds v1 = ∅)) as [He|Hne]; cbn [fst].
    - fold results. unfold rows. rewrite (selectAll_empty results v He). cbn.
      unfold approveResults. cbn. symmetry. apply List.map_id.
    - unfold handleApproveResults. rewrite results_of_update.
      cbn [set_results studentResults]. fold results.
      unfold approveResults. apply List.map_ext. intros r.
      destruct (decide (id r ∈ _)) as [H1|H1];
        destruct (decide (id r ∈ _)) as [H2|H2]; try reflexivity; exfalso.
      + apply H2. rewrite elem_of_list_to_set, list_elem_of_In in H1 |- *.
        unfold v1 in H1. now apply In_elements_selectAll in H1.
      + apply H1. rewrite elem_of_list_to_set, list_elem_of_In in H2 |- *.
        unfold v1. now apply In_elements_selectAll. }
  rewrite Hafter. split; [apply approveResults_Forall2|]. split; [|split].
  - intros r Hr. unfold approveResults. apply in_map_iff. exists r. split.
    + destruct (decide (id r ∈ _)) as [H|H]; [reflexivity|].
      exfalso. apply H. apply elem_of_list_to_set, list_elem_of_In. now apply in_map.
    + now apply (paginatedResults_In results v).
  - intros r Hr Hid. unfold approveResults in Hr. apply in_map_iff in Hr as (r0 & <- & _).
    destruct (decide (id r0 ∈ _)) as [H|H]; [cbn; auto|].
    exfalso. apply H. now apply elem_of_list_to_set, list_elem_of_In.
  - unfold ResultsView.approveSelected.
    destruct (decide (ResultsView.selectedIds v1 = ∅)) as [He|Hne]; [exact He|reflexivity].
Qed.

(** ** Analytics: average score and pass rate *)

Lemma foldl_sum_scores results acc :
  foldl (fun sum r => sum + totalScore r) acc results = acc + sum_scores results.
Proof.
  revert acc. induction results as [|r l IH]; intros acc; cbn [foldl sum_scores foldr].
  - lia.
  - rewrite IH. unfold sum_scores. lia.
Qed.

Lemma sum_scores_bounds lo hi results :
  Forall (fun r => lo ≤ totalScore r ≤ hi) results →
  lo * Z.of_nat (length results) ≤ sum_scores results ≤ hi * Z.of_nat (length results).
Proof.
  induction 1 as [|r l Hr _ IH]; cbn [sum_scores foldr length]; [lia|].
  unfold sum_scores in IH. lia.
Qed.

Lemma passed_bounds results : 0 ≤ passed results ≤ Z.of_nat (length results).
Proof.
  unfold passed. pose proof (List.filter_length_le (fun r => 50 <=? totalScore r) results).
  lia.
Qed.

Lemma passed_all results :
  passed results = Z.of_nat (length results) ↔ Forall (fun r => 50 ≤ totalScore r) results.
Proof.
  unfold passed. induction results as [|r l IH]; cbn [List.filter length].
  - split; [constructor|reflexivity].
  - pose proof (List.filter_length_le (fun r => 50 <=? totalScore r) l) as Hle.
    destruct (50 <=? totalScore r) eqn:E; cbn [length].
    + apply Z.leb_le in E. rewrite Forall_cons. split.
      * intros H. split; [exact E|]. apply IH. lia.
      * intros [_ H]. apply IH in H. lia.
    + apply Z.leb_gt in E. split; [lia|]. rewrite Forall_cons. lia.
Qed.

Lemma passed_none results :
  passed results = 0 ↔ Forall (fun r => totalScore r < 50) results.
Proof.
  unfold passed. induction results as [|r l IH]; cbn [List.filter length].
  - split; [constructor|reflexivity].
  - destruct (50 <=? totalScore r) eqn:E; cbn [length].
    + apply Z.leb_le in E. split; [lia|]. rewrite Forall_cons. lia.
    + apply Z.leb_gt in E. rewrite Forall_cons, <- IH. tauto.
Qed.

(** The average and the pass rate of a list that is not empty. *)
Lemma analytics_scores results :
  results ≠ [] →
  AnalyticsView.avgScore (AnalyticsView.analyticsData results)
  = (inject_Z (sum_scores results) / inject_Z (Z.of_nat (length results)))%Q ∧
  AnalyticsView.passRate (AnalyticsView.analyticsData results)
  = (inject_Z (passed results) / inject_Z (Z.of_nat (length results)) * 100)%Q.
Proof.
  destruct results as [|r l]; [congruence|]. intros _.
  unfold AnalyticsView.analyticsData. cbv zeta.
  cbn [AnalyticsView.avgScore AnalyticsView.passRate].
  rewrite foldl_sum_scores, Z.add_0_l. split; reflexivity.
Qed.

Lemma inject_Z_pos n : 0 < n → (0 < inject_Z n)%Q.
Proof. intros H. change 0%Q with (inject_Z 0). now rewrite <- Zlt_Qlt. Qed.

Lemma Qdiv_bounds (a n lo hi : Z) :
  0 < n → lo * n ≤ a ≤ hi * n →
  (inject_Z lo <= inject_Z a / inject_Z n <= inject_Z hi)%Q.
Proof.
  intros Hn [H1 H2].
  assert (Hq : (0 < inject_Z n)%Q) by (now apply inject_Z_pos).
  split.
  - apply Qle_shift_div_l; [exact Hq|]. rewrite <- inject_Z_mult, <- Zle_Qle. exact H1.
  - apply Qle_shift_div_r; [exact Hq|]. rewrite <- inject_Z_mult, <- Zle_Qle. exact H2.
Qed.

Lemma Qdiv_mult_cancel (a n : Z) :
  0 < n → (inject_Z a / inject_Z n * inject_Z n == inject_Z a)%Q.
Proof.
  intros Hn. field. intros H.
  assert (Hq : (0 < inject_Z n)%Q) by (now apply inject_Z_pos).
  rewrite H in Hq. now apply Qlt_irrefl in Hq.
Qed.

Lemma Qdiv_percent_eq (p n c : Z) :
  0 < n →
  (inject_Z p / inject_Z n * 100 == inject_Z c * 100)%Q ↔ p = c * n.
Proof.
  intros Hn. pose proof (inject_Z_pos n Hn) as Hq.
  assert (Hq' : ¬ (inject_Z n == 0)%Q).
  { intros H. rewrite H in Hq. now apply Qlt_irrefl in Hq. }
  split.
  - intros H. apply Qmult_inj_r in H; [|discriminate].
    apply inject_Z_injective. rewrite inject_Z_mult, <- H.
    symmetry. now apply Qdiv_mult_cancel.
  - intros ->. rewrite inject_Z_mult. field. exact Hq'.
Qed.

(** X11. The two headline numbers of the analytics page.  For no results
    both are 0 and the charts are empty.  Otherwise the average score
    times the number of results is the sum of the totals, so it lies
    between any two bounds that hold of every total; and the pass rate
    times the number of results is 100 times the number of results with a
    total of 50 or more, so it lies between 0 and 100, is 100 exactly when
    every result passes and 0 exactly when none does. *)
Theorem score_statistics (results : list StudentResult) :
  let d := AnalyticsView.analyticsData results in
  let n := inject_Z (Z.of_nat (length results)) in
  (results = [] →
   AnalyticsView.avgScore d = 0%Q ∧ AnalyticsView.passRate d = 0%Q ∧
   AnalyticsView.sectionAvgs d = [] ∧ AnalyticsView.questionDifficulty d = []) ∧
  (results ≠ [] →
   (AnalyticsView.avgScore d * n == inject_Z (sum_scores results))%Q ∧
   (∀ lo hi, Forall (fun r => lo ≤ totalScore r ≤ hi) results →
             (inject_Z lo <= AnalyticsView.avgScore d <= inject_Z hi)%Q) ∧
   (AnalyticsView.passRate d * n == 100 * inject_Z (passed results))%Q ∧
   (0 <= AnalyticsView.passRate d <= 100)%Q ∧
   ((AnalyticsView.passRate d == 100)%Q ↔ Forall (fun r => 50 ≤ totalScore r) results) ∧
   ((AnalyticsView.passRate d == 0)%Q ↔ Forall (fun r => totalScore r < 50) results)).
Proof.
  cbv zeta. split.
  - intros ->. cbn. auto.
  - intros Hne. destruct (analytics_scores results Hne) as [-> ->].
    assert (Hn : 0 < Z.of_nat (length results)).
    { destruct results; [congruence|cbn [length]; lia]. }
    pose proof (passed_bounds results) as Hp.
    assert (Hq : (0 < inject_Z (Z.of_nat (length results)))%Q)
      by (now apply inject_Z_pos).
    assert (Hq' : ¬ (inject_Z (Z.of_nat (length results)) == 0)%Q).
    { intros H. rewrite H in Hq. now apply Qlt_irrefl in Hq. }
    split; [now apply Qdiv_mult_cancel|]. split; [|split; [|split; [|split]]].
    + intros lo hi H. apply Qdiv_bounds; [exact Hn|]. now apply sum_scores_bounds.
    + field. exact Hq'.
    + destruct (Qdiv_bounds (passed results) (Z.of_nat (length results)) 0 1 Hn
                  ltac:(lia)) as [H0 H1].
      change (inject_Z 0) with 0%Q in H0. change (inject_Z 1) with 1%Q in H1.
      split; nra.
    + rewrite <- passed_all.
      rewrite <- (Z.mul_1_l (Z.of_nat (length results))) at 2.
      rewrite <- (Qdiv_percent_eq _ _ 1 Hn). reflexivity.
    + rewrite <- passed_none.
      change (passed results = 0) with (passed results = 0 * Z.of_nat (length results)).
      rewrite <- (Qdiv_percent_eq _ _ 0 Hn). reflexivity.
Qed.

(** ** Analytics: the section averages *)

Lemma In_SECTIONS s :
  In s SECTIONS →
  s = "Data Analytics"%string ∨ s = "AI/ML"%string ∨ s = "Data Science"%string ∨
  s = "Generative AI"%string ∨ s = "Statistics"%string.
Proof. cbn. intuition auto. Qed.

Ltac lookup_key :=
  repeat (rewrite lookup_insert_eq || (rewrite lookup_insert_ne by discriminate)).

(** One result adds its score to the total of each section. *)
Lemma total_of_add_scores totals r s :
  In s SECTIONS →
  AnalyticsView.total_of (AnalyticsView.add_scores totals r) s
  = AnalyticsView.num_add (AnalyticsView.total_of totals s) (AnalyticsView.score_of r s).
Proof.
  intros Hs. unfold AnalyticsView.add_scores, SECTIONS. cbn [foldl].
  unfold AnalyticsView.total_of.
  destruct (In_SECTIONS s Hs) as [->|[->|[->|[->| ->]]]]; lookup_key; reflexivity.
Qed.

Lemma total_of_foldl results : ∀ totals s,
  In s SECTIONS →
  AnalyticsView.total_of (foldl AnalyticsView.add_scores totals results) s
  = foldl (fun acc r => AnalyticsView.num_add acc (AnalyticsView.score_of r s))
          (AnalyticsView.total_of totals s) results.
Proof.
  induction results as [|r l IH]; intros totals s Hs; cbn [foldl]; [reflexivity|].
  now rewrite IH, total_of_add_scores.
Qed.

Lemma total_of_sectionTotals0 s :
  In s SECTIONS → AnalyticsView.total_of AnalyticsView.sectionTotals0 s = Fin 0.
Proof.
  intros Hs. unfold AnalyticsView.total_of, AnalyticsView.sectionTotals0.
  destruct (In_SECTIONS s Hs) as [->|[->|[->|[->| ->]]]]; lookup_key; reflexivity.
Qed.

Lemma inject_Z_plus_eq a b : (inject_Z a + inject_Z b)%Q = inject_Z (a + b).
Proof. unfold Qplus, inject_Z. cbn. now rewrite !Z.mul_1_r. Qed.

Lemma section_sum_cons s r l :
  section_sum s (r :: l) = default 0 (sectionScores r !! s) + section_sum s l.
Proof. reflexivity. Qed.

(** With every score present the total is the finite sum. *)
Lemma foldl_scores_present s results : ∀ acc,
  Forall (fun r => is_Some (sectionScores r !! s)) results →
  foldl (fun acc r => AnalyticsView.num_add acc (AnalyticsView.score_of r s))
        (Fin (inject_Z acc)) results
  = Fin (inject_Z (acc + section_sum s results)).
Proof.
  induction results as [|r l IH]; intros acc H.
  - cbn [foldl]. unfold section_sum. cbn [foldr]. now rewrite Z.add_0_r.
  - apply Forall_cons in H as [[n Hn] Hl].
    rewrite section_sum_cons. cbn [foldl].
    unfold AnalyticsView.score_of at 2. rewrite Hn.
    change (default 0 (Some n)) with n.
    cbn [AnalyticsView.num_add]. rewrite inject_Z_plus_eq, (IH _ Hl).
    do 2 f_equal. lia.
Qed.

(** A missing score makes the total NaN, whatever else is added. *)
Lemma foldl_scores_NaN s results :
  foldl (fun acc r => AnalyticsView.num_add acc (AnalyticsView.score_of r s)) NaN results
  = NaN.
Proof. induction results as [|r l IH]; cbn [foldl]; [reflexivity|exact IH]. Qed.

Lemma foldl_scores_missing s results : ∀ acc r,
  In r results → sectionScores r !! s = None →
  foldl (fun acc r => AnalyticsView.num_add acc (AnalyticsView.score_of r s)) acc results
  = NaN.
Proof.
  induction results as [|r0 l IH]; intros acc r Hr Hs; [destruct Hr|].
  cbn [foldl]. destruct Hr as [->|Hr].
  - unfold AnalyticsView.score_of at 2. rewrite Hs.
    replace (AnalyticsView.num_add acc NaN) with NaN by (now destruct acc).
    apply foldl_scores_NaN.
  - now apply (IH _ r).
Qed.

Lemma analytics_sections results :
  results ≠ [] →
  AnalyticsView.sectionAvgs (AnalyticsView.analyticsData results)
  = map (fun s =>
           (s, AnalyticsView.num_div_pos
                 (foldl (fun acc r => AnalyticsView.num_add acc (AnalyticsView.score_of r s))
                        (Fin 0) results)
                 (inject_Z (Z.of_nat (length results)))))
        SECTIONS.
Proof.
  destruct results as [|r l]; [congruence|]. intros _.
  unfold AnalyticsView.analyticsData. cbv zeta. cbn [AnalyticsView.sectionAvgs].
  apply map_ext_in. intros s Hs.
  now rewrite total_of_foldl, total_of_sectionTotals0.
Qed.

(** Summing by section and then over the results, or the other way. *)
Lemma section_sums_total results :
  Forall total_is_sum results →
  section_sum "Data Analytics" results + section_sum "AI/ML" results
  + section_sum "Data Science" results + section_sum "Generative AI" results
  + section_sum "Statistics" results = sum_scores results.
Proof.
  induction 1 as [|r l Hr _ IH]; [reflexivity|].
  rewrite !section_sum_cons.
  change (sum_scores (r :: l)) with (totalScore r + sum_scores l).
  rewrite Hr. unfold SECTIONS. cbn [foldr]. lia.
Qed.

Lemma sectionAvgs_present results :
  results ≠ [] → Forall has_scores results →
  AnalyticsView.sectionAvgs (AnalyticsView.analyticsData results)
  = map (fun s => (s, Fin (inject_Z (section_sum s results)
                           / inject_Z (Z.of_nat (length results))))) SECTIONS.
Proof.
  intros Hne Hhas. rewrite (analytics_sections results Hne).
  apply map_ext_in. intros s Hs. f_equal.
  change (Fin 0) with (Fin (inject_Z 0)).
  rewrite foldl_scores_present; [reflexivity|].
  eapply Forall_impl; [exact Hhas|]. intros r Hr. now apply Hr.
Qed.

Lemma section_sum_bounds lo hi s results :
  In s SECTIONS →
  Forall (fun r => ∀ s, In s SECTIONS →
                        lo ≤ default 0 (sectionScores r !! s) ≤ hi) results →
  lo * Z.of_nat (length results) ≤ section_sum s results
  ≤ hi * Z.of_nat (length results).
Proof.
  intros Hs Hb. induction Hb as [|r l Hr _ IH]; [cbn; lia|].
  rewrite section_sum_cons. cbn [length]. specialize (Hr s Hs). lia.
Qed.

Lemma sectionAvgs_bounds lo hi results :
  results ≠ [] →
  Forall (fun r => ∀ s, In s SECTIONS →
                        lo ≤ default 0 (sectionScores r !! s) ≤ hi) results →
  Forall (fun sa => ∃ q, snd sa = Fin q ∧ (inject_Z lo <= q <= inject_Z hi)%Q)
         (map (fun s => (s, Fin (inject_Z (section_sum s results)
                                 / inject_Z (Z.of_nat (length results))))) SECTIONS).
Proof.
  intros Hne Hb. apply List.Forall_map, List.Forall_forall. intros s Hs.
  cbn [snd]. eexists. split; [reflexivity|].
  apply Qdiv_bounds; [|now apply section_sum_bounds].
  destruct results; [congruence|cbn [length]; lia].
Qed.

Lemma sum_avgs_present results :
  results ≠ [] → Forall total_is_sum results →
  (sum_avgs (map (fun s => (s, Fin (inject_Z (section_sum s results)
                                    / inject_Z (Z.of_nat (length results))))) SECTIONS)
   == inject_Z (sum_scores results) / inject_Z (Z.of_nat (length results)))%Q.
Proof.
  intros Hne Hsum. rewrite <- (section_sums_total results Hsum).
  unfold SECTIONS, sum_avgs. cbn [map foldr snd].
  rewrite !inject_Z_plus. field.
  assert (Hn : 0 < Z.of_nat (length results)).
  { destruct results; [congruence|cbn [length]; lia]. }
  intros H. pose proof (inject_Z_pos _ Hn) as Hq. rewrite H in Hq.
  now apply Qlt_irrefl in Hq.
Qed.


(** ** Analytics: the most difficult questions *)

Lemma counts_of_ext f g :
  (∀ k, (k < 50)%nat → f k = g k) → counts_of f = counts_of g.
Proof.
  intros H. unfold counts_of. apply map_ext_in. intros k Hk.
  apply in_seq in Hk. now rewrite H by lia.
Qed.

Lemma counts_of_lookup f j :
  counts_of f !! j
  = if (j <? 50)%nat then Some (AnalyticsView.Count (Fin (inject_Z (f j)))) else None.
Proof.
  unfold counts_of. rewrite list_lookup_fmap.
  destruct (j <? 50)%nat eqn:E.
  - apply Nat.ltb_lt in E. now rewrite lookup_seq_lt by lia.
  - apply Nat.ltb_ge in E. now rewrite lookup_seq_ge by lia.
Qed.

Lemma increment_counts f i :
  i < 50 →
  AnalyticsView.increment (counts_of f) i
  = counts_of (fun k => if bool_decide (Z.of_nat k = i) then f k + 1 else f k).
Proof.
  intros Hi. unfold AnalyticsView.increment.
  destruct (i <? 0) eqn:E.
  - apply Z.ltb_lt in E. apply counts_of_ext. intros k _.
    rewrite bool_decide_eq_false_2 by lia. reflexivity.
  - apply Z.ltb_ge in E. cbv zeta.
    replace (length (counts_of f)) with 50%nat
      by (unfold counts_of; now rewrite length_map, length_seq).
    replace (Z.to_nat i <? 50)%nat with true by (symmetry; apply Nat.ltb_lt; lia).
    apply list_eq. intros j. rewrite counts_of_lookup.
    destruct (decide (j = Z.to_nat i)) as [->|Hj].
    + rewrite list_lookup_alter_eq, counts_of_lookup.
      replace (Z.to_nat i <? 50)%nat with true by (symmetry; apply Nat.ltb_lt; lia).
      rewrite bool_decide_eq_true_2 by lia.
      cbn [fmap option_fmap option_map AnalyticsView.bump AnalyticsView.num_add].
      change 1%Q with (inject_Z 1). now rewrite inject_Z_plus_eq.
    + rewrite list_lookup_alter_ne by congruence. rewrite counts_of_lookup.
      destruct (j <? 50)%nat; [|reflexivity].
      rewrite bool_decide_eq_false_2 by lia. reflexivity.
Qed.

Lemma missed_in_cons q a l :
  missed_in q (a :: l)
  = (if negb (isCorrect a) && (question a =? q) then 1 else 0) + missed_in q l.
Proof.
  unfold missed_in. cbn [List.filter].
  destruct (negb (isCorrect a) && (question a =? q)); cbn [length]; lia.
Qed.

Lemma missed_cons q r l :
  missed q (r :: l) = missed_in q (answers r) + missed q l.
Proof. reflexivity. Qed.

Lemma count_answers l : ∀ f,
  Forall (fun a => isCorrect a = false → question a ≤ 50) l →
  foldl (fun counts answer =>
           if isCorrect answer then counts
           else AnalyticsView.increment counts (question answer - 1))
        (counts_of f) l
  = counts_of (fun k => f k + missed_in (Z.of_nat k + 1) l).
Proof.
  induction l as [|a l IH]; intros f H; cbn [foldl].
  - apply counts_of_ext. intros k _. unfold missed_in. cbn. lia.
  - apply Forall_cons in H as [Ha Hl].
    destruct (isCorrect a) eqn:E.
    + rewrite (IH _ Hl). apply counts_of_ext. intros k _.
      rewrite missed_in_cons, E. cbn [negb andb]. lia.
    + rewrite increment_counts by (specialize (Ha eq_refl); lia).
      rewrite (IH _ Hl). apply counts_of_ext. intros k _.
      rewrite missed_in_cons, E. cbn [negb andb].
      destruct (question a =? Z.of_nat k + 1) eqn:Eq.
      * apply Z.eqb_eq in Eq. rewrite bool_decide_eq_true_2 by lia. lia.
      * apply Z.eqb_neq in Eq. rewrite bool_decide_eq_false_2 by lia. lia.
Qed.

Lemma count_results results : ∀ f,
  Forall answers_in_range results →
  foldl AnalyticsView.count_incorrect (counts_of f) results
  = counts_of (fun k => f k + missed (Z.of_nat k + 1) results).
Proof.
  induction results as [|r l IH]; intros f H; cbn [foldl].
  - apply counts_of_ext. intros k _. unfold missed. cbn. lia.
  - apply Forall_cons in H as [Hr Hl].
    unfold AnalyticsView.count_incorrect at 2. rewrite (count_answers _ _ Hr), (IH _ Hl).
    apply counts_of_ext. intros k _. rewrite missed_cons. lia.
Qed.

Lemma incorrectCounts_missed results :
  Forall answers_in_range results →
  AnalyticsView.incorrectCounts results
  = counts_of (fun k => missed (Z.of_nat k + 1) results).
Proof.
  intros H. unfold AnalyticsView.incorrectCounts.
  change (replicate 50 (AnalyticsView.Count (Fin 0))) with (counts_of (fun _ => 0)).
  rewrite (count_results _ _ H). apply counts_of_ext. intros k _. lia.
Qed.

(** The entries of the chart before they are sorted: a bar per question. *)
Lemma difficulty_bars results :
  Forall answers_in_range results →
  imap (AnalyticsView.difficulty (inject_Z (Z.of_nat (length results))))
       (AnalyticsView.incorrectCounts results)
  = map (fun q => Some (bar results q)) questions.
Proof.
  intros H. rewrite (incorrectCounts_missed results H).
  apply list_eq. intros j.
  rewrite list_lookup_imap, counts_of_lookup. unfold questions.
  rewrite !list_lookup_fmap.
  destruct (j <? 50)%nat eqn:E.
  - apply Nat.ltb_lt in E. rewrite lookup_seq_lt by lia. reflexivity.
  - apply Nat.ltb_ge in E. rewrite lookup_seq_ge by lia. reflexivity.
Qed.

Lemma omap_Some {A} (l : list A) : omap (fun x => x) (map Some l) = l.
Proof. induction l as [|x l IH]; [reflexivity|]. cbn. now rewrite IH. Qed.

Lemma sort_holes_full {A} (cmp : A → A → Z) (l : list A) :
  AnalyticsView.sort_holes cmp (map Some l) = map Some (Js.sort cmp l).
Proof.
  unfold AnalyticsView.sort_holes. cbv zeta.
  rewrite omap_Some, length_map, Nat.sub_diag. apply app_nil_r.
Qed.

Lemma sort_insert_map {A B} (g : A → B) (cmp : B → B → Z) x l :
  Js.sort_insert cmp (g x) (map g l)
  = map g (Js.sort_insert (fun a b => cmp (g a) (g b)) x l).
Proof.
  induction l as [|y l IH]; [reflexivity|]. cbn [map Js.sort_insert].
  destruct (0 <? cmp (g x) (g y)); cbn [map]; [now rewrite IH|reflexivity].
Qed.

Lemma sort_map {A B} (g : A → B) (cmp : B → B → Z) l :
  Js.sort cmp (map g l) = map g (Js.sort (fun a b => cmp (g a) (g b)) l).
Proof.
  induction l as [|x l IH]; [reflexivity|]. cbn [map Js.sort].
  now rewrite IH, sort_insert_map.
Qed.

Section Ranking.

Variable m : Z → Z.
Variable cmp : Z → Z → Z.
Hypothesis cmp_m : ∀ q q', (0 <? cmp q q') = (m q <? m q').

Let before (q q' : Z) : Prop := m q' < m q ∨ (m q' = m q ∧ q < q').

Lemma before_trans a b c : before a b → before b c → before a c.
Proof. unfold before. lia. Qed.

Lemma sort_insert_before x l :
  StronglySorted before l → Forall (fun y => x < y) l →
  StronglySorted before (Js.sort_insert cmp x l).
Proof.
  induction l as [|y l IH]; intros Hs Hx; cbn [Js.sort_insert].
  - repeat constructor.
  - apply StronglySorted_inv in Hs as [Hs Hy]. apply Forall_cons in Hx as [Hxy Hx].
    rewrite cmp_m. destruct (m x <? m y) eqn:E.
    + apply Z.ltb_lt in E. constructor; [now apply IH|].
      apply List.Forall_forall. intros z Hz.
      assert (Hz' : In z (x :: l)).
      { eapply Permutation_in; [apply sort_insert_perm|exact Hz]. }
      destruct Hz' as [<-|Hz'].
      * left. exact E.
      * now apply (proj1 (List.Forall_forall _ _) Hy).
    + apply Z.ltb_ge in E.
      assert (Hb : before x y) by (unfold before; lia).
      constructor; [now constructor|]. constructor; [exact Hb|].
      eapply Forall_impl; [exact Hy|]. intros z Hz. now apply (before_trans x y z).
Qed.

Lemma sort_before l :
  StronglySorted Z.lt l → StronglySorted before (Js.sort cmp l).
Proof.
  induction l as [|x l IH]; intros Hs; cbn [Js.sort]; [constructor|].
  apply StronglySorted_inv in Hs as [Hs Hx].
  apply sort_insert_before; [now apply IH|].
  apply List.Forall_forall. intros y Hy. apply sort_In in Hy.
  now apply (proj1 (List.Forall_forall _ _) Hx).
Qed.

End Ranking.

Lemma questions_sorted : StronglySorted Z.lt questions.
Proof.
  unfold questions.
  assert (H : ∀ n a, StronglySorted Z.lt (map (fun k => Z.of_nat k + 1) (seq a n))).
  { induction n as [|n IH]; intros a; cbn [seq map]; constructor; [apply IH|].
    apply List.Forall_map, List.Forall_forall. intros k Hk. apply in_seq in Hk. lia. }
  apply H.
Qed.

(** The comparison function on two bars looks at the counts. *)
Lemma by_incorrect_desc_bars results q q' :
  results ≠ [] →
  (0 <? AnalyticsView.by_incorrect_desc (bar results q) (bar results q'))
  = (missed q results <? missed q' results).
Proof.
  intros Hne.
  assert (Hn : 0 < Z.of_nat (length results)).
  { destruct results; [congruence|cbn [length]; lia]. }
  pose proof (inject_Z_pos _ Hn) as Hq.
  unfold AnalyticsView.by_incorrect_desc, bar.
  cbn [AnalyticsView.incorrect AnalyticsView.num_neg AnalyticsView.num_add
       AnalyticsView.num_sign].
  set (n := inject_Z (Z.of_nat (length results))) in *.
  assert (Hdiff : ((inject_Z (missed q' results) / n * 100
                    + - (inject_Z (missed q results) / n * 100))
                   == (inject_Z (missed q' results) - inject_Z (missed q results))
                      * (100 / n))%Q).
  { field. intros H. rewrite H in Hq. now apply Qlt_irrefl in Hq. }
  assert (Hpos : (0 < 100 / n)%Q) by (apply Qlt_shift_div_l; [exact Hq|lra]).
  destruct (missed q results <? missed q' results) eqn:E.
  - apply Z.ltb_lt in E. rewrite Zlt_Qlt in E.
    assert (Hgt : (0 < inject_Z (missed q' results) / n * 100
                       + - (inject_Z (missed q results) / n * 100))%Q).
    { rewrite Hdiff. generalize dependent (100 / n)%Q. intros c _ Hc. nra. }
    apply Qgt_alt in Hgt. now rewrite Hgt.
  - apply Z.ltb_ge in E. rewrite Zle_Qle in E.
    assert (Hle : (inject_Z (missed q' results) / n * 100
                   + - (inject_Z (missed q results) / n * 100) <= 0)%Q).
    { rewrite Hdiff. generalize dependent (100 / n)%Q. intros c _ Hc. nra. }
    apply Qle_alt in Hle.
    destruct (_ ?= 0)%Q eqn:C; [reflexivity|reflexivity|]. now elim Hle.
Qed.

(** The chart is the first ten of the sorted bars. *)
Lemma questionDifficulty_sorted results :
  results ≠ [] → Forall answers_in_range results →
  AnalyticsView.questionDifficulty (AnalyticsView.analyticsData results)
  = map (fun q => Some (bar results q))
        (firstn 10 (Js.sort (fun q q' => AnalyticsView.by_incorrect_desc
                                           (bar results q) (bar results q'))
                            questions)).
Proof.
  intros Hne Hrange. destruct results as [|r l]; [congruence|].
  unfold AnalyticsView.analyticsData. cbv zeta.
  cbn [AnalyticsView.questionDifficulty].
  rewrite (difficulty_bars (r :: l) Hrange).
  replace (map (fun q => Some (bar (r :: l) q)) questions)
    with (map Some (map (bar (r :: l)) questions)) by apply List.map_map.
  rewrite sort_holes_full, sort_map.
  change 10 with (0 + 10) at 1. rewrite slice_page by lia.
  change (Z.to_nat 0) with 0%nat.
  rewrite drop_0, !List.firstn_map, List.map_map. reflexivity.
Qed.

Lemma StronglySorted_app_inv {A} (R : A → A → Prop) l1 l2 :
  StronglySorted R (l1 ++ l2) → ∀ a b, In a l1 → In b l2 → R a b.
Proof.
  induction l1 as [|x l1 IH]; intros Hs a b Ha Hb; [destruct Ha|].
  cbn [app] in Hs. apply StronglySorted_inv in Hs as [Hs Hx].
  destruct Ha as [<-|Ha].
  - apply (proj1 (List.Forall_forall _ _) Hx). apply in_or_app. now right.
  - now apply IH.
Qed.

(** X13. The chart of the most difficult questions, for results none of
    whose incorrect answers is numbered above 50 (one numbered below 1 is
    not counted).  There is a ranking of the fifty questions in which a
    question comes before another when it was missed more often, or as
    often and it has the lower number; the chart shows the first ten of
    that ranking, each with the share of results that missed it, in
    percent; so every question left out ranks after every question shown. *)
Theorem hardest_questions (results : list StudentResult) :
  results ≠ [] →
  Forall answers_in_range results →
  ∃ ranking,
    Permutation ranking questions ∧
    StronglySorted (harder results) ranking ∧
    AnalyticsView.questionDifficulty (AnalyticsView.analyticsData results)
    = map (fun q => Some (bar results q)) (firstn 10 ranking) ∧
    length (AnalyticsView.questionDifficulty (AnalyticsView.analyticsData results))
    = 10%nat ∧
    ∀ q q', In q (firstn 10 ranking) → In q' (skipn 10 ranking) → harder results q q'.
Proof.
  intros Hne Hrange.
  set (cmp := fun q q' => AnalyticsView.by_incorrect_desc (bar results q) (bar results q')).
  exists (Js.sort cmp questions).
  assert (Hperm : Permutation (Js.sort cmp questions) questions) by apply sort_perm.
  assert (Hsorted : StronglySorted (harder results) (Js.sort cmp questions)).
  { apply (sort_before (fun q => missed q results) cmp).
    - intros q q'. now apply by_incorrect_desc_bars.
    - apply questions_sorted. }
  pose proof (questionDifficulty_sorted results Hne Hrange) as Hd. fold cmp in Hd.
  split; [exact Hperm|]. split; [exact Hsorted|]. split; [exact Hd|]. split.
  - rewrite Hd, length_map, List.length_firstn.
    rewrite (Permutation_length Hperm). reflexivity.
  - apply StronglySorted_app_inv. now rewrite List.firstn_skipn.
Qed.

(** ** Every result the application holds is as the generator makes them *)

Lemma generated_plausible now file index rng k :
  plausible (fst (generateMockResult now file index rng k)).
Proof.
  destruct (generateMockResult_blocks now file index rng k)
    as (b0 & b1 & b2 & b3 & b4 & r' & H0 & H1 & H2 & H3 & H4 & Hr
        & _ & Hans & Hsc & Htot & _).
  rewrite Hr. cbn [fst]. unfold plausible. rewrite Hans, Hsc, Htot.
  assert (Hlens : Forall (fun b : list AnswerDetail => length b = 10%nat)
                         [b0; b1; b2; b3; b4]).
  { repeat constructor; [apply H0|apply H1|apply H2|apply H3|apply H4]. }
  assert (Hsec : ∀ s b, nth_error [b0; b1; b2; b3; b4] s = Some b →
                        section_answers s (concat [b0; b1; b2; b3; b4]) = b).
  { intros s b Hs. unfold section_answers. now apply nth_block. }
  assert (Hb : ∀ sec b, block_ok sec b → 0 ≤ 2 * count_correct b ≤ 20).
  { intros sec b (Hl & _). pose proof (count_correct_bounds b). lia. }
  pose proof (Hb _ _ H0). pose proof (Hb _ _ H1). pose proof (Hb _ _ H2).
  pose proof (Hb _ _ H3). pose proof (Hb _ _ H4).
  rewrite (Hsec 0%nat b0 eq_refl), (Hsec 1%nat b1 eq_refl),
    (Hsec 2%nat b2 eq_refl), (Hsec 3%nat b3 eq_refl), (Hsec 4%nat b4 eq_refl).
  split; [|split; [|split; [|split]]].
  - cbn [concat]. rewrite !length_app.
    destruct H0 as (-> & _), H1 as (-> & _), H2 as (-> & _), H3 as (-> & _),
             H4 as (-> & _). reflexivity.
  - intros i a Hi.
    assert (Hq : map question (concat [b0; b1; b2; b3; b4])
                 = map (fun j => Z.of_nat j + 1) (seq 0 50)).
    { cbn [concat]. rewrite !map_app.
      destruct H0 as (_ & _ & ->), H1 as (_ & _ & ->), H2 as (_ & _ & ->),
               H3 as (_ & _ & ->), H4 as (_ & _ & ->). reflexivity. }
    split.
    + pose proof (map_nth_error question _ _ Hi) as Hm. rewrite Hq in Hm.
      rewrite nth_error_map, nth_error_seq in Hm.
      destruct (i <? 50)%nat; [|discriminate]. cbn in Hm. injection Hm as <-. lia.
    + assert (Hall : Forall answer_ok (concat [b0; b1; b2; b3; b4])).
      { cbn [concat]. rewrite !Forall_app.
        repeat split; [apply H0|apply H1|apply H2|apply H3|apply H4|constructor]. }
      eapply (proj1 (List.Forall_forall _ _) Hall), nth_error_In; eassumption.
  - intros s section Hs. unfold SECTIONS in Hs.
    unfold SECTIONS. cbn [zip zip_with foldl fst snd].
    destruct s as [|[|[|[|[|s]]]]]; [| | | | |destruct s; discriminate];
      injection Hs as <-.
    + rewrite (Hsec 0%nat b0 eq_refl). split; [|assumption]. lookup_key. reflexivity.
    + rewrite (Hsec 1%nat b1 eq_refl). split; [|assumption]. lookup_key. reflexivity.
    + rewrite (Hsec 2%nat b2 eq_refl). split; [|assumption]. lookup_key. reflexivity.
    + rewrite (Hsec 3%nat b3 eq_refl). split; [|assumption]. lookup_key. reflexivity.
    + rewrite (Hsec 4%nat b4 eq_refl). split; [|assumption]. lookup_key. reflexivity.
  - cbn [foldr]. lia.
  - cbn [foldr]. lia.
Qed.

Lemma plausible_approve r : plausible r → plausible (approve r).
Proof. intros H. exact H. Qed.

Lemma plausible_reparsed r : plausible r → plausible (reparsed r).
Proof. intros H. exact H. Qed.

Lemma Reachable_plausible p : Reachable p → Forall plausible (studentResults (app p)).
Proof.
  apply Reachable_results.
  - apply generated_plausible.
  - apply plausible_approve.
  - apply plausible_reparsed.
Qed.

(** What the analytics needs of a plausible result. *)
Lemma plausible_scores r s :
  plausible r → In s SECTIONS →
  ∃ n, sectionScores r !! s = Some n ∧ 0 ≤ n ≤ 20.
Proof.
  intros (_ & _ & Hsc & _) Hs. apply In_nth_error in Hs as [i Hi].
  destruct (Hsc i s Hi) as [-> Hb]. eauto.
Qed.

Lemma plausible_has_scores r : plausible r → has_scores r.
Proof.
  intros H s Hs. destruct (plausible_scores r s H Hs) as (n & -> & _). eauto.
Qed.

Lemma plausible_total_is_sum r : plausible r → total_is_sum r.
Proof.
  intros (_ & _ & Hsc & Htot & _). unfold total_is_sum, SECTIONS. cbn [foldr].
  rewrite (proj1 (Hsc 0%nat _ eq_refl)), (proj1 (Hsc 1%nat _ eq_refl)),
    (proj1 (Hsc 2%nat _ eq_refl)), (proj1 (Hsc 3%nat _ eq_refl)),
    (proj1 (Hsc 4%nat _ eq_refl)).
  change (default 0 (Some ?x)) with x. cbn [default from_option id]. lia.
Qed.

Lemma plausible_questions r : plausible r → map question (answers r) = questions.
Proof.
  intros (Hlen & Hq & _). unfold questions.
  apply nth_error_ext. intros i.
  rewrite !nth_error_map, nth_error_seq.
  destruct (nth_error (answers r) i) as [a|] eqn:E.
  - cbn [option_map]. destruct (Hq i a E) as [-> _].
    assert (Hi : (i < 50)%nat) by (rewrite <- Hlen; apply nth_error_Some; congruence).
    apply Nat.ltb_lt in Hi. now rewrite Hi.
  - apply nth_error_None in E. rewrite Hlen in E.
    apply Nat.ltb_ge in E. now rewrite E.
Qed.

Lemma plausible_in_range r : plausible r → answers_in_range r.
Proof.
  intros H. pose proof (plausible_questions r H) as Hq.
  unfold answers_in_range. apply List.Forall_forall. intros a Ha _.
  assert (Hin : In (question a) questions) by (rewrite <- Hq; now apply in_map).
  unfold questions in Hin. apply in_map_iff in Hin as (k & <- & Hk).
  apply in_seq in Hk. lia.
Qed.

(** A question occurs at most once among the fifty. *)
Lemma filter_eq_sorted (q : Z) l :
  StronglySorted Z.lt l → (length (List.filter (fun x => (x =? q)%Z) l) ≤ 1)%nat.
Proof.
  induction 1 as [|x l Hs IH Hx]; cbn [List.filter]; [cbn; lia|].
  destruct (x =? q) eqn:E; [|exact IH].
  apply Z.eqb_eq in E. subst x. cbn [length].
  replace (List.filter (fun x => x =? q) l) with (@nil Z); [cbn; lia|].
  symmetry. clear -Hx. induction Hx as [|y l Hy _ IH]; [reflexivity|].
  cbn [List.filter]. replace (y =? q) with false by (symmetry; apply Z.eqb_neq; lia).
  exact IH.
Qed.

Lemma missed_in_le q l :
  missed_in q l ≤ Z.of_nat (length (List.filter (fun x => x =? q) (map question l))).
Proof.
  induction l as [|a l IH]; [unfold missed_in; cbn; lia|].
  rewrite missed_in_cons. cbn [map List.filter].
  destruct (question a =? q); rewrite ?andb_false_r; cbn [length];
    destruct (negb (isCorrect a) && true); lia.
Qed.

Lemma plausible_missed_in q r : plausible r → 0 ≤ missed_in q (answers r) ≤ 1.
Proof.
  intros H. split; [unfold missed_in; lia|].
  pose proof (missed_in_le q (answers r)) as Hle.
  rewrite (plausible_questions r H) in Hle.
  pose proof (filter_eq_sorted q questions questions_sorted). lia.
Qed.

Lemma plausible_missed q results :
  Forall plausible results → 0 ≤ missed q results ≤ Z.of_nat (length results).
Proof.
  induction 1 as [|r l Hr _ IH]; [cbn; lia|].
  rewrite missed_cons. cbn [length]. pose proof (plausible_missed_in q r Hr). lia.
Qed.

(** X14. Every result the application ever holds is as the generator
    makes them, also after it was approved, after others were deleted and
    after a reload: fifty answers numbered from 1 and marked consistently,
    two points per correct answer in each section, and the five section
    scores adding up to a total between 0 and 100. *)
Theorem reachable_results_plausible (p : Page) :
  Reachable p →
  Forall plausible (studentResults (app p)) ∧
  (∀ r, In r (studentResults (app p)) →
        map question (answers r) = questions ∧
        (∀ s, In s SECTIONS → ∃ n, sectionScores r !! s = Some n ∧ 0 ≤ n ≤ 20) ∧
        totalScore r
        = foldr (fun section acc => default 0 (sectionScores r !! section) + acc)
                0 SECTIONS ∧
        0 ≤ totalScore r ≤ 100).
Proof.
  intros H. pose proof (Reachable_plausible p H) as Hp.
  split; [exact Hp|]. intros r Hr.
  apply (proj1 (List.Forall_forall _ _) Hp) in Hr.
  split; [now apply plausible_questions|]. split; [|split].
  - intros s Hs. now apply plausible_scores.
  - now apply plausible_total_is_sum.
  - apply Hr.
Qed.

Lemma reachable_results_plausible_witness :
  Reachable sample_page ∧ Forall plausible (studentResults (app sample_page)).
Proof.
  exact (conj sample_page_Reachable
           (proj1 (reachable_results_plausible sample_page sample_page_Reachable))).
Defined.


(** *** The sample run, on the analytics page *)

Lemma sample_page_results : studentResults (app sample_page) = sample_results.
Proof. exact (proj1 (save_then_reload sample_results)). Qed.

Lemma sample_results_plausible : Forall plausible sample_results.
Proof.
  rewrite <- sample_page_results. apply Reachable_plausible, sample_page_Reachable.
Qed.

Lemma sample_results_nonempty : sample_results ≠ [].
Proof. intros H. apply (f_equal (@length _)) in H. vm_compute in H. discriminate H. Qed.

Lemma sample_page_nonempty : studentResults (app sample_page) ≠ [].
Proof. rewrite sample_page_results. apply sample_results_nonempty. Qed.

Lemma sample_results_answers : Forall answers_in_range sample_results.
Proof.
  eapply Forall_impl; [apply sample_results_plausible|apply plausible_in_range].
Qed.


Lemma hardest_questions_witness :
  sample_results ≠ [] ∧ Forall answers_in_range sample_results ∧
  ∃ ranking,
    Permutation ranking questions ∧
    StronglySorted (harder sample_results) ranking ∧
    AnalyticsView.questionDifficulty (AnalyticsView.analyticsData sample_results)
    = map (fun q => Some (bar sample_results q)) (firstn 10 ranking) ∧
    length (AnalyticsView.questionDifficulty (AnalyticsView.analyticsData sample_results))
    = 10%nat ∧
    ∀ q q', In q (firstn 10 ranking) → In q' (skipn 10 ranking) →
            harder sample_results q q'.
Proof.
  exact (conj sample_results_nonempty
           (conj sample_results_answers
              (hardest_questions sample_results sample_results_nonempty
                 sample_results_answers))).
Defined.


(** ** The queue during a run *)

(** What a call of [updateProgress] shows for the file it works on. *)
Lemma updateProgress_shown env d i st c pr :
  st = Dashboard.errorStages ∨ st = Dashboard.okStages →
  (c < length st - 1)%nat →
  (i < length (Dashboard.files d))%nat →
  let pr1 := (pr + Dashboard.draws env (Dashboard.cursor d) * 15)%Q in
  Dashboard.processedFiles (Dashboard.updateProgress env i st c pr d)
  = alter (Dashboard.with_status
             (nth (if Qle_bool 100 pr1 then S c else c) st pending)
             (if Qle_bool 100 pr1 then 0%Q else pr1))
          i (Dashboard.processedFiles d).
Proof.
  intros Hst Hc Hlt.
  destruct (nth_error (Dashboard.files d) i) as [f0|] eqn:Hf0;
    [|apply nth_error_None in Hf0; lia].
  unfold Dashboard.updateProgress. cbv zeta. rewrite <- imap_update_alter.
  destruct (Qle_bool 100 (pr + Dashboard.draws env (Dashboard.cursor d) * 15));
    destruct Hst as [-> | ->]; unfold Dashboard.errorStages, Dashboard.okStages in *;
    cbn [length Nat.sub] in Hc;
    (destruct c as [|[|[|c]]]; try lia);
    cbn [length Nat.sub Nat.ltb Nat.leb nth Dashboard.is_complete Dashboard.is_error orb];
    rewrite ?Hf0;
    try (destruct (generateMockResult _ _ _ _ _) as [r k2]);
    reflexivity.
Qed.

(** The stage a file is shown in while it is worked on is not a final
    one, and the stage after the last but one is. *)
Lemma stage_not_done st c f :
  st = Dashboard.errorStages ∨ st = Dashboard.okStages →
  (c < length st - 1)%nat →
  OMRFile.status f = nth c st pending →
  Dashboard.is_done f = false ∧ Dashboard.in_stage f = true.
Proof.
  intros Hst Hc Hf. unfold Dashboard.is_done, Dashboard.in_stage. rewrite Hf.
  destruct Hst as [-> | ->]; unfold Dashboard.errorStages, Dashboard.okStages in *;
    cbn [length Nat.sub] in Hc; (destruct c as [|[|[|c]]]; try lia); auto.
Qed.

Lemma stage_done st c f :
  st = Dashboard.errorStages ∨ st = Dashboard.okStages →
  (c < length st - 1)%nat → (S c <? length st - 1)%nat = false →
  OMRFile.status f = nth (S c) st pending →
  Dashboard.is_done f = true.
Proof.
  intros Hst Hc Hlast Hf. unfold Dashboard.is_done. rewrite Hf.
  destruct Hst as [-> | ->]; unfold Dashboard.errorStages, Dashboard.okStages in *;
    cbn [length Nat.sub] in Hc, Hlast;
    (destruct c as [|[|[|c]]]; try lia); try discriminate Hlast; auto.
Qed.

Lemma phase_of_RunInv env d :
  RunInv env d →
  (idx_of d ≤ length (Dashboard.processedFiles d))%nat ∧
  match Dashboard.task d with
  | Dashboard.CallUpdateProgress i st c _ =>
      (i < length (Dashboard.files d))%nat ∧
      (st = Dashboard.errorStages ∨ st = Dashboard.okStages) ∧
      (c < length st - 1)%nat
  | Dashboard.Finished => Dashboard.delivered d ≠ None
  | _ => Dashboard.delivered d = None
  end ∧
  (Dashboard.delivered d ≠ None → Dashboard.task d = Dashboard.Finished).
Proof.
  intros (Hlen & _ & idx & Hph & _). unfold phase_ok in Hph. unfold idx_of.
  rewrite Hlen.
  destruct (Dashboard.task d) as [i|i st c p| |].
  - destruct Hph as (_ & Hle & Hdel). split; [lia|]. split; [exact Hdel|].
    intros H. now elim H.
  - destruct Hph as (_ & Hlt & Hst & Hc & Hdel). split; [lia|]. split; [auto|].
    intros H. now elim H.
  - destruct Hph as (_ & Hdel). split; [lia|]. split; [exact Hdel|].
    intros H. now elim H.
  - destruct Hph as (_ & Hdel). split; [lia|]. split; [|reflexivity].
    rewrite Hdel. discriminate.
Qed.

Lemma take_alter_at {A} (g : A → A) i (l : list A) : take i (alter g i l) = take i l.
Proof.
  revert i. induction l as [|x l IH]; intros [|i]; try reflexivity.
  cbn. now rewrite IH.
Qed.

Lemma drop_alter_after {A} (g : A → A) i n (l : list A) :
  (i < n)%nat → drop n (alter g i l) = drop n l.
Proof.
  revert i n. induction l as [|x l IH]; intros [|i] [|n] H; try reflexivity; try lia.
  cbn. apply IH. lia.
Qed.

Lemma QueueInv_init fs : QueueInv (Dashboard.init fs).
Proof.
  assert (Hall : Forall (fun f => OMRFile.status f = uploading)
                        (Dashboard.processedFiles (Dashboard.init fs))).
  { cbn [Dashboard.init Dashboard.processedFiles].
    apply List.Forall_map, List.Forall_forall. intros f _. reflexivity. }
  unfold QueueInv, idx_of. cbn [Dashboard.init Dashboard.task].
  split; [constructor|]. split; [now apply Forall_drop|].
  intros f Hf. left. apply list_elem_of_lookup_2 in Hf.
  now apply (proj1 (Forall_forall _ _) Hall).
Qed.

Lemma QueueInv_step env d :
  RunInv env d → QueueInv d → QueueInv (Dashboard.step env d).
Proof.
  intros HI (Hdone & Hwait & Hcur).
  destruct (phase_of_RunInv env d HI) as (Hidx & Hph & _).
  unfold Dashboard.step.
  destruct (Dashboard.task d) as [i|i st c pr| |] eqn:Ht; unfold idx_of in *;
    rewrite ?Ht in *.
  - (* processFile *)
    unfold Dashboard.processFile.
    destruct (Nat.leb_spec (length (Dashboard.files d)) i) as [Hge|Hlt];
      unfold QueueInv, idx_of;
      cbn [Dashboard.task Dashboard.processedFiles Dashboard.files].
    + assert (Hlen : length (Dashboard.processedFiles d) = length (Dashboard.files d))
        by apply HI.
      assert (Hi : i = length (Dashboard.files d)) by lia. subst i.
      split; [exact Hdone|]. split; [exact Hwait|].
      intros f Hf. apply lookup_lt_Some in Hf. lia.
    + split; [exact Hdone|]. split; [exact Hwait|].
      intros f Hf. left. destruct (Hcur f Hf) as [H|(? & ? & ? & ? & H & _)];
        [exact H|discriminate H].
  - (* updateProgress *)
    destruct Hph as (Hlt & Hst & Hc).
    pose proof (updateProgress_task env d i st c pr Hst Hc Hlt) as Htask.
    pose proof (updateProgress_shown env d i st c pr Hst Hc Hlt) as Hshown.
    cbv zeta in Htask, Hshown.
    unfold QueueInv, idx_of. rewrite Htask, Hshown.
    set (pr1 := (pr + Dashboard.draws env (Dashboard.cursor d) * 15)%Q) in *.
    destruct (Qle_bool 100 pr1) eqn:Hfull.
    + destruct (S c <? length st - 1)%nat eqn:Hnext.
      * apply Nat.ltb_lt in Hnext.
        rewrite take_alter_at, drop_alter_after by lia.
        split; [exact Hdone|]. split; [exact Hwait|].
        intros f Hf. right. exists i, st, (S c), 0%Q. split; [reflexivity|].
        rewrite list_lookup_alter_eq in Hf.
        destruct (Dashboard.processedFiles d !! i); [|discriminate Hf].
        cbn in Hf. injection Hf as <-. reflexivity.
      * assert (Hlen : length (Dashboard.processedFiles d) = length (Dashboard.files d))
          by apply HI.
        destruct (Dashboard.processedFiles d !! i) as [f0|] eqn:Hf0;
          [|apply lookup_ge_None in Hf0; lia].
        split; [|split].
        -- rewrite (take_S_r _ _ _ (eq_trans (list_lookup_alter_eq _ _ _)
                                       (f_equal (fmap _) Hf0))).
           rewrite take_alter_at. apply Forall_app. split; [exact Hdone|].
           constructor; [|constructor].
           now apply (stage_done st c).
        -- rewrite drop_alter_after by lia.
           replace (S (S i)) with (S i + 1)%nat by lia.
           rewrite <- drop_drop. now apply Forall_drop.
        -- intros f Hf. left. rewrite list_lookup_alter_ne in Hf by lia.
           assert (Hin : f ∈ drop (S i) (Dashboard.processedFiles d)).
           { apply list_elem_of_lookup. exists 0%nat. rewrite lookup_drop.
             now rewrite Nat.add_0_r. }
           now apply (proj1 (Forall_forall _ _) Hwait).
    + rewrite take_alter_at, drop_alter_after by lia.
      split; [exact Hdone|]. split; [exact Hwait|].
      intros f Hf. right. exists i, st, c, pr1. split; [reflexivity|].
      rewrite list_lookup_alter_eq in Hf.
      destruct (Dashboard.processedFiles d !! i); [|discriminate Hf].
      cbn in Hf. injection Hf as <-. reflexivity.
  - unfold QueueInv, idx_of.
    cbn [Dashboard.task Dashboard.processedFiles Dashboard.files].
    split; [exact Hdone|]. split; [exact Hwait|].
    intros f Hf. destruct (Hcur f Hf) as [H|(? & ? & ? & ? & H & _)];
      [now left|discriminate H].
  - unfold QueueInv, idx_of. rewrite Ht. auto.
Qed.

Lemma QueueInv_run env fs n : QueueInv (Dashboard.run env n (Dashboard.init fs)).
Proof.
  induction n as [|n IH]; [apply QueueInv_init|].
  rewrite run_S. apply QueueInv_step; [apply RunInv_run|exact IH].
Qed.

Lemma find_app {A} (P : A → bool) (l1 l2 : list A) :
  List.find P (l1 ++ l2)
  = match List.find P l1 with Some x => Some x | None => List.find P l2 end.
Proof.
  induction l1 as [|x l1 IH]; [reflexivity|].
  rewrite <- app_comm_cons. cbn [List.find].
  destruct (P x); [reflexivity|exact IH].
Qed.

Lemma find_none {A} (P : A → bool) (l : list A) :
  Forall (fun x => P x = false) l → List.find P l = None.
Proof. induction 1 as [|x l Hx _ IH]; [reflexivity|]. cbn. now rewrite Hx. Qed.

Lemma filter_none {A} (P : A → bool) (l : list A) :
  Forall (fun x => P x = false) l → List.filter P l = [].
Proof. induction 1 as [|x l Hx _ IH]; [reflexivity|]. cbn. now rewrite Hx. Qed.

Lemma filter_all {A} (P : A → bool) (l : list A) :
  Forall (fun x => P x = true) l → List.filter P l = l.
Proof. induction 1 as [|x l Hx _ IH]; [reflexivity|]. cbn. now rewrite Hx, IH. Qed.

(** The queue is: the files that are done; then the file worked on, if
    any is left; then the files that wait. *)
Lemma queue_shape env d :
  RunInv env d → QueueInv d →
  let pf := Dashboard.processedFiles d in
  (idx_of d ≤ length pf)%nat ∧
  Forall (fun f => Dashboard.is_done f = true) (take (idx_of d) pf) ∧
  Forall (fun f => Dashboard.is_done f = false) (drop (idx_of d) pf) ∧
  Forall (fun f => Dashboard.in_stage f = false) (take (idx_of d) pf) ∧
  Forall (fun f => Dashboard.in_stage f = false) (drop (S (idx_of d)) pf).
Proof.
  intros HI (Hdone & Hwait & Hcur). cbv zeta.
  destruct (phase_of_RunInv env d HI) as (Hidx & Hph & _).
  split; [exact Hidx|]. split; [exact Hdone|]. split; [|split].
  - destruct (Dashboard.processedFiles d !! idx_of d) as [f|] eqn:Hf.
    + rewrite (drop_S _ _ _ Hf). constructor.
      * destruct (Hcur f eq_refl) as [Hu|(i & st & c & pr & Ht & Hs)].
        -- unfold Dashboard.is_done. now rewrite Hu.
        -- rewrite Ht in Hph. destruct Hph as (_ & Hst & Hc).
           now apply (stage_not_done st c).
      * eapply Forall_impl; [exact Hwait|]. intros f' Hu.
        unfold Dashboard.is_done. now rewrite Hu.
    + apply lookup_ge_None in Hf. rewrite drop_ge by lia. constructor.
  - eapply Forall_impl; [exact Hdone|]. intros f Hf.
    unfold Dashboard.is_done in Hf. unfold Dashboard.in_stage.
    now destruct (OMRFile.status f).
  - eapply Forall_impl; [exact Hwait|]. intros f Hu.
    unfold Dashboard.in_stage. now rewrite Hu.
Qed.

Lemma completedCount_idx env d :
  RunInv env d → QueueInv d → Dashboard.completedCount d = idx_of d.
Proof.
  intros HI HQ. destruct (queue_shape env d HI HQ) as (Hidx & Hdone & Hrest & _).
  cbv zeta in *. unfold Dashboard.completedCount.
  rewrite <- (take_drop (idx_of d) (Dashboard.processedFiles d)) at 1.
  rewrite List.filter_app, (filter_all _ _ Hdone), (filter_none _ _ Hrest), app_nil_r.
  rewrite length_take. lia.
Qed.

Lemma currentFile_idx env d f :
  RunInv env d → QueueInv d →
  Dashboard.currentFile d = Some f →
  Dashboard.processedFiles d !! idx_of d = Some f.
Proof.
  intros HI HQ. destruct (queue_shape env d HI HQ) as (Hidx & _ & _ & Hpre & Hpost).
  cbv zeta in *. unfold Dashboard.currentFile.
  rewrite <- (take_drop (idx_of d) (Dashboard.processedFiles d)) at 1.
  rewrite find_app, (find_none _ _ Hpre).
  destruct (Dashboard.processedFiles d !! idx_of d) as [f0|] eqn:Hf.
  - rewrite (drop_S _ _ _ Hf). cbn [List.find].
    destruct (Dashboard.in_stage f0); [congruence|].
    now rewrite (find_none _ _ Hpost).
  - apply lookup_ge_None in Hf. rewrite drop_ge by lia. discriminate.
Qed.

Lemma idx_of_step env d : RunInv env d → (idx_of d ≤ idx_of (Dashboard.step env d))%nat.
Proof.
  intros HI. destruct (phase_of_RunInv env d HI) as (Hidx & Hph & _).
  assert (Hlen : length (Dashboard.processedFiles d) = length (Dashboard.files d))
    by apply HI.
  unfold Dashboard.step, idx_of in *.
  destruct (Dashboard.task d) as [i|i st c pr| |] eqn:Ht.
  - unfold Dashboard.processFile.
    destruct (Nat.leb_spec (length (Dashboard.files d)) i);
      cbn [Dashboard.task Dashboard.files]; lia.
  - destruct Hph as (Hlt & Hst & Hc).
    rewrite (updateProgress_task env d i st c pr Hst Hc Hlt). cbv zeta.
    destruct (Qle_bool _ _); [destruct (_ <? _)%nat|]; lia.
  - cbn [Dashboard.task Dashboard.files]. lia.
  - rewrite Ht. lia.
Qed.

Lemma in_stage_not_done f : Dashboard.in_stage f = true → Dashboard.is_done f = false.
Proof.
  unfold Dashboard.in_stage, Dashboard.is_done. now destruct (OMRFile.status f).
Qed.

(** X16. What the dashboard shows during a run.  The files that are done
    are the first ones of the queue, so the count of done files is the
    position the run has reached; it never goes down and never passes the
    number of files.  The file of the live preview, when there is one, is
    the first file that is not done, and no other file is in a stage.
    Once the completion callback was called every file is done, there is
    no live preview, and the overall progress is 100 percent; for an empty
    queue the overall progress is 0 / 0, not a number, and the callback is
    called with no results after two timers. *)
Theorem dashboard_shows_progress (env : Dashboard.Env) (fs : list OMRFile.t) (n : nat) :
  let d := Dashboard.run env n (Dashboard.init fs) in
  let pf := Dashboard.processedFiles d in
  let k := Dashboard.completedCount d in
  (k ≤ length fs)%nat ∧
  Forall (fun f => Dashboard.is_done f = true) (take k pf) ∧
  Forall (fun f => Dashboard.is_done f = false) (drop k pf) ∧
  (k ≤ Dashboard.completedCount (Dashboard.step env d))%nat ∧
  (∀ f, Dashboard.currentFile d = Some f →
        pf !! k = Some f ∧ Dashboard.is_done f = false ∧
        ∀ j f', pf !! j = Some f' → Dashboard.in_stage f' = true → j = k) ∧
  (Dashboard.delivered d ≠ None →
   k = length fs ∧ Dashboard.currentFile d = None ∧
   (fs ≠ [] → ∃ q, Dashboard.overallProgress d = Fin q ∧ (q == 100)%Q)) ∧
  (fs = [] → Dashboard.overallProgress d = NaN ∧
             Dashboard.delivered (Dashboard.run env 2 (Dashboard.init fs)) = Some []).
Proof.
  cbv zeta. set (d := Dashboard.run env n (Dashboard.init fs)).
  pose proof (RunInv_run env fs n) as HI. fold d in HI.
  pose proof (QueueInv_run env fs n) as HQ. fold d in HQ.
  pose proof (completedCount_idx env d HI HQ) as Hk.
  destruct (queue_shape env d HI HQ) as (Hidx & Hdone & Hrest & Hpre & Hpost).
  cbv zeta in *.
  assert (Hlen : length (Dashboard.processedFiles d) = length fs).
  { destruct HI as (Hl & _). rewrite Hl. unfold d. rewrite run_files.
    apply length_map. }
  rewrite Hk.
  split; [lia|]. split; [exact Hdone|]. split; [exact Hrest|].
  split; [|split; [|split]].
  - rewrite (completedCount_idx env (Dashboard.step env d));
      [now apply idx_of_step|now apply RunInv_step|now apply QueueInv_step].
  - intros f Hf. pose proof (currentFile_idx env d f HI HQ Hf) as Hcur.
    split; [exact Hcur|]. split.
    + apply in_stage_not_done. unfold Dashboard.currentFile in Hf.
      now apply List.find_some in Hf.
    + intros j f' Hj Hst.
      destruct (Nat.lt_trichotomy j (idx_of d)) as [Hlt|[->|Hgt]]; [|reflexivity|].
      * exfalso.
        assert (Hin : f' ∈ take (idx_of d) (Dashboard.processedFiles d)).
        { apply list_elem_of_lookup. exists j. now rewrite lookup_take_lt. }
        apply (proj1 (Forall_forall _ _) Hpre) in Hin. congruence.
      * exfalso.
        assert (Hin : f' ∈ drop (S (idx_of d)) (Dashboard.processedFiles d)).
        { apply list_elem_of_lookup. exists (j - S (idx_of d))%nat.
          rewrite lookup_drop. now replace (S (idx_of d) + (j - S (idx_of d)))%nat
            with j by lia. }
        apply (proj1 (Forall_forall _ _) Hpost) in Hin. congruence.
  - intros Hdel. destruct (phase_of_RunInv env d HI) as (_ & _ & Hfin).
    specialize (Hfin Hdel).
    assert (Hi : idx_of d = length fs).
    { unfold idx_of. rewrite Hfin. unfold d. rewrite run_files. apply length_map. }
    split; [exact Hi|]. split.
    + destruct (Dashboard.currentFile d) as [f|] eqn:Hf; [|reflexivity].
      apply (currentFile_idx env d f HI HQ) in Hf.
      apply lookup_lt_Some in Hf. lia.
    + intros Hne. unfold Dashboard.overallProgress.
      destruct (Dashboard.processedFiles d) as [|f0 pf] eqn:Hpf.
      * destruct fs; [congruence|discriminate Hlen].
      * eexists. split; [reflexivity|]. rewrite Hk, Hi, Hlen.
        assert (Hn : 0 < Z.of_nat (length fs))
          by (destruct fs; [congruence|cbn [length]; lia]).
        field. intros H. pose proof (inject_Z_pos _ Hn) as Hq. rewrite H in Hq.
        now apply Qlt_irrefl in Hq.
  - intros ->. split; [|reflexivity].
    unfold Dashboard.overallProgress.
    destruct (Dashboard.processedFiles d); [reflexivity|discriminate Hlen].
Qed.

(** ** Progress values *)

Lemma Qle_bool_false a b : Qle_bool a b = false → (b < a)%Q.
Proof.
  intros H. apply Qnot_le_lt. intros Hle. apply Qle_bool_iff in Hle. congruence.
Qed.

Lemma ProgressInv_init fs :
  Forall (fun f => (0 <= OMRFile.progress f <= 100)%Q) fs →
  ProgressInv (Dashboard.init fs).
Proof.
  intros H. unfold ProgressInv. cbn [Dashboard.init Dashboard.processedFiles Dashboard.task].
  split; [|split; [|exact I]].
  - apply List.Forall_map. eapply Forall_impl; [exact H|]. intros f Hf. exact Hf.
  - apply List.Forall_map, List.Forall_forall. intros f _. discriminate.
Qed.

Lemma Forall_alter_at {A} (P : A → Prop) (g : A → A) i (l : list A) :
  Forall P l → (∀ x, l !! i = Some x → P (g x)) → Forall P (alter g i l).
Proof.
  intros Hl Hg. apply Forall_lookup. intros j y Hy.
  destruct (decide (j = i)) as [->|Hj].
  - rewrite list_lookup_alter_eq in Hy.
    destruct (l !! i) as [x|] eqn:Hx; [|discriminate Hy].
    cbn in Hy. injection Hy as <-. now apply Hg.
  - rewrite list_lookup_alter_ne in Hy by congruence.
    now apply (proj1 (Forall_lookup _ _) Hl j).
Qed.

Lemma ProgressInv_step env d :
  (∀ k, (0 <= Dashboard.draws env k)%Q) →
  RunInv env d → ProgressInv d → ProgressInv (Dashboard.step env d).
Proof.
  intros Hdraws HI (Hpf & Hdone & Hpr).
  destruct (phase_of_RunInv env d HI) as (_ & Hph & _).
  unfold Dashboard.step.
  destruct (Dashboard.task d) as [i|i st c pr| |] eqn:Ht.
  - unfold Dashboard.processFile, ProgressInv.
    destruct (_ <=? _)%nat; cbn [Dashboard.processedFiles Dashboard.task];
      repeat split; auto; lra.
  - destruct Hph as (Hlt & Hst & Hc).
    pose proof (updateProgress_task env d i st c pr Hst Hc Hlt) as Htask.
    pose proof (updateProgress_shown env d i st c pr Hst Hc Hlt) as Hshown.
    cbv zeta in Htask, Hshown. unfold ProgressInv. rewrite Htask, Hshown.
    pose proof (Hdraws (Dashboard.cursor d)) as Hdraw.
    set (pr1 := (pr + Dashboard.draws env (Dashboard.cursor d) * 15)%Q) in *.
    assert (Hpr1 : (0 <= pr1)%Q) by (unfold pr1; lra).
    destruct (Qle_bool 100 pr1) eqn:Hfull.
    + split; [|split].
      * apply Forall_alter_at; [exact Hpf|]. intros f _. cbn. lra.
      * apply Forall_alter_at; [exact Hdone|]. intros f _ _. reflexivity.
      * destruct (_ <? _)%nat; [lra|exact I].
    + apply Qle_bool_false in Hfull. split; [|split].
      * apply Forall_alter_at; [exact Hpf|]. intros f _. cbn. lra.
      * apply Forall_alter_at; [exact Hdone|]. intros f _ Hd. exfalso.
        assert (Hs : OMRFile.status (Dashboard.with_status (nth c st pending) pr1 f)
                     = nth c st pending) by reflexivity.
        destruct (stage_not_done st c _ Hst Hc Hs) as [Hnd _]. congruence.
      * lra.
  - unfold ProgressInv. cbn [Dashboard.processedFiles Dashboard.task]. auto.
  - unfold ProgressInv. rewrite Ht. auto.
Qed.

Lemma ProgressInv_run env fs n :
  (∀ k, (0 <= Dashboard.draws env k)%Q) →
  Forall (fun f => (0 <= OMRFile.progress f <= 100)%Q) fs →
  ProgressInv (Dashboard.run env n (Dashboard.init fs)).
Proof.
  intros Hdraws Hfs. induction n as [|n IH]; [now apply ProgressInv_init|].
  rewrite run_S. apply ProgressInv_step; [exact Hdraws|apply RunInv_run|exact IH].
Qed.

(** X17. The progress bars stay percentages.  When no draw of
    [Math.random] is negative and the files are queued with a progress
    between 0 and 100, then at every moment of the run the progress of
    every file, and the width of its bar, is between 0 and 100.  A file
    that is done is left with progress 0: the bar of a completed file is
    drawn at 100, and the bar of a failed one is empty. *)
Theorem progress_is_percentage (env : Dashboard.Env) (fs : list OMRFile.t) (n : nat) :
  (∀ k, (0 <= Dashboard.draws env k)%Q) →
  Forall (fun f => (0 <= OMRFile.progress f <= 100)%Q) fs →
  let d := Dashboard.run env n (Dashboard.init fs) in
  Forall (fun f => (0 <= OMRFile.progress f <= 100)%Q ∧
                   (0 <= Dashboard.barWidth f <= 100)%Q ∧
                   (OMRFile.status f = complete → Dashboard.barWidth f = 100%Q) ∧
                   (OMRFile.status f = error → Dashboard.barWidth f = 0%Q))
         (Dashboard.processedFiles d).
Proof.
  intros Hdraws Hfs. cbv zeta.
  destruct (ProgressInv_run env fs n Hdraws Hfs) as (Hpf & Hdone & _).
  apply Forall_lookup. intros j f Hj.
  pose proof (proj1 (Forall_lookup _ _) Hpf j f Hj) as Hp.
  pose proof (proj1 (Forall_lookup _ _) Hdone j f Hj) as Hd.
  unfold Dashboard.barWidth, Dashboard.is_done in *.
  split; [exact Hp|].
  destruct (OMRFile.status f); cbn [Dashboard.is_complete Dashboard.is_error orb] in *;
    repeat split; try discriminate; try lra; try reflexivity.
  intros _. now apply Hd.
Qed.

(** ** The run ends *)

Lemma run_Finished env d k :
  Dashboard.task d = Dashboard.Finished → Dashboard.run env k d = d.
Proof.
  intros Ht. induction k as [|k IH]; [reflexivity|].
  rewrite run_S, IH. unfold Dashboard.step. now rewrite Ht.
Qed.

Lemma length_completed pf : (length (completed pf) ≤ length pf)%nat.
Proof.
  unfold completed. etransitivity; [apply List.filter_length_le|].
  now rewrite length_imap.
Qed.

(** X18. The run ends.  When every draw of [Math.random] is at least some
    positive number, the completion callback is called after finitely many
    timers; from then on no timer is pending and nothing changes any more,
    so it is called once; and it is passed at most one result per file. *)
Theorem pipeline_run_ends (env : Dashboard.Env) (fs : list OMRFile.t) (δ : Q) :
  (0 < δ)%Q →
  (∀ k, (δ <= Dashboard.draws env k)%Q) →
  ∃ n rs,
    Dashboard.delivered (Dashboard.run env n (Dashboard.init fs)) = Some rs ∧
    Dashboard.task (Dashboard.run env n (Dashboard.init fs)) = Dashboard.Finished ∧
    (∀ m, (n ≤ m)%nat →
          Dashboard.run env m (Dashboard.init fs) = Dashboard.run env n (Dashboard.init fs)) ∧
    (length rs ≤ length fs)%nat.
Proof.
  intros Hδ Hdraws.
  destruct (run_finishes env fs δ Hδ Hdraws) as (n & rs & Hdel).
  exists n, rs.
  pose proof (RunInv_run env fs n) as HI.
  destruct (phase_of_RunInv env _ HI) as (_ & _ & Hfin).
  assert (Ht : Dashboard.task (Dashboard.run env n (Dashboard.init fs)) = Dashboard.Finished)
    by (apply Hfin; rewrite Hdel; discriminate).
  split; [exact Hdel|]. split; [exact Ht|]. split.
  - intros m Hm. replace m with ((m - n) + n)%nat by lia.
    rewrite run_add. now apply run_Finished.
  - destruct HI as (Hlen & _ & idx & Hph & _ & Hgen).
    unfold phase_ok in Hph. rewrite Ht in Hph. destruct Hph as (_ & Hd).
    rewrite Hdel in Hd. injection Hd as ->.
    rewrite <- (Forall2_length _ _ _ Hgen).
    etransitivity; [apply length_completed|].
    rewrite length_take, Hlen, run_files, length_map. lia.
Qed.

Lemma sample_draws_nonneg : ∀ k, (0 <= Dashboard.draws sample_env k)%Q.
Proof. intros k. cbn. destruct (k =? 101)%nat; lra. Qed.

Lemma sample_draws_positive : ∀ k, (1 # 20 <= Dashboard.draws sample_env k)%Q.
Proof. intros k. cbn. destruct (k =? 101)%nat; lra. Qed.

Lemma sample_files_progress :
  Forall (fun f => (0 <= OMRFile.progress f <= 100)%Q) sample_files.
Proof. repeat constructor; cbn; lra. Qed.

Lemma progress_is_percentage_witness :
  (∀ k, (0 <= Dashboard.draws sample_env k)%Q) ∧
  Forall (fun f => (0 <= OMRFile.progress f <= 100)%Q) sample_files ∧
  Forall (fun f => (0 <= OMRFile.progress f <= 100)%Q ∧
                   (0 <= Dashboard.barWidth f <= 100)%Q ∧
                   (OMRFile.status f = complete → Dashboard.barWidth f = 100%Q) ∧
                   (OMRFile.status f = error → Dashboard.barWidth f = 0%Q))
         (Dashboard.processedFiles (Dashboard.run sample_env 40 (Dashboard.init sample_files))).
Proof.
  exact (conj sample_draws_nonneg
           (conj sample_files_progress
              (progress_is_percentage sample_env sample_files 40
                 sample_draws_nonneg sample_files_progress))).
Defined.

Lemma sample_delta : (0 < 1 # 20)%Q.
Proof. reflexivity. Qed.

Lemma pipeline_run_ends_witness :
  (0 < 1 # 20)%Q ∧ (∀ k, (1 # 20 <= Dashboard.draws sample_env k)%Q) ∧
  ∃ n rs,
    Dashboard.delivered (Dashboard.run sample_env n (Dashboard.init sample_files)) = Some rs ∧
    Dashboard.task (Dashboard.run sample_env n (Dashboard.init sample_files))
    = Dashboard.Finished ∧
    (∀ m, (n ≤ m)%nat →
          Dashboard.run sample_env m (Dashboard.init sample_files)
          = Dashboard.run sample_env n (Dashboard.init sample_files)) ∧
    (length rs ≤ length sample_files)%nat.
Proof.
  exact (conj sample_delta
           (conj sample_draws_positive
              (pipeline_run_ends sample_env sample_files (1 # 20)
                 sample_delta sample_draws_positive))).
Defined.

(** ** The generator: the other fields of a result *)

(** The fields of a generated result that do not depend on the answers,
    each in terms of the draw it is computed from. *)
Lemma generateMockResult_fields now file index rng k :
  let r := fst (generateMockResult now file index rng k) in
  snd (generateMockResult now file index rng k) = (k + 53)%nat ∧
  id r = OMRFile.id file ∧
  studentId r
  = String.append (at_index MOCK_STUDENT_IDS (index mod 10))
      (String.append "-" (pretty (Qfloor (rng k * 900) + 100))) ∧
  examSet r = nth (Z.to_nat (index mod 4)) [SetA; SetB; SetC; SetD] SetA ∧
  originalImage r
  = String.append "https://picsum.photos/seed/" (String.append (studentId r) "/800/1100") ∧
  confidence r = (rng (k + 51)%nat * (2 # 10) + (8 # 10))%Q ∧
  status r = (if Qltb (confidence r) (9 # 10) then NeedsReview else Complete) ∧
  processingDate r
  = DateObj (now - Qfloor (rng (k + 52)%nat * 30) * DateTime.msPerDay).
Proof.
  cbv zeta.
  assert (H : ∃ scores total ans,
             generateMockResult now file index rng k
             = (let sid := String.append (at_index MOCK_STUDENT_IDS (index mod 10))
                             (String.append "-" (pretty (Qfloor (rng k * 900) + 100))) in
                let c := (rng (k + 51)%nat * (2 # 10) + (8 # 10))%Q in
                Build_StudentResult (OMRFile.id file) sid
                  (nth (Z.to_nat (index mod 4)) [SetA; SetB; SetC; SetD] SetA)
                  scores total c
                  (if Qltb c (9 # 10) then NeedsReview else Complete) ans
                  (String.append "https://picsum.photos/seed/"
                     (String.append sid "/800/1100"))
                  (DateObj (now - Qfloor (rng (k + 52)%nat * 30) * DateTime.msPerDay)),
                (k + 53)%nat)).
  { unfold generateMockResult. rewrite Rand_bind_unfold. unfold random at 1.
    rewrite Rand_bind_unfold.
    destruct (section_loop_spec SECTIONS ∅ 0 [] rng (S k)) as (blocks & Heq & _).
    rewrite Heq. clear Heq.
    replace (S k + 10 * length SECTIONS)%nat with (k + 51)%nat
      by (unfold SECTIONS; cbn [length]; lia).
    rewrite Rand_bind_unfold. unfold random at 1.
    rewrite Rand_bind_unfold. unfold random at 1.
    unfold mret, Rand_ret.
    replace (S (k + 51)) with (k + 52)%nat by lia.
    replace (S (k + 52)) with (k + 53)%nat by lia.
    do 3 eexists. reflexivity. }
  destruct H as (scores & total & ans & ->). cbv zeta.
  cbn [fst snd id studentId examSet originalImage confidence status processingDate].
  repeat split; reflexivity.
Qed.

Lemma Qfloor_scaled (x : Q) (n : Z) :
  0 < n → (0 <= x)%Q → (x < 1)%Q → 0 ≤ Qfloor (x * inject_Z n) ≤ n - 1.
Proof.
  intros Hn H0 H1.
  assert (Hq : (0 < inject_Z n)%Q) by (change 0%Q with (inject_Z 0); now rewrite <- Zlt_Qlt).
  split.
  - change 0 with (Qfloor 0). apply Qfloor_resp_le. nra.
  - assert (Hlt : (inject_Z (Qfloor (x * inject_Z n)) < inject_Z n)%Q).
    { eapply Qle_lt_trans; [apply Qfloor_le|]. nra. }
    rewrite <- Zlt_Qlt in Hlt. lia.
Qed.


Lemma half_draws : ∀ j : nat, (0 <= 1 # 2)%Q ∧ (1 # 2 < 1)%Q.
Proof. intros _. split; reflexivity || discriminate. Qed.


(** ** The insights panel *)

Lemma trimStart_empty (s : string) :
  Js.trimStart s = EmptyString ↔ blank s = true.
Proof.
  induction s as [|c s IH]; cbn [Js.trimStart blank]; [tauto|].
  destruct (Js.is_space c); cbn [andb]; [exact IH|].
  split; discriminate.
Qed.

Lemma trimEnd_empty (s : string) :
  Js.trimEnd s = EmptyString ↔ blank s = true.
Proof.
  induction s as [|c s IH]; cbn [Js.trimEnd blank]; [tauto|].
  destruct (Js.trimEnd s) eqn:E.
  - destruct (Js.is_space c); cbn [andb].
    + split; [intros _; now apply IH|reflexivity].
    + split; discriminate.
  - split; [discriminate|]. intros H. apply andb_prop in H as [_ H].
    apply IH in H. discriminate.
Qed.

Lemma blank_trimStart (s : string) :
  blank (Js.trimStart s) = blank s.
Proof.
  induction s as [|c s IH]; cbn [Js.trimStart blank]; [reflexivity|].
  destruct (Js.is_space c) eqn:E; cbn [andb blank]; [exact IH|].
  now rewrite E.
Qed.

(** [trim] gives the empty string exactly on the strings of white space. *)
Lemma trim_empty (s : string) :
  String.eqb (AnalyticsView.trim s) "" = blank s.
Proof.
  unfold AnalyticsView.trim.
  destruct (blank s) eqn:E.
  - apply String.eqb_eq. apply trimEnd_empty. now rewrite blank_trimStart.
  - apply String.eqb_neq. intros H. apply trimEnd_empty in H.
    rewrite blank_trimStart in H. congruence.
Qed.

Lemma split_cons (sep : ascii) (s : string) :
  ∃ line lines, AnalyticsView.split sep s = line :: lines.
Proof.
  destruct s as [|c s]; cbn [AnalyticsView.split]; [eauto|].
  destruct (Ascii.eqb c sep); [eauto|].
  destruct (AnalyticsView.split sep s); eauto.
Qed.

(** A text is blank exactly when all its lines are. *)
Lemma blank_split (s : string) :
  forallb blank (AnalyticsView.split "010" s) = blank s.
Proof.
  induction s as [|c s IH]; [reflexivity|].
  cbn [AnalyticsView.split blank].
  destruct (Ascii.eqb c "010") eqn:E.
  - apply Ascii.eqb_eq in E. subst c. cbn [forallb blank]. exact IH.
  - destruct (split_cons "010" s) as (line & lines & Hs).
    rewrite Hs in *. cbn [forallb blank] in *. rewrite <- IH.
    now rewrite andb_assoc.
Qed.

Lemma filter_negb_nil {A} (f : A → bool) (l : list A) :
  List.filter (fun x => negb (f x)) l = [] ↔ forallb f l = true.
Proof.
  induction l as [|x l IH]; cbn [List.filter forallb]; [tauto|].
  destruct (f x); cbn [negb andb]; [exact IH|].
  split; discriminate.
Qed.

(** No line of a split contains the separator. *)
Lemma split_no_sep (sep : ascii) (s line : string) :
  In line (AnalyticsView.split sep s) →
  ¬ In sep (list_ascii_of_string line).
Proof.
  revert line. induction s as [|c s IH]; intros line; cbn [AnalyticsView.split].
  - intros [<-|[]]. cbn. tauto.
  - destruct (Ascii.eqb c sep) eqn:E.
    + intros [<-|H]; [cbn; tauto|now apply IH].
    + apply Ascii.eqb_neq in E.
      destruct (split_cons sep s) as (l0 & ls & Hs). rewrite Hs in *.
      intros [<-|H].
      * cbn [list_ascii_of_string]. intros [H|H]; [congruence|].
        apply (IH l0); [now left|exact H].
      * apply IH. now right.
Qed.

(** The lines [renderInsights] keeps. *)
Lemma renderInsights_lines (text : string) (b : AnalyticsView.Block) :
  In b (AnalyticsView.renderInsights text) ↔
  ∃ line, In line (AnalyticsView.split "010" text) ∧ blank line = false ∧
          b = AnalyticsView.render_line line.
Proof.
  unfold AnalyticsView.renderInsights. rewrite List.in_map_iff. split.
  - intros (line & <- & H). apply List.filter_In in H as [H1 H2].
    rewrite trim_empty in H2. exists line. split; [exact H1|].
    split; [now destruct (blank line)|reflexivity].
  - intros (line & H1 & H2 & ->). exists line. split; [reflexivity|].
    apply List.filter_In. split; [exact H1|]. rewrite trim_empty. now rewrite H2.
Qed.

Lemma render_line_cases (line : string) :
  (Str.startsWith line "**" = true ∧ AnalyticsView.endsWith line "**" = true ∧
   AnalyticsView.render_line line = AnalyticsView.Heading (AnalyticsView.remove_stars line)) ∨
  (AnalyticsView.is_numbered line = true ∧
   AnalyticsView.render_line line
   = AnalyticsView.Numbered (AnalyticsView.substring line 0 (Some 2))
                            (AnalyticsView.substring line 2 None)) ∨
  AnalyticsView.render_line line = AnalyticsView.Paragraph line.
Proof.
  unfold AnalyticsView.render_line.
  destruct (Str.startsWith line "**"), (AnalyticsView.endsWith line "**");
    cbn [andb]; auto; destruct (AnalyticsView.is_numbered line); auto.
Qed.

(** *** Headings *)

Lemma remove_stars_cons2 (c d : ascii) (s : string) :
  AnalyticsView.remove_stars (String c (String d s))
  = if Ascii.eqb c "*" && Ascii.eqb d "*" then AnalyticsView.remove_stars s
    else String c (AnalyticsView.remove_stars (String d s)).
Proof. reflexivity. Qed.

Lemma includes_cons (c : ascii) (s t : string) :
  Str.includes (String c s) t = Str.startsWith (String c s) t || Str.includes s t.
Proof. reflexivity. Qed.

Lemma remove_stars_head (c : ascii) (s : string) :
  c ≠ "*"%char →
  AnalyticsView.remove_stars (String c s) = String c (AnalyticsView.remove_stars s).
Proof.
  intros Hc. cbn [AnalyticsView.remove_stars].
  destruct s as [|d s]; [reflexivity|].
  apply Ascii.eqb_neq in Hc. now rewrite Hc.
Qed.

Lemma remove_stars_no_pair_len (n : nat) (s : string) :
  (String.length s ≤ n)%nat →
  Str.includes (AnalyticsView.remove_stars s) "**" = false.
Proof.
  revert s. induction n as [|n IH]; intros s Hn.
  - destruct s; [reflexivity|cbn in Hn; lia].
  - destruct s as [|c [|d s]]; [reflexivity| |].
    + cbn. now rewrite !andb_false_r.
    + cbn [String.length] in Hn.
      rewrite remove_stars_cons2.
      destruct (Ascii.eqb c "*" && Ascii.eqb d "*") eqn:E.
      * apply IH. lia.
      * rewrite includes_cons.
        rewrite (IH (String d s)) by (cbn [String.length]; lia).
        rewrite orb_false_r.
        cbn [Str.startsWith].
        destruct (Ascii.eqb c "*") eqn:Ec; [|reflexivity].
        cbn [andb] in E |- *. apply Ascii.eqb_neq in E.
        rewrite (remove_stars_head d s E). cbn [Str.startsWith].
        apply Ascii.eqb_neq in E. now rewrite E.
Qed.

(** After the replacement no "**" is left. *)
Lemma remove_stars_no_pair (s : string) :
  Str.includes (AnalyticsView.remove_stars s) "**" = false.
Proof. now apply (remove_stars_no_pair_len (String.length s)). Qed.

(** The replacement only deletes characters. *)
Lemma remove_stars_sub (s : string) (c : ascii) :
  In c (list_ascii_of_string (AnalyticsView.remove_stars s)) →
  In c (list_ascii_of_string s).
Proof.
  assert (H : ∀ n s, (String.length s ≤ n)%nat →
                     In c (list_ascii_of_string (AnalyticsView.remove_stars s)) →
                     In c (list_ascii_of_string s)).
  { clear s. induction n as [|n IH]; intros s Hn.
    - destruct s; [auto|cbn in Hn; lia].
    - destruct s as [|a [|d s]]; [auto|auto|].
      cbn [String.length] in Hn. rewrite remove_stars_cons2.
      destruct (Ascii.eqb a "*" && Ascii.eqb d "*").
      + intros H. right. right. apply IH; [lia|exact H].
      + cbn [list_ascii_of_string]. intros [H|H]; [now left|].
        right. apply (IH (String d s)); [cbn [String.length]; lia|exact H]. }
  apply (H (String.length s)). lia.
Qed.

(** *** Numbered lines *)

Lemma substring_whole (s : string) :
  String.substring 0 (String.length s) s = s.
Proof. induction s as [|c s IH]; cbn; [reflexivity|now rewrite IH]. Qed.

Lemma substring_label (d c : ascii) (s : string) :
  AnalyticsView.substring (String d (String c s)) 0 (Some 2)
  = String d (String c EmptyString).
Proof.
  unfold AnalyticsView.substring. cbn [String.length].
  rewrite !Nat2Z.inj_succ.
  set (n := Z.of_nat (String.length s)).
  assert (Hn : 0 ≤ n) by (unfold n; lia).
  replace (Z.min (Z.max 0 0) (Z.succ (Z.succ n))) with 0 by lia.
  replace (Z.min (Z.max 2 0) (Z.succ (Z.succ n))) with 2 by lia.
  change (Z.to_nat (Z.min 0 2)) with 0%nat.
  change (Z.to_nat (Z.max 0 2 - Z.min 0 2)) with 2%nat.
  cbn [String.substring]. now destruct s.
Qed.

Lemma substring_rest (d c : ascii) (s : string) :
  AnalyticsView.substring (String d (String c s)) 2 None = s.
Proof.
  unfold AnalyticsView.substring. cbn [String.length].
  rewrite !Nat2Z.inj_succ.
  set (n := Z.of_nat (String.length s)).
  assert (Hn : 0 ≤ n) by (unfold n; lia).
  replace (Z.min (Z.max 2 0) (Z.succ (Z.succ n))) with 2 by lia.
  replace (Z.min 2 (Z.succ (Z.succ n))) with 2 by lia.
  replace (Z.max 2 (Z.succ (Z.succ n)) - 2) with n by lia.
  change (Z.to_nat 2) with 2%nat. unfold n. rewrite Nat2Z.id.
  cbn [String.substring]. apply substring_whole.
Qed.

(** The shape of a line the pattern accepts. *)
Lemma is_numbered_shape (line : string) :
  AnalyticsView.is_numbered line = true →
  ∃ d c s, line = String d (String c s) ∧ Str.is_digit d = true ∧
           ((c = "."%char ∧ ∃ w r, s = String w r ∧ Js.is_space w = true) ∨
            (Str.is_digit c = true ∧
             ∃ w r, AnalyticsView.skip_digits s = String "." (String w r) ∧
                    Js.is_space w = true)).
Proof.
  destruct line as [|d [|c s]]; cbn [AnalyticsView.is_numbered AnalyticsView.skip_digits].
  - discriminate.
  - now rewrite andb_false_r.
  - intros H. apply andb_prop in H as [Hd H]. exists d, c, s.
    split; [reflexivity|]. split; [exact Hd|].
    destruct (Str.is_digit c) eqn:Hc.
    + right. split; [reflexivity|].
      destruct (AnalyticsView.skip_digits s) as [|a [|w r]]; try discriminate.
      apply andb_prop in H as [Ha Hw]. apply Ascii.eqb_eq in Ha. subst a.
      now exists w, r.
    + left. destruct s as [|w r]; [discriminate|].
      apply andb_prop in H as [Ha Hw]. apply Ascii.eqb_eq in Ha.
      split; [exact Ha|]. now exists w, r.
Qed.

(** *** The panel after a call *)

(** The service returns in every case: the notice without a key, and
    otherwise the text of the response or the error notice, after one
    request. *)
Lemma generateAnalyticsInsights_returns
    (API_KEY : option string) (results : list StudentResult)
    (api : Gemini.Request → Gemini.Response) (log : list Gemini.Request) :
  let req := {| Gemini.model := "gemini-2.5-flash";
                Gemini.contents := JArr (Gemini.detail <$> results) |} in
  Gemini.generateAnalyticsInsights API_KEY results api log
  = if Gemini.key_missing API_KEY then (Gemini.Returns Gemini.keyMissingMessage, log)
    else (Gemini.Returns match api req with
                         | Gemini.Resolved t => t
                         | Gemini.Rejected _ => Gemini.errorMessage
                         end, log ++ [req]).
Proof.
  cbv zeta. unfold Gemini.generateAnalyticsInsights.
  destruct (Gemini.key_missing API_KEY); [reflexivity|].
  unfold Gemini.try_catch, mbind, Gemini.Io_bind, Gemini.generateContent.
  now destruct (api _).
Qed.

(** X20. Whatever the key, the results and the behaviour of the external
    service, a click on the insights button ends with the loading flag
    cleared.  Without a key nothing is sent and the panel shows the
    key notice as one paragraph.  With a key exactly one request is sent;
    when it is rejected the panel shows the error notice as one paragraph;
    when it resolves, the panel holds the text of the response and shows
    it rendered, or shows the invitation and its button again when that
    text is empty. *)
Theorem insights_panel_after_call
    (API_KEY : option string) (results : list StudentResult)
    (s : AnalyticsView.Panel)
    (api : Gemini.Request → Gemini.Response) (log : list Gemini.Request) :
  let s' := fst (AnalyticsView.handleGenerateInsights API_KEY results s api log) in
  let log' := snd (AnalyticsView.handleGenerateInsights API_KEY results s api log) in
  AnalyticsView.isLoadingInsights s' = false ∧
  AnalyticsView.panel_body s' ≠ AnalyticsView.Skeleton ∧
  (Gemini.key_missing API_KEY = true →
   log' = log ∧
   AnalyticsView.panel_body s'
   = AnalyticsView.Rendered [AnalyticsView.Paragraph Gemini.keyMissingMessage]) ∧
  (Gemini.key_missing API_KEY = false →
   ∃ req, log' = log ++ [req] ∧
          match api req with
          | Gemini.Resolved t =>
              AnalyticsView.insights s' = t ∧
              AnalyticsView.panel_body s'
              = if String.eqb t "" then AnalyticsView.Invitation
                else AnalyticsView.Rendered (AnalyticsView.renderInsights t)
          | Gemini.Rejected _ =>
              AnalyticsView.panel_body s'
              = AnalyticsView.Rendered [AnalyticsView.Paragraph Gemini.errorMessage]
          end).
Proof.
  cbv zeta. unfold AnalyticsView.handleGenerateInsights.
  rewrite generateAnalyticsInsights_returns.
  set (req := {| Gemini.model := "gemini-2.5-flash";
                 Gemini.contents := JArr (Gemini.detail <$> results) |}).
  destruct (Gemini.key_missing API_KEY);
    cbn [fst snd AnalyticsView.isLoadingInsights AnalyticsView.insights].
  - split; [reflexivity|]. split; [discriminate|].
    split; [|discriminate]. intros _. split; [reflexivity|].
    vm_compute. reflexivity.
  - split; [reflexivity|]. split.
    + unfold AnalyticsView.panel_body.
      cbn [AnalyticsView.isLoadingInsights AnalyticsView.insights].
      now destruct (negb _).
    + split; [discriminate|]. intros _. exists req. split; [reflexivity|].
      destruct (api req) as [t|e].
      * split; [reflexivity|]. unfold AnalyticsView.panel_body.
        cbn [AnalyticsView.isLoadingInsights AnalyticsView.insights].
        now destruct (String.eqb t "").
      * vm_compute. reflexivity.
Qed.

(** X21. A heading of the rendered insights shows the text of a line that
    begins and ends with two asterisks, with every pair of asterisks taken
    out from left to right: no two asterisks in a row are left in it, and
    it has no other characters than the line. *)
Theorem heading_has_no_markers (text t : string) :
  In (AnalyticsView.Heading t) (AnalyticsView.renderInsights text) →
  Str.includes t "**" = false ∧
  ∃ line, In line (AnalyticsView.split "010" text) ∧
          Str.startsWith line "**" = true ∧
          AnalyticsView.endsWith line "**" = true ∧
          t = AnalyticsView.remove_stars line ∧
          ∀ c, In c (list_ascii_of_string t) → In c (list_ascii_of_string line).
Proof.
  intros H. apply renderInsights_lines in H as (line & Hin & _ & Hb).
  destruct (render_line_cases line) as [(H1 & H2 & Hr)|[(_ & Hr)|Hr]];
    rewrite Hr in Hb; try discriminate.
  injection Hb as ->. split; [apply remove_stars_no_pair|].
  exists line. repeat split; try assumption.
  intros c. apply remove_stars_sub.
Qed.

Lemma sample_heading :
  In (AnalyticsView.Heading "Strengths")
     (AnalyticsView.renderInsights
        (String.append "**Strengths**"
           (String "010" "12. Statistics was the strongest section."))).
Proof. vm_compute. left. reflexivity. Qed.

Lemma heading_has_no_markers_witness :
  In (AnalyticsView.Heading "Strengths")
     (AnalyticsView.renderInsights
        (String.append "**Strengths**"
           (String "010" "12. Statistics was the strongest section."))) ∧
  Str.includes "Strengths" "**" = false.
Proof.
  exact (conj sample_heading
           (proj1 (heading_has_no_markers _ _ sample_heading))).
Defined.

(** X22. A numbered line of the rendered insights is split after its
    second character: the two parts put together are a line of the text,
    and the bold part is a digit followed by the dot, or, for a number of
    two digits or more, its first two digits, the remaining digits and the
    dot being left in the plain part. *)
Theorem numbered_line_parts (text label rest : string) :
  In (AnalyticsView.Numbered label rest) (AnalyticsView.renderInsights text) →
  In (String.append label rest) (AnalyticsView.split "010" text) ∧
  ∃ d c, label = String d (String c EmptyString) ∧ Str.is_digit d = true ∧
         ((c = "."%char ∧ ∃ w r, rest = String w r ∧ Js.is_space w = true) ∨
          (Str.is_digit c = true ∧
           ∃ w r, AnalyticsView.skip_digits rest = String "." (String w r) ∧
                  Js.is_space w = true)).
Proof.
  intros H. apply renderInsights_lines in H as (line & Hin & _ & Hb).
  destruct (render_line_cases line) as [(H1 & H2 & Hr)|[(Hn & Hr)|Hr]];
    rewrite Hr in Hb; try discriminate.
  apply is_numbered_shape in Hn as (d & c & s & -> & Hd & Hc).
  rewrite substring_label, substring_rest in Hb. injection Hb as -> ->.
  split; [exact Hin|]. exists d, c. split; [reflexivity|]. split; [exact Hd|exact Hc].
Qed.

Lemma sample_numbered :
  In (AnalyticsView.Numbered "12" ". Statistics was the strongest section.")
     (AnalyticsView.renderInsights
        (String.append "**Strengths**"
           (String "010" "12. Statistics was the strongest section."))).
Proof. vm_compute. right. left. reflexivity. Qed.

Lemma numbered_line_parts_witness :
  In (AnalyticsView.Numbered "12" ". Statistics was the strongest section.")
     (AnalyticsView.renderInsights
        (String.append "**Strengths**"
           (String "010" "12. Statistics was the strongest section."))) ∧
  In (String.append "12" ". Statistics was the strongest section.")
     (AnalyticsView.split "010"
        (String.append "**Strengths**"
           (String "010" "12. Statistics was the strongest section."))).
Proof.
  exact (conj sample_numbered
           (proj1 (numbered_line_parts _ _ _ sample_numbered))).
Defined.

(** *** Blank lines *)

Lemma block_text_line (line : string) (c : ascii) :
  In c (list_ascii_of_string (block_text (AnalyticsView.render_line line))) →
  In c (list_ascii_of_string line).
Proof.
  destruct (render_line_cases line) as [(H1 & H2 & Hr)|[(Hn & Hr)|Hr]];
    rewrite Hr; cbn [block_text].
  - apply remove_stars_sub.
  - apply is_numbered_shape in Hn as (d & a & s & -> & _).
    rewrite substring_label, substring_rest. auto.
  - auto.
Qed.

(** X23. The rendered insights have one block for each line of the text
    that is not blank, in the order of the lines: a text of white space
    alone gives no block at all, every other text gives at least one, and
    no block shows a line break or a character that its line does not
    have. *)
Theorem blank_lines_are_dropped (text : string) :
  (AnalyticsView.renderInsights text = [] ↔ blank text = true) ∧
  length (AnalyticsView.renderInsights text)
  = length (List.filter (fun line => negb (blank line)) (AnalyticsView.split "010" text)) ∧
  Forall (fun b => ¬ In "010"%char (list_ascii_of_string (block_text b)))
         (AnalyticsView.renderInsights text).
Proof.
  assert (Hf : List.filter (fun line => negb (String.eqb (AnalyticsView.trim line) ""))
                 (AnalyticsView.split "010" text)
               = List.filter (fun line => negb (blank line)) (AnalyticsView.split "010" text)).
  { apply List.filter_ext. intros line. now rewrite trim_empty. }
  split; [|split].
  - unfold AnalyticsView.renderInsights. rewrite Hf.
    rewrite <- blank_split. split.
    + intros H. apply List.map_eq_nil in H. now apply filter_negb_nil in H.
    + intros H. apply filter_negb_nil in H. now rewrite H.
  - unfold AnalyticsView.renderInsights. rewrite Hf. apply List.length_map.
  - apply List.Forall_forall. intros b Hb.
    apply renderInsights_lines in Hb as (line & Hin & _ & ->).
    intros Hc. apply block_text_line in Hc.
    exact (split_no_sep _ _ _ Hin Hc).
Qed.
